(** * reV generation: a shallow embedding of [reV/generation/generation.py],
      of the config and node fan-out helpers of [reV/generation/cli_gen.py]
      and of the logging attributes of [reV/rev_logger.py].

    The Python code is embedded as executable Rocq functions.  Code that
    raises returns an [outcome]; code that logs, warns, touches the file
    system or opens a resource file runs in the state-and-error monad [Py]
    over an explicit [world].  Dictionaries are stdpp [gmap]s, Python
    strings are [string]s read character by character. *)

From Stdlib Require Import ZArith Ascii String DecimalString DecimalZ Lia.
From stdpp Require Import gmap strings list sorting.

Open Scope string_scope.

(** ** Python values the code relies on *)

Module Py.

(** The exception classes the embedded code raises or meets.  All of them
    derive from Python's [Exception]; [EngineError] stands for whatever
    [Exception] the external SAM engine raised (its class and message are
    kept as text). *)
Inductive exn : Type :=
| KeyError (key : string)
| TypeError (msg : string)
| IndexError (msg : string)
| UnboundLocalError (var : string)
| ZeroDivisionError
| RecursionError
| OSError (path : string)
| Exception (msg : string)
| EngineError (cls msg : string)
| OverflowError.

Inductive outcome (A : Type) : Type :=
| Returns (a : A)
| Raises (e : exn).
Arguments Returns {A} a.
Arguments Raises {A} e.

Definition is_newline (c : ascii) : bool := Ascii.eqb c "010"%char.

Definition is_digit (c : ascii) : bool :=
  ((48 <=? nat_of_ascii c) && (nat_of_ascii c <=? 57))%nat.

(** [c in chars] for a character [c]. *)
Fixpoint char_in (c : ascii) (chars : string) : bool :=
  match chars with
  | "" => false
  | String d chars' => Ascii.eqb c d || char_in c chars'
  end.

(** [s.startswith(p)] *)
Definition startswith (p s : string) : bool := String.prefix p s.

(** [s.endswith(suf)]: some tail of [s] is [suf]. *)
Fixpoint endswith (suf s : string) : bool :=
  String.eqb s suf ||
  match s with
  | "" => false
  | String _ s' => endswith suf s'
  end.

(** [sub in s] for strings. *)
Fixpoint contains (sub s : string) : bool :=
  String.prefix sub s ||
  match s with
  | "" => false
  | String _ s' => contains sub s'
  end.

Definition lower_char (c : ascii) : ascii :=
  let n := nat_of_ascii c in
  if ((65 <=? n) && (n <=? 90))%nat then ascii_of_nat (n + 32) else c.

(** [s.lower()], on ASCII letters. *)
Fixpoint lower (s : string) : string :=
  match s with
  | "" => ""
  | String c s' => String (lower_char c) (lower s')
  end.

(** [s[:n]] for [n >= 0]. *)
Fixpoint take (n : nat) (s : string) : string :=
  match n, s with
  | S n', String c s' => String c (take n' s')
  | _, _ => ""
  end.

(** [s.replace(old, new)]: every occurrence of [old], scanning from the
    left without overlap.  [skip] counts the characters of the occurrence
    just replaced that are still to be passed over.  [old] is never empty
    where the code calls it; an empty [old] leaves [s] as it is here. *)
Fixpoint replace_from (old new : string) (skip : nat) (s : string) : string :=
  match s with
  | "" => ""
  | String c s' =>
      match skip with
      | S k => replace_from old new k s'
      | O =>
          if String.prefix old s
          then new ++ replace_from old new (String.length old - 1) s'
          else String c (replace_from old new 0 s')
      end
  end.

Definition replace (old new s : string) : string :=
  match old with
  | "" => s
  | _ => replace_from old new 0 s
  end.

(** [s.lstrip(chars)], [s.rstrip(chars)] and [s.strip(chars)]: [chars] is a
    set of characters, each removed from the end concerned while it lasts. *)
Fixpoint lstrip (chars s : string) : string :=
  match s with
  | "" => ""
  | String c s' => if char_in c chars then lstrip chars s' else s
  end.

Fixpoint rstrip (chars s : string) : string :=
  match s with
  | "" => ""
  | String c s' =>
      match rstrip chars s' with
      | "" => if char_in c chars then "" else String c ""
      | r => String c r
      end
  end.

Definition strip (chars s : string) : string := rstrip chars (lstrip chars s).

(** [str(n)] for an integer. *)
Definition str_of_Z (n : Z) : string := NilZero.string_of_int (Z.to_int n).

Fixpoint zeros (n : nat) : string :=
  match n with
  | O => ""
  | S n' => String "0" (zeros n')
  end.

(** [s.zfill(width)]: zeros go after a leading sign. *)
Definition zfill (width : nat) (s : string) : string :=
  let pad := zeros (width - String.length s) in
  match s with
  | String c s' =>
      if Ascii.eqb c "-" || Ascii.eqb c "+" then String c (pad ++ s')
      else pad ++ s
  | "" => pad
  end.

(** ['{:02d}'.format(i)]: sign-aware zero padding to a width of at least 2. *)
Definition format_02d (i : Z) : string := zfill 2 (str_of_Z i).

(** [int(s)] for a string of ASCII digits. *)
Definition int_of_digits (s : string) : Z :=
  fold_left (fun acc c => (10 * acc + Z.of_nat (nat_of_ascii c - 48))%Z)
            (list_ascii_of_string s) 0%Z.

(** [os.path.join(a, b)] on POSIX. *)
Definition path_join (a b : string) : string :=
  if startswith "/" b then b
  else if String.eqb a "" || endswith "/" a then a ++ b
  else a ++ "/" ++ b.

(** [p[:i], p[i:]] for [i = p.rfind('/') + 1], when [p] holds a slash. *)
Fixpoint split_at_last_slash (p : string) : option (string * string) :=
  match p with
  | "" => None
  | String c p' =>
      match split_at_last_slash p' with
      | Some (head, tail) => Some (String c head, tail)
      | None => if Ascii.eqb c "/" then Some (String c "", p') else None
      end
  end.

Fixpoint all_slashes (s : string) : bool :=
  match s with
  | "" => true
  | String c s' => Ascii.eqb c "/" && all_slashes s'
  end.

(** [os.path.split(p)] on POSIX: the path up to the last slash, without
    its trailing slashes unless it is the root, and what follows. *)
Definition path_split (p : string) : string * string :=
  match split_at_last_slash p with
  | None => ("", p)
  | Some (head, tail) =>
      (if negb (String.eqb head "") && negb (all_slashes head)
       then rstrip "/" head else head, tail)
  end.

(** The last component that [os.makedirs] sees in [p]: the second split
    is for a path that ends in a slash. *)
Definition makedirs_split (p : string) : string * string :=
  let '(head, tail) := path_split p in
  if String.eqb tail "" then path_split head else (head, tail).

(** [re.match(r'.*_x([0-9]{3})', s)], returning [group(1)].

    [tag_at s] matches [_x([0-9]{3})] at the head of [s].  [re.match]
    anchors the pattern at the start of [s]; the greedy [.*] takes the
    longest prefix, so the match found is at the LAST position that works,
    and [.] matches any character except a newline, so the prefix passed
    over holds no newline. *)
Definition tag_at (s : string) : option string :=
  match s with
  | String c0 (String c1 (String d1 (String d2 (String d3 _)))) =>
      if Ascii.eqb c0 "_" && Ascii.eqb c1 "x"
         && is_digit d1 && is_digit d2 && is_digit d3
      then Some (String d1 (String d2 (String d3 "")))
      else None
  | _ => None
  end.

Fixpoint re_match_tag (s : string) : option string :=
  match s with
  | "" => None
  | String c s' =>
      match (if is_newline c then None else re_match_tag s') with
      | Some g => Some g
      | None => tag_at s
      end
  end.

End Py.

Import Py.


(** ** The external collaborators

    The resource reader, the SAM engine, the output writer and the chunk
    planner are not part of these two modules; the code only calls them. *)

(** A time stamp of a resource file's time index, as far as the code looks
    at it ([month] and [day]) plus what tells two stamps apart. *)
Record Timestamp : Type := mkTimestamp {
  year : Z; month : Z; day : Z; hour : Z; minute : Z
}.

#[global] Instance Timestamp_eq_dec : EqDecision Timestamp.
Proof. solve_decision. Defined.

(** An opened resource file ([reV.handlers.resource.Resource]): its time
    index and its datasets in file order, each with the [chunks] attribute
    of the h5 dataset ([None], or the tuple of chunk sizes per dimension). *)
Record Resource : Type := mkResource {
  res_time_index : list Timestamp;
  res_h5 : list (string * option (list Z))
}.

(** [res.dsets] *)
Definition dsets (res : Resource) : list string := (res_h5 res).*1.

(** [res._h5[dset].chunks]; a missing dataset is a [KeyError]. *)
Fixpoint h5_chunks (h5 : list (string * option (list Z))) (dset : string)
  : outcome (option (list Z)) :=
  match h5 with
  | [] => Raises (KeyError dset)
  | (name, chunks) :: h5' =>
      if String.eqb name dset then Returns chunks else h5_chunks h5' dset
  end.

(** Modelled from the spec: the chunk planner [PointsControl] of
    [reV.config.project_points] is not among the source files.  Section 4.1
    and 4.6: an ordered site set, a target chunk size, and the index range
    [[start, stop)] of the sites a chunk holds; iterating yields contiguous
    chunks of the target size in original order, the last one possibly
    smaller, covering every site exactly once. *)
Record PointsControl : Type := mkPointsControl {
  project_points : list Z;
  sites_per_split : Z;
  split_range : nat * nat
}.

(** Modelled from the spec: the index ranges [PointsControl] iterates over,
    for [total] sites in chunks of [k].  A chunk size of zero yields no
    chunk.  [fuel] bounds the number of chunks; [total] is always enough. *)
Fixpoint chunk_ranges (fuel start total k : nat) : list (nat * nat) :=
  match fuel with
  | O => []
  | S fuel' =>
      let stop := Nat.min (start + k) total in
      if (stop <=? start)%nat then []
      else (start, stop) :: chunk_ranges fuel' stop total k
  end.

(** Modelled from the spec: iterating a [PointsControl] gives one
    [PointsControl] per chunk, each knowing its [split_range]. *)
Definition pc_iter (pc : PointsControl) : list PointsControl :=
  let total := length (project_points pc) in
  map (fun r => mkPointsControl (project_points pc) (sites_per_split pc) r)
      (chunk_ranges total 0 total (Z.to_nat (sites_per_split pc))).

(** The sites of a chunk. *)
Definition pc_sites (pc : PointsControl) : list Z :=
  let '(i0, i1) := split_range pc in
  firstn (i1 - i0) (skipn i0 (project_points pc)).

(** The SAM engine: one simulation function per technology, each mapping a
    chunk, a resource file and an output request to a Result Record (site
    identifier to output record) or raising; [pc_str] is [str(pc)]. *)
Class SAM : Type := {
  output : Type;
  pc_str : PointsControl -> string;
  PV_reV_run : PointsControl -> string -> list string -> outcome (gmap Z output);
  CSP_reV_run : PointsControl -> string -> list string -> outcome (gmap Z output);
  LandBasedWind_reV_run :
    PointsControl -> string -> list string -> outcome (gmap Z output);
  OffshoreWind_reV_run :
    PointsControl -> string -> list string -> outcome (gmap Z output)
}.

(** ** The world the code runs in *)

Inductive view : Type := Means | Profiles.

(** What the code does to the world outside its own objects. *)
Inductive event `{SAM} : Type :=
| LogDebug (msg : string)
| LogInfo (msg : string)
| LogException (msg : string) (e : exn)
| Warn (msg : string)
| Makedirs (path : string)
| Write (v : view) (fout mode : string) (table : gmap Z output).

(** The paths that exist, the resource files that can be opened, the
    interpreter's remaining call depth, the trace of events so far, and
    the paths at which the operating system refuses to make a directory
    (a parent that is a file, no permission, a dangling link). *)
Record world `{SAM} : Type := mkWorld {
  fs : gset string;
  resources : gmap string Resource;
  call_depth : nat;
  trace : list event;
  blocked : gset string
}.
Arguments mkWorld {_} _ _ _ _ _.

Section Monad.
Context `{SAM}.

Definition Py (A : Type) : Type := world -> outcome A * world.

Definition ret {A} (a : A) : Py A := fun w => (Returns a, w).

Definition bind {A B} (c : Py A) (k : A -> Py B) : Py B :=
  fun w =>
    match c w with
    | (Returns a, w') => k a w'
    | (Raises e, w') => (Raises e, w')
    end.

Definition raise {A} (e : exn) : Py A := fun w => (Raises e, w).

(** Lifting an expression that has no effect but may raise. *)
Definition eval {A} (o : outcome A) : Py A := fun w => (o, w).

(** [try: c except Exception: h] *)
Definition try_except {A} (c : Py A) (h : exn -> Py A) : Py A :=
  fun w =>
    match c w with
    | (Returns a, w') => (Returns a, w')
    | (Raises e, w') => h e w'
    end.

Definition emit (e : event) : Py unit :=
  fun w => (Returns tt, mkWorld (fs w) (resources w) (call_depth w)
                                (trace w ++ [e]) (blocked w)).

(** [os.path.exists(p)] *)
Definition path_exists (p : string) : Py bool :=
  fun w => (Returns (bool_decide (p ∈ fs w)), w).

(** [os.mkdir(p)]: an [OSError] when [p] is there already or cannot be
    made. *)
Definition mkdir (p : string) : Py unit :=
  fun w =>
    if bool_decide (p ∈ blocked w) || bool_decide (p ∈ fs w)
    then (Raises (OSError p), w)
    else (Returns tt,
          mkWorld ({[p]} ∪ fs w) (resources w) (call_depth w) (trace w)
                  (blocked w)).

(** [os.makedirs(name)] of the Python library: the missing directories
    above [name] are made first, the one furthest up before the others,
    then [name] itself; a name that ends in "/." needs no directory of its
    own.  The library passes over a [FileExistsError] of the call for the
    directories above and goes on to [mkdir(name)], which fails in its
    turn, the directory above not being there; here the first failure is
    the one raised, so the [OSError] may name a path further up than
    Python's does.  [fuel] bounds the nesting; the length of [name] is
    always enough. *)
Fixpoint makedirs_at (fuel : nat) (name : string) : Py unit :=
  match fuel with
  | O => mkdir name
  | S fuel' =>
      let '(head, tail) := makedirs_split name in
      bind
        (if negb (String.eqb head "") && negb (String.eqb tail "") then
           bind (path_exists head) (fun found =>
             if negb found then
               bind (makedirs_at fuel' head) (fun _ =>
                 ret (String.eqb tail "."))
             else ret false)
         else ret false)
        (fun stop => if stop then ret tt else mkdir name)
  end.

(** [os.makedirs(p)], on record in the trace when it has returned. *)
Definition makedirs (p : string) : Py unit :=
  bind (makedirs_at (String.length p) p) (fun _ => emit (Makedirs p)).

(** [with Resource(res_file) as res] *)
Definition open_resource (res_file : string) : Py Resource :=
  fun w =>
    match resources w !! res_file with
    | Some res => (Returns res, w)
    | None => (Raises (OSError res_file), w)
    end.

(** The output writer ([CapacityFactor.write_means] / [write_profiles]):
    the file named comes to exist, whatever was there before. *)
Definition write_h5 (v : view) (fout mode : string) (table : gmap Z output)
  : Py unit :=
  fun w => (Returns tt,
            mkWorld ({[fout]} ∪ fs w) (resources w) (call_depth w)
                    (trace w ++ [Write v fout mode table]) (blocked w)).

End Monad.

Arguments makedirs {_} _ _ : simpl never.

Notation "'let*' x ':=' c 'in' k" := (bind c (fun x => k))
  (at level 10, x pattern, c at level 100, k at level 200).
Notation "c ';;' k" := (bind c (fun _ => k))
  (at level 100, k at level 200, right associativity).

(** ** [reV/generation/generation.py]: class [Gen] *)

Module Gen.
Section Gen.
Context `{SAM}.

(** The double quote, for messages that hold one. *)
Definition dq : string := String (ascii_of_nat 34) "".

(** A [Gen] object.  [_out] and [_time_index] are attributes set on first
    use: [None] is [not hasattr(self, ...)]. *)
Record instance : Type := mkGen {
  _points_control : PointsControl;
  _res_file : string;
  _output_request : list string;
  _fout : option string;
  _dirout : option string;
  _out : option (gmap Z output);
  _time_index : option (list Timestamp)
}.

(** [Gen.__init__] *)
Definition init (points_control : PointsControl) (res_file : string)
    (output_request : list string) (fout dirout : option string) : instance :=
  mkGen points_control res_file output_request fout dirout None None.

Definition with_out (self : instance) (out : gmap Z output) : instance :=
  mkGen (_points_control self) (_res_file self) (_output_request self)
        (_fout self) (_dirout self) (Some out) (_time_index self).

Definition with_time_index (self : instance) (ti : list Timestamp) : instance :=
  mkGen (_points_control self) (_res_file self) (_output_request self)
        (_fout self) (_dirout self) (_out self) (Some ti).

Definition sim : Type :=
  PointsControl -> string -> list string -> outcome (gmap Z output).

(** [Gen.funs]: the name-keyed table of SAM generation functions. *)
Definition funs : gmap string sim :=
  list_to_map [("pv", PV_reV_run); ("csp", CSP_reV_run);
               ("landbasedwind", LandBasedWind_reV_run);
               ("offshorewind", OffshoreWind_reV_run)].

(** [Gen.funs[tech]]; [tech] defaults to [None], which is no key either. *)
Definition funs_getitem (tech : option string) : outcome sim :=
  match tech with
  | Some t =>
      match funs !! t with
      | Some f => Returns f
      | None => Raises (KeyError t)
      end
  | None => Raises (KeyError "None")
  end.

(** [d.update(x)]: the entries of [x] replace those of [d]. *)
Definition update (d x : gmap Z output) : gmap Z output := x ∪ d.

(** [Gen.out] (getter): the attribute is created empty on first use. *)
Definition out (self : instance) : gmap Z output * instance :=
  match _out self with
  | Some o => (o, self)
  | None => (∅, with_out self ∅)
  end.

(** [Gen.unpack_futures] *)
Definition unpack_futures (futures : list (gmap Z output)) : gmap Z output :=
  foldl update ∅ futures.

(** What the [out] setter may be handed. *)
Inductive result_value : Type :=
| RList (futures : list (gmap Z output))
| RDict (d : gmap Z output)
| RNone
| ROther (type_name : string).

(** [Gen.out] (setter) *)
Definition set_out (self : instance) (result : result_value) : outcome instance :=
  let o := default ∅ (_out self) in
  match result with
  | RList futures => Returns (with_out self (update o (unpack_futures futures)))
  | RDict d => Returns (with_out self (update o d))
  | RNone => Returns (with_out self ∅)
  | ROther ty =>
      Raises (TypeError ("Did not recognize the type of generation output. " ++
                         "Tried to set output type " ++ dq ++ ty ++ dq ++
                         ", but requires list, dict or None."))
  end.

(** Pandas: the boolean mask [(index.month == 2) & (index.day == 29)]. *)
Definition leap_day_mask (index : list Timestamp) : list bool :=
  map (fun t => (month t =? 2)%Z && (day t =? 29)%Z) index.

(** Pandas: [index[mask]], the entries whose mask bit is set. *)
Fixpoint index_select (index : list Timestamp) (mask : list bool)
  : list Timestamp :=
  match index, mask with
  | t :: index', b :: mask' =>
      if b then t :: index_select index' mask' else index_select index' mask'
  | _, _ => []
  end.

(** Pandas: [index.drop(labels)] deletes every entry equal to one of
    [labels], and raises [KeyError] when a label is not in the index. *)
Definition index_drop (index labels : list Timestamp) : outcome (list Timestamp) :=
  if forallb (fun l => bool_decide (l ∈ index)) labels
  then Returns (filter (fun t => t ∉ labels) index)
  else Raises (KeyError "labels not found in axis").

(** [Gen.time_index]: a property, so [drop_leap] is always its default. *)
Definition time_index (self : instance) : Py (list Timestamp * instance) :=
  let drop_leap := true in
  match _time_index self with
  | Some ti => ret (ti, self)
  | None =>
      let* res := open_resource (_res_file self) in
      let ti := res_time_index res in
      let* ti :=
        (if drop_leap
         then let leap_day := leap_day_mask ti in
              eval (index_drop ti (index_select ti leap_day))
         else ret ti) in
      ret (ti, with_time_index self ti)
  end.

(** The loop of [sites_per_core] over [res.dsets]: the local [chunks] is
    bound by the first dataset whose name holds ['speed'], and stays
    unbound ([None]) when there is none. *)
Fixpoint first_speed_chunks (res : Resource) (names : list string)
  : outcome (option (option (list Z))) :=
  match names with
  | [] => Returns None
  | dset :: names' =>
      if contains "speed" dset
      then match h5_chunks (res_h5 res) dset with
           | Returns c => Returns (Some c)
           | Raises e => Raises e
           end
      else first_speed_chunks res names'
  end.

(** [chunks[1]] *)
Definition chunks_1 (chunks : list Z) : outcome Z :=
  match chunks with
  | _ :: c :: _ => Returns c
  | _ => Raises (IndexError "tuple index out of range")
  end.

(** [Gen.sites_per_core] *)
Definition sites_per_core (res_file : string) (default : Z) : Py Z :=
  let* chunks :=
    (let* res := open_resource res_file in
     if contains "wtk" (lower res_file) then
       eval (first_speed_chunks res (dsets res))
     else if contains "nsrdb" (lower res_file) then
       let* c := eval (h5_chunks (res_h5 res) "dni") in ret (Some c)
     else
       raise (Exception ("Expected " ++ dq ++ "nsrdb" ++ dq ++ " or " ++ dq ++
                         "wtk" ++ dq ++ " to be in resource filename: " ++
                         res_file))) in
  match chunks with
  | None => raise (UnboundLocalError "chunks")
  | Some None =>
      let sites_per_core := default in
      emit (LogDebug ("Sites per core being set to " ++ str_of_Z sites_per_core ++
                      " (default) based on no set chunk size in " ++
                      res_file ++ ".")) ;;
      ret sites_per_core
  | Some (Some c) =>
      let* sites_per_core := eval (chunks_1 c) in
      emit (LogDebug ("Sites per core being set to " ++ str_of_Z sites_per_core ++
                      " based on chunk size of " ++ res_file ++ ".")) ;;
      ret sites_per_core
  end.

(** [Gen.get_unique_fout].  The function calls itself; [depth] is the call
    depth the interpreter still allows, and running out of it is Python's
    [RecursionError]. *)
Fixpoint get_unique_fout_at (depth : nat) (fout : string) : Py string :=
  match depth with
  | O => raise RecursionError
  | S depth' =>
      let* found := path_exists fout in
      if found then
        match re_match_tag fout with
        | Some g =>
            let new_tag := "_x" ++ zfill 3 (str_of_Z (int_of_digits g + 1)) in
            let fout := replace ("_x" ++ g) new_tag fout in
            get_unique_fout_at depth' fout
        | None => ret fout
        end
      else ret fout
  end.

Definition get_unique_fout (fout : string) : Py string :=
  fun w => get_unique_fout_at (call_depth w) fout w.

(** [Gen.handle_fout]; [dirout] is falsy when [None] or empty. *)
Definition handle_fout (fout : string) (dirout : option string) : Py string :=
  let* fout :=
    (if negb (endswith ".h5" fout) then
       let fout := fout ++ ".h5" in
       emit (Warn ("Generation output file request must be .h5, set to: " ++
                   dq ++ fout ++ dq)) ;;
       ret fout
     else ret fout) in
  let* fout :=
    (match dirout with
     | Some d =>
         if String.eqb d "" then ret fout
         else
           let* found := path_exists d in
           (if negb found then makedirs d else ret tt) ;;
           ret (path_join d fout)
     | None => ret fout
     end) in
  let fout := replace ".h5" "_x000.h5" fout in
  get_unique_fout fout.

(** [repr] of a string without quotes or escapes, and [str] of a tuple of
    such strings, as in [str(self.output_request)]. *)
Definition repr_str (s : string) : string := "'" ++ s ++ "'".

Fixpoint join (sep : string) (l : list string) : string :=
  match l with
  | [] => ""
  | [s] => s
  | s :: l' => s ++ sep ++ join sep l'
  end.

Definition str_tuple (l : list string) : string :=
  match l with
  | [s] => "(" ++ repr_str s ++ ",)"
  | _ => "(" ++ join ", " (map repr_str l) ++ ")"
  end.

(** [Gen.meta]: the resource file is opened to read the sites' rows. *)
Definition meta (self : instance) : Py unit :=
  let* _ := open_resource (_res_file self) in ret tt.

(** [Gen.means_to_disk] and [Gen.profiles_to_disk]: the table goes to the
    output writer, which is external. *)
Definition means_to_disk (self : instance) (fout mode : string) : Py instance :=
  let '(o, self) := out self in
  meta self ;;
  write_h5 Means fout mode o ;;
  ret self.

Definition profiles_to_disk (self : instance) (fout mode : string) : Py instance :=
  let '(o, self) := out self in
  meta self ;;
  let* (_, self) := time_index self in
  write_h5 Profiles fout mode o ;;
  ret self.

(** Python truthiness of a dict. *)
Definition dict_truthy (d : gmap Z output) : bool := negb (bool_decide (d = ∅)).

(** [Gen.flush] *)
Definition flush (self : instance) (mode : string) : Py instance :=
  let fout := _fout self in
  let dirout := _dirout self in
  match fout with
  | Some fout =>
      let '(o, self) := out self in
      if dict_truthy o then
        let* fout := handle_fout fout dirout in
        emit (LogInfo ("Flushing generation outputs to disk, target file: " ++
                       fout)) ;;
        let* self :=
          (if contains "profile" (str_tuple (_output_request self))
           then profiles_to_disk self fout mode
           else means_to_disk self fout mode) in
        emit (LogDebug "Flushed generation output successfully to disk.") ;;
        ret self
      else ret self
  | None => ret self
  end.

(** [Gen.run] *)
Definition run (points_control : PointsControl) (tech : option string)
    (res_file : string) (output_request : list string) : Py (gmap Z output) :=
  try_except
    (let* f := eval (funs_getitem tech) in
     eval (f points_control res_file output_request))
    (fun e =>
       let out := ∅ in
       emit (LogException ("Worker failed for PC: " ++ pc_str points_control) e) ;;
       ret out).

End Gen.
End Gen.

(** The first step of [Gen.run_smart]: an unspecified chunk size is taken
    from the resource file ([sites_per_core] with its default of 100). *)
Definition run_smart_sites_per_split `{SAM} (sites_per_split : option Z)
    (res_file : string) : Py Z :=
  match sites_per_split with
  | None => Gen.sites_per_core res_file 100
  | Some k => ret k
  end.

(** ** [reV/generation/cli_gen.py]: node fan-out *)

Module CliGen.

(** The [points] argument of the command line: what [isinstance] tells
    apart. *)
Inductive points_arg : Type :=
| PStr (csv : string)
| PSlice (start stop : Z)
| PList (sites : list Z)
| PTuple (sites : list Z)
| POther (type_name : string).

(** [a / b] for two positive ints.  Python divides ints into a float: the
    exact quotient rounded to the nearest binary64 number, ties to the even
    one.  The float is [m * 2 ^ e], with [m] below [2 ^ 53] before rounding
    and [e] at least -1074; a quotient too small for that is rounded to a
    subnormal number or to zero.  A quotient too large for a float makes
    Python raise; the dividend here is always a length, which is below
    [2 ^ 63], so that is out of reach and the model has no largest [e]. *)
Definition true_div_abs (n d : Z) : Z * Z :=
  (if n =? 0 then (0, 0)
   else
     let e1 := Z.log2 n - Z.log2 d - 52 in
     let e2 :=
       if n * 2 ^ Z.max 0 (- e1) <? d * 2 ^ (52 + Z.max 0 e1)
       then e1 - 1 else e1 in
     let e := Z.max e2 (-1074) in
     let num := n * 2 ^ Z.max 0 (- e) in
     let den := d * 2 ^ Z.max 0 e in
     let q := num / den in
     let r := num mod den in
     let m :=
       if (den <? 2 * r) || ((den =? 2 * r) && Z.odd q) then q + 1 else q in
     (m, e))%Z.

(** [math.ceil(a / b)] for ints, [b] not zero: the float quotient, with the
    sign of the exact one, rounded up to an int. *)
Definition ceil_div (a b : Z) : Z :=
  (let '(m, e) := true_div_abs (Z.abs a) (Z.abs b) in
   let negative := xorb (a <? 0) (b <? 0) in
   if 0 <=? e then (if negative then - (m * 2 ^ e) else m * 2 ^ e)
   else if negative then - (m / 2 ^ (- e))
   else - ((- m) / 2 ^ (- e)))%Z.

(** [get_node_pc].  [pp] is the site set that [ProjectPoints(points,
    sam_files, tech, res_file=res_file)] builds (an external constructor);
    a node count of zero is Python's [ZeroDivisionError]. *)
Definition get_node_pc (points : points_arg) (pp : list Z) (nodes : Z)
  : outcome PointsControl :=
  match points with
  | POther ty =>
      Raises (TypeError ("Generation Points input type is unrecognized: " ++
                         Gen.dq ++ ty ++ Gen.dq))
  | _ =>
      if (nodes =? 0)%Z then Raises ZeroDivisionError
      else
        let sites_per_node := ceil_div (Z.of_nat (length pp)) nodes in
        Returns (mkPointsControl pp sites_per_node (0, length pp))
  end.

(** The local [lim] of [get_node_name_fout]: bound for the two schedulers
    the code names, unbound otherwise.  The code compares with [is]; the
    callers pass the literals ['slurm'] and ['pbs'], which CPython interns,
    so identity and equality agree there. *)
Definition name_limit (hpc : string) : option nat :=
  if String.eqb hpc "slurm" then Some 6
  else if String.eqb hpc "pbs" then Some 14
  else None.

(** [get_node_name_fout] *)
Definition get_node_name_fout (name fout : string) (i : Z) (hpc : string)
  : outcome (string * string) :=
  match name_limit hpc with
  | None => Raises (UnboundLocalError "lim")
  | Some lim =>
      let node_name := take lim name ++ format_02d i in
      let fout := if endswith ".h5" fout then strip ".h5" fout else fout in
      let fout_node := fout ++ "_node" ++ format_02d i ++ ".h5" in
      Returns (node_name, fout_node)
  end.

(** The sub-ranges the node loop of [peregrine] and [eagle] hands out:
    [split.split_range] for [i, split in enumerate(pc)]. *)
Definition node_ranges (pc : PointsControl) : list (nat * nat) :=
  map split_range (pc_iter pc).

(** The start of the node loop of [peregrine] and [eagle]:
    [pc = get_node_pc(...)], then one sub-range per [split] of [pc]. *)
Definition fan_out (points : points_arg) (pp : list Z) (nodes : Z)
  : outcome (list (nat * nat)) :=
  match get_node_pc points pp nodes with
  | Returns pc => Returns (node_ranges pc)
  | Raises e => Raises e
  end.

(** The names the node loop gives node [i], for every chunk of [pc]. *)
Definition node_names (name fout hpc : string) (pc : PointsControl)
  : list (outcome (string * string)) :=
  imap (fun i _ => get_node_name_fout name fout (Z.of_nat i) hpc) (pc_iter pc).

End CliGen.

(** Modelled from the spec: the serial dispatcher [execute_single] of
    [reV.utilities.execution] is not among the source files.  Section 4.3,
    serial mode: one chunk is run to completion before the next starts, in
    original order, and the Result Records are collected in that order. *)
Fixpoint execute_single `{SAM} {A : Type} (worker : PointsControl -> Py A)
    (chunks : list PointsControl) : Py (list A) :=
  match chunks with
  | [] => ret []
  | pc :: chunks' =>
      let* r := worker pc in
      let* rs := execute_single worker chunks' in
      ret (r :: rs)
  end.

(** ** [reV/generation/generation.py]: the means view *)

Module GenViews.
Section Views.

(** An output record is a dict from an output name to what the engine
    computed for it; [getitem r name] is [r[name]], if the record has it.
    The table [gen_out] is a dict; here it is the list of its items in
    the order of insertion, which is the order Python goes through it, each
    key once. *)
Context `{SAM} {cell : Type} (getitem : output -> string -> option cell).

(** [float(k)] for an int: the nearest binary64 number, ties to the even
    one, given by its value, which is an integer; [OverflowError] when the
    nearest would be [2 ^ 1024] or more. *)
Definition float_of_int (k : Z) : outcome Z :=
  (let a := Z.abs k in
   let e := Z.max 0 (Z.log2 a - 52) in
   let q := a / 2 ^ e in
   let r := a mod 2 ^ e in
   let m :=
     if (2 ^ e <? 2 * r) || ((2 ^ e =? 2 * r) && Z.odd q) then q + 1 else q in
   if 2 ^ 1024 <=? m * 2 ^ e then Raises OverflowError
   else Returns (Z.sgn k * (m * 2 ^ e)))%Z.

(** [[(float(k), k) for k in keys]], the keys [sorted] works out before it
    sorts. *)
Fixpoint float_keys (keys : list Z) : outcome (list (Z * Z)) :=
  match keys with
  | [] => Returns []
  | k :: keys' =>
      match float_of_int k with
      | Raises e => Raises e
      | Returns f =>
          match float_keys keys' with
          | Raises e => Raises e
          | Returns l => Returns ((f, k) :: l)
          end
      end
  end.

(** Python's sort is stable: of two items with the same key, the one that
    came first stays first. *)
Fixpoint insert_key (x : Z * Z) (l : list (Z * Z)) : list (Z * Z) :=
  match l with
  | [] => [x]
  | y :: l' => if (x.1 <=? y.1)%Z then x :: l else y :: insert_key x l'
  end.

Fixpoint stable_sort (l : list (Z * Z)) : list (Z * Z) :=
  match l with
  | [] => []
  | x :: l' => insert_key x (stable_sort l')
  end.

(** [sorted(list(gen_out.keys()), key=float)] *)
Definition sorted_keys (gen_out : list (Z * output)) : outcome (list Z) :=
  match float_keys gen_out.*1 with
  | Raises e => Raises e
  | Returns l => Returns (stable_sort l).*2
  end.

(** [gen_out[k]] *)
Fixpoint lookup (gen_out : list (Z * output)) (k : Z) : option output :=
  match gen_out with
  | [] => None
  | (k', r) :: rest => if (k =? k')%Z then Some r else lookup rest k
  end.

(** [[gen_out[k][name] for k in keys]] *)
Fixpoint collect (name : string) (gen_out : list (Z * output)) (keys : list Z)
  : outcome (list cell) :=
  match keys with
  | [] => Returns []
  | k :: keys' =>
      match lookup gen_out k with
      | None => Raises (KeyError (str_of_Z k))
      | Some r =>
          match getitem r name with
          | None => Raises (KeyError name)
          | Some v =>
              match collect name gen_out keys' with
              | Raises e => Raises e
              | Returns vs => Returns (v :: vs)
              end
          end
      end
  end.

(** [Gen.unpack_cf_means]; the list it builds goes to [np.array]. *)
Definition unpack_cf_means (gen_out : list (Z * output)) : outcome (list cell) :=
  match sorted_keys gen_out with
  | Raises e => Raises e
  | Returns keys => collect "cf_mean" gen_out keys
  end.

End Views.
End GenViews.

(** ** [reV/generation/cli_gen.py]: submitting one year of a config run *)

Module CliSubmit.

(** [s[n:]] for [n >= 0], and [s[-n:]] for [n > 0]: the last [n]
    characters, or all of [s] when it is shorter. *)
Fixpoint drop (n : nat) (s : string) : string :=
  match n, s with
  | S n', String _ s' => drop n' s'
  | _, _ => s
  end.

Definition last_chars (n : nat) (s : string) : string :=
  drop (String.length s - n) s.

(** [re.match(r'.*([1-3][0-9]{3})', name)], as far as the code looks at
    it: whether there is a match.  [year_at s] matches [[1-3][0-9]{3}] at
    the head of [s]; the [.*] before it passes over any characters but a
    newline. *)
Definition year_at (s : string) : bool :=
  match s with
  | String c (String d1 (String d2 (String d3 _))) =>
      char_in c "123" && is_digit d1 && is_digit d2 && is_digit d3
  | _ => false
  end.

Fixpoint re_match_year (s : string) : bool :=
  match s with
  | "" => false
  | String c s' =>
      (if is_newline c then false else re_match_year s') || year_at s
  end.

(** The values the commands keep in [ctx.obj]. *)
Inductive ctx_value : Type :=
| VStr (s : string)
| VInt (n : Z)
| VBool (b : bool)
| VNone
| VObject (repr : string).

(** What [submit_from_config] raises: the Python exceptions of [Py.exn],
    and [ConfigError] of [reV.utilities.exceptions]. *)
Inductive cli_exn : Type :=
| PyExn (e : exn)
| ConfigError (msg : string).

Inductive result (A : Type) : Type :=
| Done (a : A)
| Fail (e : cli_exn).
Arguments Done {A} a.
Arguments Fail {A} e.

Section Submit.

(** The scheduler requests of [config.execution_control] that are passed
    on as they are: [alloc], [queue], [feature], [walltime], [node_mem]. *)
Context {requests : Type}.

(** [config.execution_control] *)
Record ExecutionControl : Type := mkExecutionControl {
  option : string;
  ppn : Z;
  nodes : Z;
  hpc_requests : requests
}.

(** The [GenConfig] object, as far as [submit_from_config] reads it;
    [points_control_len] is [len(config.points_control)]. *)
Record GenConfig : Type := mkGenConfig {
  res_files : list string;
  points_control_len : nat;
  dirout : string;
  execution_control : ExecutionControl
}.

(** The command that [ctx.invoke] is handed, with its arguments. *)
Inductive invocation : Type :=
| InvokeLocal (n_workers : Z) (points_range : unit) (verbose : bool)
| InvokePeregrine (nodes : Z) (req : requests) (stdout_path : string)
                  (verbose : bool)
| InvokeEagle (nodes : Z) (req : requests) (stdout_path : string)
              (verbose : bool).

(** [submit_from_config].  [year] stands for [str(year)], the only way the
    code uses it; [ctx] is [ctx.obj], handed back as the call leaves it,
    also when it raises. *)
Definition submit_from_config (ctx : gmap string ctx_value)
    (name year : string) (config : GenConfig) (verbose : bool) (i : nat)
  : result invocation * gmap string ctx_value :=
  match res_files config !! i with
  | None => (Fail (PyExn (IndexError "list index out of range")), ctx)
  | Some res_file =>
      let ctx := <["RES_FILE" := VStr res_file]> ctx in
      let matched := re_match_year name in
      let ctx :=
        if negb matched
        then <["FOUT" := VStr (name ++ "_" ++ year ++ ".h5")]> ctx
        else ctx in
      if negb (contains year res_file) then
        (Fail (PyExn (Exception
           ("Resource file and year do not appear to match. " ++
            "Expected the string representation of the year " ++
            "to be in the resource file name. " ++
            "Year: " ++ year ++ ", Resource file: " ++ res_file))), ctx)
      else
        let ec := execution_control config in
        if String.eqb (option ec) "local" then
          if (ppn ec =? 0)%Z then (Fail (PyExn ZeroDivisionError), ctx)
          else
            let sites_per_core :=
              CliGen.ceil_div (Z.of_nat (points_control_len config)) (ppn ec) in
            let ctx := <["SITES_PER_CORE" := VInt sites_per_core]> ctx in
            (Done (InvokeLocal (ppn ec) tt verbose), ctx)
        else if String.eqb (option ec) "peregrine" then
          let ctx :=
            if negb matched
            then <["NAME" := VStr (take 11 name ++ "_" ++ last_chars 2 year)]> ctx
            else ctx in
          (Done (InvokePeregrine (nodes ec) (hpc_requests ec)
                   (path_join (dirout config) "stdout") verbose), ctx)
        else if String.eqb (option ec) "eagle" then
          let ctx :=
            if negb matched
            then <["NAME" := VStr (take 3 name ++ "_" ++ last_chars 2 year)]> ctx
            else ctx in
          (Done (InvokeEagle (nodes ec) (hpc_requests ec)
                   (path_join (dirout config) "stdout") verbose), ctx)
        else
          (Fail (ConfigError ("Execution option not recognized: " ++
                              Gen.dq ++ option ec ++ Gen.dq)), ctx)
  end.

End Submit.

Arguments ExecutionControl : clear implicits.
Arguments GenConfig : clear implicits.
Arguments invocation : clear implicits.

End CliSubmit.

(** ** [reV/rev_logger.py] *)

Module RevLogger.

(** The values the logging attributes take: [None], a string (a level, a
    format, a log file) or a list (of log files). *)
#[warnings="-register-all"]
Inductive value : Type :=
| VNone
| VStr (s : string)
| VList (l : list value).

(** [a == b] *)
Fixpoint value_eqb (a b : value) : bool :=
  match a, b with
  | VNone, VNone => true
  | VStr s, VStr t => String.eqb s t
  | VList l, VList m =>
      (fix all2 (l m : list value) : bool :=
         match l, m with
         | [], [] => true
         | x :: l', y :: m' => value_eqb x y && all2 l' m'
         | _, _ => false
         end) l m
  | _, _ => false
  end.

(** [v in l] *)
Definition value_in (v : value) (l : list value) : bool :=
  existsb (value_eqb v) l.

(** Python truthiness. *)
Definition truthy (v : value) : bool :=
  match v with
  | VNone => false
  | VStr s => negb (String.eqb s "")
  | VList l => match l with [] => false | _ => true end
  end.

(** [list(v)]: a string gives its characters, a list a copy of itself. *)
Definition py_list (v : value) : outcome (list value) :=
  match v with
  | VNone => Raises (TypeError "'NoneType' object is not iterable")
  | VStr s => Returns (map (fun c => VStr (String c "")) (list_ascii_of_string s))
  | VList l => Returns l
  end.

Definition FORMAT : string :=
  "%(levelname)s - %(asctime)s [%(filename)s:%(lineno)d] : %(message)s".

(** [LOG_LEVEL], with the numbers of the [logging] module. *)
Definition LOG_LEVEL : gmap string Z :=
  list_to_map [("INFO", 20); ("DEBUG", 10); ("WARNING", 30); ("ERROR", 40);
               ("CRITICAL", 50)]%Z.

(** [LOG_LEVEL[log_level]] *)
Definition LOG_LEVEL_getitem (log_level : value) : outcome Z :=
  match log_level with
  | VStr s =>
      match LOG_LEVEL !! s with
      | Some n => Returns n
      | None => Raises (KeyError s)
      end
  | VNone => Raises (KeyError "None")
  | VList _ => Raises (TypeError "unhashable type: 'list'")
  end.

(** The handlers of Python's [logging] module, which the code only calls:
    [FileHandler(log_file, mode='a')], [StreamHandler()], a handler given
    [logging.Formatter(log_format)] by [setFormatter], and [str(handler)],
    which the library makes of the handler's class, file and level (Python
    3.6 and later).  What creating a handler does to the file system stays
    inside the library. *)
Class Logging : Type := {
  handler : Type;
  FileHandler : value -> outcome handler;
  StreamHandler : handler;
  setFormatter : handler -> value -> outcome handler;
  handler_str : handler -> string
}.

Section Logger.
Context `{Logging}.

(** [get_handler] *)
Definition get_handler (log_file log_format : value) : outcome handler :=
  match (if truthy log_file then FileHandler log_file
         else Returns StreamHandler) with
  | Raises e => Raises e
  | Returns h =>
      if truthy log_format then setFormatter h log_format else Returns h
  end.

(** A logger of the [logging] module: its level, if one was set, and its
    handlers in the order they were added. *)
Record logger : Type := mkLogger {
  level : option Z;
  handlers : list handler
}.

(** [logging.getLogger(name)]: the logger of that name, made on first
    request without level or handlers. *)
Definition getLogger (loggers : gmap string logger) (name : string) : logger :=
  default (mkLogger None []) (loggers !! name).

(** The loop [for h in log_file: handlers.append(get_handler(...))]. *)
Fixpoint get_handlers (log_files : list value) (log_format : value)
  : outcome (list handler) :=
  match log_files with
  | [] => Returns []
  | h :: rest =>
      match get_handler h log_format with
      | Raises e => Raises e
      | Returns hd =>
          match get_handlers rest log_format with
          | Raises e => Raises e
          | Returns hds => Returns (hd :: hds)
          end
      end
  end.

(** [setup_logger], on the loggers of the [logging] module. *)
Definition setup_logger (loggers : gmap string logger) (logger_name : string)
    (log_level log_file log_format : value)
  : outcome logger * gmap string logger :=
  let lg := getLogger loggers logger_name in
  let loggers := <[logger_name := lg]> loggers in
  let current_handlers := map handler_str (handlers lg) in
  match LOG_LEVEL_getitem log_level with
  | Raises e => (Raises e, loggers)
  | Returns lv =>
      let lg := mkLogger (Some lv) (handlers lg) in
      let loggers := <[logger_name := lg]> loggers in
      match (match log_file with
             | VList l => get_handlers l log_format
             | _ => get_handlers [log_file] log_format
             end) with
      | Raises e => (Raises e, loggers)
      | Returns hs =>
          let added :=
            filter (fun h => handler_str h ∉ current_handlers) hs in
          let lg := mkLogger (Some lv) (handlers lg ++ added) in
          (Returns lg, <[logger_name := lg]> loggers)
      end
  end.

End Logger.

(** The loop of [LoggingAttributes.__setitem__] over [attributes.items()],
    on the dict [log_attrs], which is handed back as the loop leaves it. *)
Fixpoint set_attrs (log_attrs : gmap string value)
    (attributes : list (string * value)) : outcome unit * gmap string value :=
  match attributes with
  | [] => (Returns tt, log_attrs)
  | (attr, v) :: rest =>
      if String.eqb attr "log_file" then
        match log_attrs !! "log_file" with
        | None => (Raises (KeyError "log_file"), log_attrs)
        | Some old =>
            match py_list old with
            | Raises e => (Raises e, log_attrs)
            | Returns handlers =>
                let log_attrs :=
                  if negb (value_in v handlers)
                  then <[attr := VList (handlers ++ [v])]> log_attrs
                  else log_attrs in
                set_attrs log_attrs rest
            end
        end
      else set_attrs (<[attr := v]> log_attrs) rest
  end.

(** [LoggingAttributes.__getitem__] *)
Definition getitem (_loggers : gmap string (gmap string value))
    (logger_name : string) : gmap string value :=
  default ∅ (_loggers !! logger_name).

(** [LoggingAttributes.__setitem__], on [self._loggers].  For a logger
    that is registered [log_attrs] is the stored dict itself, so what the
    loop did to it stays when the loop raises; for a new logger it is a
    fresh dict, stored only when the loop has run through. *)
Definition setitem (_loggers : gmap string (gmap string value))
    (logger_name : string) (attributes : list (string * value))
  : outcome unit * gmap string (gmap string value) :=
  match _loggers !! logger_name with
  | Some stored =>
      let '(r, log_attrs) := set_attrs stored attributes in
      (r, <[logger_name := log_attrs]> _loggers)
  | None =>
      match set_attrs ∅ attributes with
      | (Returns _, log_attrs) =>
          (Returns tt, <[logger_name := log_attrs]> _loggers)
      | (Raises e, _) => (Raises e, _loggers)
      end
  end.

Section InitLogger.
Context `{Logging}.

(** Binding [**kwargs] to the parameters of [setup_logger]: a parameter
    not named takes its default. *)
Definition kwarg (kwargs : list (string * value)) (name : string)
    (default : value) : value :=
  match List.find (fun kv => String.eqb kv.1 name) kwargs with
  | Some kv => kv.2
  | None => default
  end.

(** [setup_logger(logger_name, **kwargs)]: a keyword the function does not
    have is a [TypeError] before its body runs. *)
Definition setup_logger_kwargs (loggers : gmap string logger)
    (logger_name : string) (kwargs : list (string * value))
  : outcome logger * gmap string logger :=
  match List.find
          (fun kv => negb (bool_decide
                             (kv.1 ∈ ["log_level"; "log_file"; "log_format"])))
          kwargs with
  | Some kv =>
      (Raises (TypeError
         (if String.eqb kv.1 "logger_name"
          then "setup_logger() got multiple values for argument 'logger_name'"
          else "setup_logger() got an unexpected keyword argument '" ++
               kv.1 ++ "'")), loggers)
  | None =>
      setup_logger loggers logger_name
        (kwarg kwargs "log_level" (VStr "INFO"))
        (kwarg kwargs "log_file" VNone)
        (kwarg kwargs "log_format" (VStr FORMAT))
  end.

(** The module's [init_logger], on the loggers of [logging] and on
    [REV_LOGGERS._loggers]. *)
Definition init_logger (loggers : gmap string logger)
    (REV_LOGGERS : gmap string (gmap string value))
    (logger_name : string) (kwargs : list (string * value))
  : outcome logger * (gmap string logger * gmap string (gmap string value)) :=
  match setup_logger_kwargs loggers logger_name kwargs with
  | (Raises e, loggers) => (Raises e, (loggers, REV_LOGGERS))
  | (Returns lg, loggers) =>
      match setitem REV_LOGGERS logger_name kwargs with
      | (Raises e, reg) => (Raises e, (loggers, reg))
      | (Returns _, reg) => (Returns lg, (loggers, reg))
      end
  end.

End InitLogger.

End RevLogger.

(** ** Fixtures: a stub engine and small worlds to run the code on *)

Module Fixture.

(** A stub engine whose output record is one number per site: [pv] gives
    every site of the chunk the value 1, [csp] always fails. *)
#[export] Instance stub : SAM := {|
  output := nat;
  pc_str := fun pc =>
    "PointsControl " ++ str_of_Z (Z.of_nat (split_range pc).1) ++ ":" ++
    str_of_Z (Z.of_nat (split_range pc).2);
  PV_reV_run := fun pc _ _ =>
    Returns (list_to_map (map (fun s => (s, 1)) (pc_sites pc)));
  CSP_reV_run := fun _ _ _ => Raises (EngineError "RuntimeError" "SAM failed");
  LandBasedWind_reV_run := fun _ _ _ => Returns ∅;
  OffshoreWind_reV_run := fun _ _ _ => Returns ∅
|}.

Definition pc0 : PointsControl := mkPointsControl [10; 11; 12; 13; 14]%Z 2 (0, 2).

(** A world with the given paths and resource files, and nothing logged. *)
Definition world_of (paths : list string) (res : list (string * Resource))
  : world :=
  mkWorld (list_to_set paths) (list_to_map res) 900 [] ∅.

Definition w0 : world := world_of [] [].

(** An empty world in which the given directories cannot be made. *)
Definition world_without (unmakeable : list string) : world :=
  mkWorld ∅ ∅ 900 [] (list_to_set unmakeable).

Definition nl : string := String (ascii_of_nat 10) "".

(** The records of the stub engine hold one number, their "cf_mean". *)
Definition record_getitem (r : output) (name : string) : option nat :=
  if String.eqb name "cf_mean" then Some r else None.

(** Tables of the stub engine, given as their items in order of insertion. *)
Definition table (items : list (Z * nat)) : list (Z * output) := items.
(** A [Gen] object holding one result, for output file [fout]. *)
Definition gen_with_result (fout : string) : Gen.instance :=
  Gen.with_out
    (Gen.init pc0 "ri_100_nsrdb_2012.h5" ["cf_mean"] (Some fout) None)
    {[10%Z := 1]}.

End Fixture.

(** A stub of the [logging] handlers: a handler is its file, if it has
    one, and its format, if one was set. *)
Module LogFixture.

#[export] Instance stub_logging : RevLogger.Logging := {|
  RevLogger.handler := option string * option string;
  RevLogger.FileHandler := fun v =>
    match v with
    | RevLogger.VStr p => Returns (Some p, None)
    | _ => Raises (TypeError "expected str, bytes or os.PathLike object")
    end;
  RevLogger.StreamHandler := (None, None);
  RevLogger.setFormatter := fun h f =>
    match f with
    | RevLogger.VStr fmt => Returns (h.1, Some fmt)
    | _ => Raises (TypeError "fmt must be a str")
    end;
  RevLogger.handler_str := fun h =>
    match h.1 with
    | Some p => "<FileHandler " ++ p ++ " (NOTSET)>"
    | None => "<StreamHandler <stderr> (NOTSET)>"
    end
|}.

(** The handler of the log file [p] with the format [fmt]. *)
Definition file_handler (p fmt : string) : RevLogger.handler := (Some p, Some fmt).

(** Fresh from the interpreter: no logger has been asked for. *)
Definition no_loggers : gmap string RevLogger.logger := ∅.

End LogFixture.

(** ** Vocabulary of the statements *)

(** The world after [Gen.run] has logged the failure [e] of chunk [pc]. *)
Definition logged_failure `{SAM} (pc : PointsControl) (e : exn) (w : world)
  : world :=
  mkWorld (fs w) (resources w) (call_depth w)
          (trace w ++ [LogException ("Worker failed for PC: " ++ pc_str pc) e])
          (blocked w).

(** No two Result Records of [l] give one site two different outputs. *)
Definition records_agree `{SAM} (l : list (gmap Z output)) : Prop :=
  forall x y k v v',
    x ∈ l -> y ∈ l -> x !! k = Some v -> y !! k = Some v' -> v = v'.

(** The Result Table after the [out] setter is handed each record of [l]
    in turn (a dict per completed chunk), starting from the table [t]. *)
Definition merged_in_turn `{SAM} (t : gmap Z output) (l : list (gmap Z output))
  : gmap Z output :=
  foldl Gen.update t l.

(** A time stamp on a leap day: month 2, day 29. *)
Definition is_leap_day (t : Timestamp) : Prop := month t = 2%Z /\ day t = 29%Z.

#[global] Instance is_leap_day_dec (t : Timestamp) : Decision (is_leap_day t).
Proof. unfold is_leap_day. apply _. Defined.

(** The chunk size [k] read off a dataset's [chunks] attribute [c]: the
    second entry of the chunk shape, or [default] without chunking. *)
Definition chunk_size_of (c : option (list Z)) (default k : Z) : Prop :=
  (c = None /\ k = default) \/ (exists c0 rest, c = Some (c0 :: k :: rest)).

(** The first and the last character of a string, if any. *)
Definition first_char (s : string) : option ascii :=
  match s with
  | "" => None
  | String c _ => Some c
  end.

Fixpoint last_char (s : string) : option ascii :=
  match s with
  | "" => None
  | String c "" => Some c
  | String _ s' => last_char s'
  end.

(** A stem that neither begins nor ends with one of the characters of
    ".h5". *)
Definition clean_stem (stem : string) : Prop :=
  (forall c, first_char stem = Some c -> char_in c ".h5" = false)
  /\ (forall c, last_char stem = Some c -> char_in c ".h5" = false).

(** The two decimal digits of a number below 100. *)
Definition two_digits (i : Z) : string :=
  String (ascii_of_nat (48 + Z.to_nat (i / 10)))
         (String (ascii_of_nat (48 + Z.to_nat (i mod 10))) "").

(** A string without a newline character. *)
Fixpoint no_newline (s : string) : bool :=
  match s with
  | "" => true
  | String c s' => negb (is_newline c) && no_newline s'
  end.

(** A string that holds "_x" followed by three digits somewhere. *)
Fixpoint has_tag (s : string) : bool :=
  match tag_at s with
  | Some _ => true
  | None =>
      match s with
      | "" => false
      | String _ s' => has_tag s'
      end
  end.

(** The targets of the writes recorded in a trace, oldest first. *)
Fixpoint written `{SAM} (tr : list event) : list string :=
  match tr with
  | [] => []
  | Write _ fout _ _ :: tr' => fout :: written tr'
  | _ :: tr' => written tr'
  end.

(** The world [w'] is [w] with, at most, more paths and more log records:
    nothing is removed, nothing is written, and what can be opened or made
    is as before. *)
Definition grown `{SAM} (w w' : world) : Prop :=
  (forall p, p ∈ fs w -> p ∈ fs w')
  /\ resources w' = resources w
  /\ call_depth w' = call_depth w
  /\ blocked w' = blocked w
  /\ written (trace w') = written (trace w).

(** The tag that follows the three-digit tag number [n], checked for what
    the next round of [get_unique_fout] needs: it holds no newline and
    starts with "_x" and three digits again. *)
Definition next_tag (n : Z) : string := "_x" ++ zfill 3 (str_of_Z (n + 1)).

Definition next_tag_ok (n : Z) : bool :=
  no_newline (next_tag n)
  && match tag_at (next_tag n) with Some _ => true | None => false end.

(** The two cluster options, each with the scheduler its command names,
    the number of characters of the run name it keeps, and the scheduler's
    limit on the length of a job name. *)
Inductive cluster_option : string -> string -> nat -> nat -> Prop :=
| cluster_peregrine : cluster_option "peregrine" "pbs" 11 16
| cluster_eagle : cluster_option "eagle" "slurm" 3 8.

(** The dict [d] after [d[attr] = value] for each pair in turn. *)
Definition assigned (d : gmap string RevLogger.value)
    (attributes : list (string * RevLogger.value)) : gmap string RevLogger.value :=
  foldl (fun d kv => <[kv.1 := kv.2]> d) d attributes.

(** The logging attributes after a series of item assignments
    [REV_LOGGERS[name] = attributes], each carried out whether or not the
    one before it raised. *)
Definition after_setitems (_loggers : gmap string (gmap string RevLogger.value))
    (calls : list (string * list (string * RevLogger.value)))
  : gmap string (gmap string RevLogger.value) :=
  foldl (fun reg c => (RevLogger.setitem reg c.1 c.2).2) _loggers calls.

(** No logger has a "log_file" attribute. *)
Definition no_log_file (_loggers : gmap string (gmap string RevLogger.value))
  : Prop :=
  forall name d, _loggers !! name = Some d -> d !! "log_file" = None.

(** Flushes one after the other, each of an object of its own and in a
    mode of its own; a flush that raises ends the series. *)
Fixpoint flush_each `{SAM} (jobs : list (Gen.instance * string)) : Py unit :=
  match jobs with
  | [] => ret tt
  | (self, mode) :: jobs' =>
      let* _ := Gen.flush self mode in flush_each jobs'
  end.

(** The path [handle_fout] has in mind before it looks for a tag: the
    requested name with its extension, inside the output directory. *)
Definition target (fout : string) (dirout : option string) : string :=
  let fout := if endswith ".h5" fout then fout else fout ++ ".h5" in
  match dirout with
  | Some d => if String.eqb d "" then fout else path_join d fout
  | None => fout
  end.

(** The three digits of the tag number [n], and the path [stem] with that
    tag and the extension. *)
Definition tag (n : Z) : string := zfill 3 (str_of_Z n).

Definition tagged (stem : string) (n : Z) : string :=
  stem ++ "_x" ++ tag n ++ ".h5".

(** One round of [get_unique_fout] on the bare tag number [n]: the tag is
    found, read back as [n], and replaced by the tag of [n + 1]. *)
Definition tag_round_ok (n : Z) : bool :=
  match re_match_tag ("_x" ++ tag n ++ ".h5") with
  | Some g => String.eqb g (tag n)
  | None => false
  end
  && (int_of_digits (tag n) =? n)%Z
  && String.eqb (replace_from ("_x" ++ tag n) (next_tag n) 0
                   ("_x" ++ tag n ++ ".h5"))
                ("_x" ++ tag (n + 1) ++ ".h5").

(** [old] occurs in [stem ++ rest] at a position inside [stem]. *)
Fixpoint occurs_before (old stem rest : string) : bool :=
  match stem with
  | "" => false
  | String _ stem' =>
      String.prefix old (stem ++ rest) || occurs_before old stem' rest
  end.

(** The integer a decimal numeral denotes, with its sign if it has one;
    leading zeros do not count. *)
Definition int_of_str (s : string) : option Z :=
  option_map Z.of_int (NilZero.int_of_string s).

(** * Properties *)

(** ** The Python string operations on the inputs the code gives them *)

Example replace_every_occurrence :
  replace ".h5" "_x000.h5" "a.h5b.h5" = "a_x000.h5b_x000.h5".
Proof. reflexivity. Qed.

Example strip_is_a_character_set : strip ".h5" "h5birch.h5" = "birc".
Proof. reflexivity. Qed.

Example format_02d_pads_to_two :
  (format_02d 7, format_02d 42, format_02d 123, format_02d (-3))
  = ("07", "42", "123", "-3").
Proof. reflexivity. Qed.

Example re_match_tag_takes_the_last_tag :
  (re_match_tag "out_x123/x_x004.h5", re_match_tag "ab",
   re_match_tag "x_x1000.h5")
  = (Some "004", None, Some "100").
Proof. reflexivity. Qed.

Example next_tag_after_009 : next_tag (int_of_digits "009") = "_x010".
Proof. reflexivity. Qed.

Example endswith_and_lower :
  (endswith ".h5" "x.h5", endswith ".h5" "x.h5x", lower "WTK_2012.H5")
  = (true, false, "wtk_2012.h5").
Proof. reflexivity. Qed.

Section RunProperties.
Context `{SAM}.

Lemma funs_lookup (tech : string) :
  Gen.funs !! tech =
    if String.eqb tech "pv" then Some PV_reV_run
    else if String.eqb tech "csp" then Some CSP_reV_run
    else if String.eqb tech "landbasedwind" then Some LandBasedWind_reV_run
    else if String.eqb tech "offshorewind" then Some OffshoreWind_reV_run
    else None.
Proof.
  unfold Gen.funs; simpl.
  destruct (String.eqb_spec tech "pv") as [->|?]; [by simplify_map_eq|].
  rewrite lookup_insert_ne by done.
  destruct (String.eqb_spec tech "csp") as [->|?]; [by simplify_map_eq|].
  rewrite lookup_insert_ne by done.
  destruct (String.eqb_spec tech "landbasedwind") as [->|?]; [by simplify_map_eq|].
  rewrite lookup_insert_ne by done.
  destruct (String.eqb_spec tech "offshorewind") as [->|?]; [by simplify_map_eq|].
  rewrite lookup_insert_ne by done.
  apply lookup_empty.
Qed.

Lemma funs_lookup_None (tech : string) :
  tech ∉ ["pv"; "csp"; "landbasedwind"; "offshorewind"] ->
  Gen.funs !! tech = None.
Proof.
  intros Hnot. rewrite funs_lookup.
  destruct (String.eqb_spec tech "pv") as [->|?]; [exfalso; apply Hnot; set_solver|].
  destruct (String.eqb_spec tech "csp") as [->|?]; [exfalso; apply Hnot; set_solver|].
  destruct (String.eqb_spec tech "landbasedwind") as [->|?];
    [exfalso; apply Hnot; set_solver|].
  destruct (String.eqb_spec tech "offshorewind") as [->|?];
    [exfalso; apply Hnot; set_solver|].
  reflexivity.
Qed.

Lemma run_unfold pc tech res_file output_request w :
  Gen.run pc tech res_file output_request w =
    match Gen.funs_getitem tech with
    | Returns f =>
        match f pc res_file output_request with
        | Returns m => (Returns m, w)
        | Raises e => (Returns ∅, logged_failure pc e w)
        end
    | Raises e => (Returns ∅, logged_failure pc e w)
    end.
Proof.
  unfold Gen.run, try_except, bind, eval, emit, ret, logged_failure.
  destruct (Gen.funs_getitem tech) as [f|e]; [|reflexivity].
  destruct (f pc res_file output_request); reflexivity.
Qed.

(** C1.  Whatever chunk, technology, resource file and output request
    [Gen.run] is given: when the simulation function of the technology
    raises, [Gen.run] does not raise, returns the empty mapping and leaves
    one log record naming the chunk; when the simulation function returns
    a mapping, [Gen.run] returns exactly that mapping and changes nothing. *)
Theorem run_isolates_chunk_failure
    (pc : PointsControl) (tech res_file : string)
    (output_request : list string) (f : Gen.sim) (w : world) :
  Gen.funs !! tech = Some f ->
  Gen.run pc (Some tech) res_file output_request w =
    match f pc res_file output_request with
    | Returns m => (Returns m, w)
    | Raises e => (Returns ∅, logged_failure pc e w)
    end.
Proof.
  intros Hf. rewrite run_unfold. simpl. rewrite Hf. reflexivity.
Qed.

(** [Gen.run] never raises, whatever it is given. *)
Lemma run_never_raises pc tech res_file output_request w :
  exists m w', Gen.run pc tech res_file output_request w = (Returns m, w').
Proof.
  rewrite run_unfold.
  destruct (Gen.funs_getitem tech) as [f|e]; [|eauto].
  destruct (f pc res_file output_request); eauto.
Qed.

(** Serial dispatch of [Gen.run] over any list of chunks gives one Result
    Record per chunk and never raises: a failed chunk contributes the
    empty record and the chunks after it still run. *)
Lemma execute_single_run_total tech res_file output_request chunks w :
  exists rs w',
    execute_single (fun pc => Gen.run pc tech res_file output_request) chunks w
      = (Returns rs, w')
    /\ length rs = length chunks.
Proof.
  revert w. induction chunks as [|pc chunks IH]; intros w; simpl.
  - exists [], w. split; reflexivity.
  - unfold bind at 1.
    destruct (run_never_raises pc tech res_file output_request w) as (m & w1 & ->).
    unfold bind at 1.
    destruct (IH w1) as (rs & w2 & -> & Hlen).
    exists (m :: rs), w2. split; [reflexivity | simpl; congruence].
Qed.

(** C5 (as amended).  For a technology name that is none of the recognized
    ones, the lookup in [Gen.funs] raises [KeyError] inside the [try] of
    [Gen.run]; it is caught like a simulation failure: [Gen.run] logs it
    with the chunk's identity and returns the empty mapping. *)
Theorem run_absorbs_unknown_technology
    (pc : PointsControl) (tech res_file : string)
    (output_request : list string) (w : world) :
  tech ∉ ["pv"; "csp"; "landbasedwind"; "offshorewind"] ->
  Gen.run pc (Some tech) res_file output_request w
    = (Returns ∅, logged_failure pc (KeyError tech) w).
Proof.
  intros Hnot. rewrite run_unfold. simpl.
  rewrite (funs_lookup_None _ Hnot). reflexivity.
Qed.

End RunProperties.

(** C1, witness: the stub's [csp] function raises on every chunk. *)
Lemma run_isolates_chunk_failure_witness :
  Gen.run Fixture.pc0 (Some "csp") "ri_100_nsrdb_2012.h5" ["cf_mean"] Fixture.w0
  = (Returns ∅,
     logged_failure Fixture.pc0 (EngineError "RuntimeError" "SAM failed")
                    Fixture.w0).
Proof.
  apply (run_isolates_chunk_failure Fixture.pc0 "csp" "ri_100_nsrdb_2012.h5"
           ["cf_mean"] CSP_reV_run Fixture.w0).
  reflexivity.
Defined.

(** C5, counterexample: with the technology name "geothermal" no error
    reaches the caller of [Gen.run]. *)
Lemma unknown_technology_does_not_propagate :
  ~ exists e,
      (Gen.run Fixture.pc0 (Some "geothermal") "ri_100_nsrdb_2012.h5"
               ["cf_mean"] Fixture.w0).1 = Raises e.
Proof.
  intros [e He]. vm_compute in He. discriminate He.
Qed.

(** C5, witness of the amended statement. *)
Lemma run_absorbs_unknown_technology_witness :
  Gen.run Fixture.pc0 (Some "geothermal") "ri_100_nsrdb_2012.h5" ["cf_mean"]
          Fixture.w0
  = (Returns ∅, logged_failure Fixture.pc0 (KeyError "geothermal") Fixture.w0).
Proof.
  apply (run_absorbs_unknown_technology Fixture.pc0 "geothermal").
  intros Hin. repeat (apply elem_of_cons in Hin as [Hin|Hin]; [discriminate Hin|]).
  by apply elem_of_nil in Hin.
Defined.

(** ** Merging Result Records *)

Section MergeProperties.
Context `{SAM}.

Lemma update_lookup (d x : gmap Z output) (k : Z) :
  Gen.update d x !! k =
    match x !! k with
    | Some v => Some v
    | None => d !! k
    end.
Proof.
  unfold Gen.update. rewrite lookup_union.
  destruct (x !! k), (d !! k); reflexivity.
Qed.

Lemma update_assoc (a b c : gmap Z output) :
  Gen.update (Gen.update a b) c = Gen.update a (Gen.update b c).
Proof. unfold Gen.update. apply (assoc_L (∪)). Qed.

Lemma merged_in_turn_lookup (l : list (gmap Z output)) :
  forall (t : gmap Z output) (k : Z),
    merged_in_turn t l !! k =
      match merged_in_turn ∅ l !! k with
      | Some v => Some v
      | None => t !! k
      end.
Proof.
  unfold merged_in_turn.
  induction l as [|x l IH]; intros t k; simpl.
  - by rewrite lookup_empty.
  - rewrite (IH (Gen.update t x)), (IH (Gen.update ∅ x)).
    destruct (foldl Gen.update ∅ l !! k); [reflexivity|].
    rewrite !update_lookup, lookup_empty. by destruct (x !! k).
Qed.

(** What a lookup in the merged table finds is what some record holds. *)
Lemma merged_lookup_Some (l : list (gmap Z output)) (k : Z) (v : output) :
  merged_in_turn ∅ l !! k = Some v -> exists x, x ∈ l /\ x !! k = Some v.
Proof.
  induction l as [|x l IH] using rev_ind; unfold merged_in_turn in *.
  - simpl. by rewrite lookup_empty.
  - rewrite foldl_app. simpl. rewrite update_lookup.
    destruct (x !! k) as [vx|] eqn:Hx.
    + intros [= <-]. exists x. split; [|done].
      apply elem_of_app. right. by apply list_elem_of_singleton.
    + intros Hl. destruct (IH Hl) as (y & Hy & Hyk).
      exists y. split; [|done]. apply elem_of_app. by left.
Qed.

Lemma merged_lookup_None (l : list (gmap Z output)) (k : Z) :
  merged_in_turn ∅ l !! k = None -> forall x, x ∈ l -> x !! k = None.
Proof.
  induction l as [|x l IH] using rev_ind; unfold merged_in_turn in *.
  - intros _ x Hx. by apply elem_of_nil in Hx.
  - rewrite foldl_app. simpl. rewrite update_lookup.
    destruct (x !! k) as [vx|] eqn:Hx; [done|].
    intros Hl y Hy. apply elem_of_app in Hy as [Hy|Hy].
    + by apply IH.
    + apply list_elem_of_singleton in Hy as ->. done.
Qed.

Lemma records_agree_perm (l1 l2 : list (gmap Z output)) :
  l1 ≡ₚ l2 -> records_agree l1 -> records_agree l2.
Proof.
  intros Hp Ha x y k v v' Hx Hy. rewrite <- Hp in Hx, Hy. by apply Ha.
Qed.

Lemma merged_perm_empty (l1 l2 : list (gmap Z output)) :
  l1 ≡ₚ l2 -> records_agree l1 ->
  merged_in_turn ∅ l1 = merged_in_turn ∅ l2.
Proof.
  intros Hp Ha. apply map_eq. intros k.
  destruct (merged_in_turn ∅ l1 !! k) as [v|] eqn:H1.
  - destruct (merged_lookup_Some _ _ _ H1) as (x & Hx & Hxk).
    destruct (merged_in_turn ∅ l2 !! k) as [v'|] eqn:H2.
    + destruct (merged_lookup_Some _ _ _ H2) as (y & Hy & Hyk).
      rewrite <- Hp in Hy. f_equal. by apply (Ha x y k).
    + rewrite Hp in Hx.
      pose proof (merged_lookup_None _ _ H2 x Hx). congruence.
  - destruct (merged_in_turn ∅ l2 !! k) as [v'|] eqn:H2; [|done].
    destruct (merged_lookup_Some _ _ _ H2) as (y & Hy & Hyk).
    rewrite <- Hp in Hy.
    pose proof (merged_lookup_None _ _ H1 y Hy). congruence.
Qed.

Lemma unpack_futures_merged (l : list (gmap Z output)) :
  Gen.unpack_futures l = merged_in_turn ∅ l.
Proof. reflexivity. Qed.

(** C2 (as amended).  Merging is associative, and a later record
    overwrites an earlier one on a shared site (last write wins).  When no
    two records give one site two different outputs, the final Result
    Table is the same for every merge order, both when the records are
    handed to the [out] setter as one list and when they are handed to it
    one dict at a time. *)
Theorem merge_order_independent_when_records_agree
    (self : Gen.instance) (l1 l2 : list (gmap Z output)) :
  l1 ≡ₚ l2 ->
  records_agree l1 ->
  Gen.set_out self (Gen.RList l1) = Gen.set_out self (Gen.RList l2)
  /\ merged_in_turn (Gen.out self).1 l1 = merged_in_turn (Gen.out self).1 l2
  /\ (forall a b c : gmap Z output,
        Gen.update (Gen.update a b) c = Gen.update a (Gen.update b c))
  /\ (forall (d x : gmap Z output) (k : Z) (v : output),
        x !! k = Some v -> Gen.update d x !! k = Some v).
Proof.
  intros Hp Ha. split; [|split; [|split]].
  - unfold Gen.set_out. rewrite !unpack_futures_merged.
    by rewrite (merged_perm_empty l1 l2).
  - apply map_eq. intros k.
    rewrite (merged_in_turn_lookup l1), (merged_in_turn_lookup l2).
    by rewrite (merged_perm_empty l1 l2).
  - apply update_assoc.
  - intros d x k v Hx. by rewrite update_lookup, Hx.
Qed.

(** Handing the records over one dict at a time gives the table that
    handing them over as one list gives. *)
Lemma set_out_dicts_as_list (self : Gen.instance) (l : list (gmap Z output)) :
  Gen.set_out self (Gen.RList l)
  = Returns (Gen.with_out self (merged_in_turn (default ∅ (Gen._out self)) l)).
Proof.
  unfold Gen.set_out. f_equal. f_equal.
  apply map_eq. intros k.
  rewrite update_lookup, unpack_futures_merged.
  by rewrite (merged_in_turn_lookup l (default ∅ (Gen._out self))).
Qed.

Lemma records_agree_two_sites (a b : Z) (v u : output) :
  a <> b -> records_agree [{[a := v]}; {[b := u]}].
Proof.
  intros Hab x y k vx vy Hx Hy Hxk Hyk.
  apply elem_of_cons in Hx as [->|Hx];
    [|apply list_elem_of_singleton in Hx as ->];
    (apply elem_of_cons in Hy as [->|Hy];
       [|apply list_elem_of_singleton in Hy as ->]);
    apply lookup_singleton_Some in Hxk as [<- <-];
    apply lookup_singleton_Some in Hyk as [Hk <-]; congruence.
Qed.

End MergeProperties.

(** C2, counterexample: two records that give site 7 different outputs
    merge to different tables in the two orders. *)
Lemma merge_order_matters_on_duplicate_sites :
  Gen.unpack_futures (H := Fixture.stub) [{[7%Z := 1]}; {[7%Z := 2]}]
  <> Gen.unpack_futures (H := Fixture.stub) [{[7%Z := 2]}; {[7%Z := 1]}].
Proof.
  intros Heq.
  assert (Hl : Gen.unpack_futures (H := Fixture.stub) [{[7%Z := 1]}; {[7%Z := 2]}]
               !! 7%Z = Some 2) by reflexivity.
  rewrite Heq in Hl. vm_compute in Hl. discriminate Hl.
Qed.

(** C2, witness: two records over disjoint sites, in both orders. *)
Lemma merge_order_independent_witness :
  Gen.set_out (H := Fixture.stub)
    (Gen.init Fixture.pc0 "ri_100_nsrdb_2012.h5" ["cf_mean"] None None)
    (Gen.RList [{[1%Z := 5]}; {[2%Z := 6]}])
  = Gen.set_out (H := Fixture.stub)
    (Gen.init Fixture.pc0 "ri_100_nsrdb_2012.h5" ["cf_mean"] None None)
    (Gen.RList [{[2%Z := 6]}; {[1%Z := 5]}]).
Proof.
  refine (proj1 (merge_order_independent_when_records_agree
                   (Gen.init Fixture.pc0 "ri_100_nsrdb_2012.h5" ["cf_mean"] None None)
                   [{[1%Z := 5]}; {[2%Z := 6]}] [{[2%Z := 6]}; {[1%Z := 5]}] _ _)).
  - apply Permutation_swap.
  - apply records_agree_two_sites. discriminate.
Defined.

(** ** Flushing *)

Section FlushProperties.
Context `{SAM}.

Lemma dict_truthy_false (d : gmap Z output) :
  Gen.dict_truthy d = false <-> d = ∅.
Proof.
  unfold Gen.dict_truthy. rewrite negb_false_iff. apply bool_decide_eq_true.
Qed.

(** C3.  [Gen.flush] with no output filename configured, or with an empty
    Result Table, returns normally and leaves the world exactly as it was:
    no file is created, nothing is written or logged, nothing is raised.
    Conversely, whenever a flush changes the world or raises, an output
    filename is configured and the Result Table is not empty. *)
Theorem flush_writes_only_with_fout_and_results
    (self : Gen.instance) (mode : string) (w : world) :
  (Gen._fout self = None \/ (Gen.out self).1 = ∅ ->
   exists self', Gen.flush self mode w = (Returns self', w)
                 /\ (Gen.out self').1 = (Gen.out self).1)
  /\ (forall r w',
        Gen.flush self mode w = (r, w') ->
        w' <> w \/ (exists e, r = Raises e) ->
        (exists fout, Gen._fout self = Some fout) /\ (Gen.out self).1 <> ∅).
Proof.
  assert (Hquiet :
    Gen._fout self = None \/ (Gen.out self).1 = ∅ ->
    exists self', Gen.flush self mode w = (Returns self', w)
                  /\ (Gen.out self').1 = (Gen.out self).1).
  { intros Hcond. unfold Gen.flush.
    destruct (Gen._fout self) as [fout|] eqn:Hfout.
    - destruct Hcond as [Hnone|Hempty]; [discriminate Hnone|].
      destruct (Gen.out self) as [o self1] eqn:Hout. simpl in Hempty. subst o.
      assert (Htr : Gen.dict_truthy (∅ : gmap Z output) = false)
        by (by apply dict_truthy_false).
      rewrite Htr. exists self1. split; [reflexivity|].
      unfold Gen.out in Hout |- *.
      destruct (Gen._out self) as [o|] eqn:Ho.
      + injection Hout as <- <-. by rewrite Ho.
      + injection Hout as <-. reflexivity.
    - exists self. split; reflexivity. }
  split; [exact Hquiet|].
  intros r w' Hflush Hchanged.
  destruct (Gen._fout self) as [fout|] eqn:Hfout.
  - split; [by exists fout|].
    intros Hempty.
    destruct (Hquiet (or_intror Hempty)) as (self' & Hq & _).
    rewrite Hq in Hflush. injection Hflush as <- <-.
    destruct Hchanged as [Hw|[e He]]; [by apply Hw | discriminate He].
  - destruct (Hquiet (or_introl eq_refl)) as (self' & Hq & _).
    rewrite Hq in Hflush. injection Hflush as <- <-.
    destruct Hchanged as [Hw|[e He]]; [by destruct Hw | discriminate He].
Qed.

End FlushProperties.

(** C3, witness: a flush of an object with an output file name and no
    results leaves the world as it was. *)
Lemma flush_writes_only_with_fout_and_results_witness :
  exists self',
    Gen.flush (Gen.init Fixture.pc0 "ri_100_nsrdb_2012.h5" ["cf_mean"]
                        (Some "reV.h5") (Some "gen_out"))
              "w" Fixture.w0
    = (Returns self', Fixture.w0)
    /\ (Gen.out self').1
       = (Gen.out (Gen.init Fixture.pc0 "ri_100_nsrdb_2012.h5" ["cf_mean"]
                            (Some "reV.h5") (Some "gen_out"))).1.
Proof.
  apply (proj1 (flush_writes_only_with_fout_and_results
                  (Gen.init Fixture.pc0 "ri_100_nsrdb_2012.h5" ["cf_mean"]
                            (Some "reV.h5") (Some "gen_out"))
                  "w" Fixture.w0)).
  right. reflexivity.
Defined.

(** ** The effective time index *)

Section TimeIndexProperties.
Context `{SAM}.

Lemma filter_ext_elem {A} (P Q : A -> Prop)
    `{!forall x, Decision (P x)} `{!forall x, Decision (Q x)} (l : list A) :
  (forall x, x ∈ l -> (P x <-> Q x)) -> filter P l = filter Q l.
Proof.
  induction l as [|a l IH]; intros Hext; [reflexivity|].
  assert (Hl : filter P l = filter Q l).
  { apply IH. intros x Hx. apply Hext. by right. }
  rewrite !filter_cons, Hl.
  destruct (decide (P a)) as [Hp|Hp], (decide (Q a)) as [Hq|Hq];
    try reflexivity; exfalso.
  - apply Hq, (Hext a); [by left | done].
  - apply Hp, (Hext a); [by left | done].
Qed.

(** The boolean mask picks the leap-day entries, in index order. *)
Lemma index_select_leap_days (index : list Timestamp) :
  Gen.index_select index (Gen.leap_day_mask index) = filter is_leap_day index.
Proof.
  induction index as [|t index IH]; [reflexivity|]. simpl.
  rewrite filter_cons, IH.
  destruct (decide (is_leap_day t)) as [[Hm Hd]|Hn].
  - rewrite Hm, Hd. reflexivity.
  - destruct (Z.eqb_spec (month t) 2), (Z.eqb_spec (day t) 29);
      try reflexivity.
    exfalso. apply Hn. by split.
Qed.

(** Dropping the leap-day entries never raises and keeps exactly the
    other entries, in their order and with their multiplicity. *)
Lemma index_drop_leap_days (index : list Timestamp) :
  Gen.index_drop index (Gen.index_select index (Gen.leap_day_mask index))
  = Returns (filter (fun t => ~ is_leap_day t) index).
Proof.
  rewrite index_select_leap_days. unfold Gen.index_drop.
  assert (Hall : forallb (fun l => bool_decide (l ∈ index))
                         (filter is_leap_day index) = true).
  { apply forallb_forall. intros l Hl.
    apply bool_decide_eq_true. apply list_elem_of_In in Hl.
    by apply list_elem_of_filter in Hl as [_ Hl]. }
  rewrite Hall. f_equal.
  apply filter_ext_elem. intros t Ht. split.
  - intros Hnot Hleap. apply Hnot. by apply list_elem_of_filter.
  - intros Hnot Hin. by apply list_elem_of_filter in Hin as [Hleap _].
Qed.

(** C7.  For a resource file that can be opened, the time index [Gen]
    hands out is the resource's raw time index with the entries of month 2,
    day 29 removed and nothing else: an entry is kept if and only if it is
    in the raw index and not on a leap day, the order is kept, and a raw
    index without leap-day entries is returned unchanged.  The value is
    cached on the object, so later reads give the same index. *)
Theorem time_index_drops_exactly_leap_days
    (self : Gen.instance) (res : Resource) (w : world) :
  Gen._time_index self = None ->
  resources w !! Gen._res_file self = Some res ->
  let kept := filter (fun t => ~ is_leap_day t) (res_time_index res) in
  Gen.time_index self w = (Returns (kept, Gen.with_time_index self kept), w)
  /\ Gen.time_index (Gen.with_time_index self kept) w
     = (Returns (kept, Gen.with_time_index self kept), w)
  /\ (forall t, t ∈ kept <-> t ∈ res_time_index res /\ ~ is_leap_day t)
  /\ kept `sublist_of` res_time_index res
  /\ ((forall t, t ∈ res_time_index res -> ~ is_leap_day t) ->
      kept = res_time_index res).
Proof.
  intros Hcache Hres kept. split; [|split; [|split; [|split]]].
  - unfold Gen.time_index. rewrite Hcache.
    unfold bind, open_resource, eval, ret. rewrite Hres.
    rewrite index_drop_leap_days. reflexivity.
  - reflexivity.
  - intros t. unfold kept. rewrite list_elem_of_filter. tauto.
  - apply sublist_filter.
  - intros Hnone. unfold kept.
    induction (res_time_index res) as [|t l IH]; [reflexivity|].
    rewrite filter_cons_True by (apply Hnone; by left).
    f_equal. apply IH. intros x Hx. apply Hnone. by right.
Qed.

End TimeIndexProperties.

(** C7, witness: an hourly index around the end of February 2012. *)
Lemma time_index_drops_exactly_leap_days_witness :
  Gen.time_index
    (Gen.init Fixture.pc0 "ri_100_nsrdb_2012.h5" ["cf_mean"; "cf_profile"] None None)
    (Fixture.world_of []
       [("ri_100_nsrdb_2012.h5",
         mkResource [mkTimestamp 2012 2 28 23 0; mkTimestamp 2012 2 29 0 0;
                     mkTimestamp 2012 2 29 1 0; mkTimestamp 2012 3 1 0 0] [])])
  = (Returns
       ([mkTimestamp 2012 2 28 23 0; mkTimestamp 2012 3 1 0 0],
        Gen.with_time_index
          (Gen.init Fixture.pc0 "ri_100_nsrdb_2012.h5" ["cf_mean"; "cf_profile"]
                    None None)
          [mkTimestamp 2012 2 28 23 0; mkTimestamp 2012 3 1 0 0]),
     Fixture.world_of []
       [("ri_100_nsrdb_2012.h5",
         mkResource [mkTimestamp 2012 2 28 23 0; mkTimestamp 2012 2 29 0 0;
                     mkTimestamp 2012 2 29 1 0; mkTimestamp 2012 3 1 0 0] [])]).
Proof.
  refine (proj1 (time_index_drops_exactly_leap_days
    (Gen.init Fixture.pc0 "ri_100_nsrdb_2012.h5" ["cf_mean"; "cf_profile"] None None)
    (mkResource [mkTimestamp 2012 2 28 23 0; mkTimestamp 2012 2 29 0 0;
                 mkTimestamp 2012 2 29 1 0; mkTimestamp 2012 3 1 0 0] [])
    (Fixture.world_of []
       [("ri_100_nsrdb_2012.h5",
         mkResource [mkTimestamp 2012 2 28 23 0; mkTimestamp 2012 2 29 0 0;
                     mkTimestamp 2012 2 29 1 0; mkTimestamp 2012 3 1 0 0] [])])
    _ _)).
  - reflexivity.
  - reflexivity.
Defined.

(** ** Node fan-out: sub-ranges *)

Section FanOutProperties.

Lemma chunk_ranges_lookup (fuel : nat) :
  forall (start total k i : nat) (r : nat * nat),
    0 < k ->
    chunk_ranges fuel start total k !! i = Some r ->
    r = (start + i * k, Nat.min (start + (i + 1) * k) total)
    /\ start + i * k < total.
Proof.
  induction fuel as [|fuel IH]; intros start total k i r Hk Hr; simpl in Hr.
  - by rewrite lookup_nil in Hr.
  - destruct (Nat.leb_spec (Nat.min (start + k) total) start) as [Hle|Hlt].
    + by rewrite lookup_nil in Hr.
    + destruct i as [|i]; simpl in Hr.
      * injection Hr as <-. split; [f_equal; lia | lia].
      * apply IH in Hr as [-> Hlt']; [|done].
        split; [f_equal; lia | lia].
Qed.

Lemma chunk_ranges_defined (fuel : nat) :
  forall (start total k i : nat),
    0 < k -> total - start <= fuel -> start + i * k < total ->
    is_Some (chunk_ranges fuel start total k !! i).
Proof.
  induction fuel as [|fuel IH]; intros start total k i Hk Hfuel Hi; simpl.
  - lia.
  - destruct (Nat.leb_spec (Nat.min (start + k) total) start) as [Hle|Hlt];
      [lia|].
    destruct i as [|i]; simpl; [by eexists|].
    apply IH; lia.
Qed.

Lemma chunk_ranges_zero (fuel start total : nat) :
  chunk_ranges fuel start total 0 = [].
Proof.
  destruct fuel as [|fuel]; [reflexivity|]. simpl.
  destruct (Nat.leb_spec (Nat.min (start + 0) total) start) as [_|Hlt];
    [reflexivity | lia].
Qed.

Open Scope Z_scope.

(** For a dividend below [2 ^ 53] and a divisor below [2 ^ 1022] the
    quotient is a normal float: [n * 2 ^ k] divided by [d] and rounded, for
    the [k] that brings the quotient up to 53 bits. *)
Lemma true_div_abs_normal (n d : Z) :
  0 < n < 2 ^ 53 -> 0 < d < 2 ^ 1022 ->
  exists k q r,
    0 <= k /\ n * 2 ^ k = d * q + r /\ 0 <= r < d /\ d * 2 ^ 52 <= n * 2 ^ k
    /\ CliGen.true_div_abs n d
       = ((if (d <? 2 * r) || ((d =? 2 * r) && Z.odd q) then q + 1 else q), - k).
Proof.
  intros Hn Hd. unfold CliGen.true_div_abs.
  destruct (Z.eqb_spec n 0) as [->|_]; [lia|].
  pose proof (Z.log2_spec n ltac:(lia)) as Hln.
  pose proof (Z.log2_spec d ltac:(lia)) as Hld.
  pose proof (Z.log2_nonneg n) as Hln0.
  pose proof (Z.log2_nonneg d) as Hld0.
  assert (Hln53 : Z.log2 n < 53) by (apply Z.log2_lt_pow2; lia).
  assert (Hld1022 : Z.log2 d < 1022) by (apply Z.log2_lt_pow2; lia).
  set (ln := Z.log2 n) in *. set (ld := Z.log2 d) in *.
  rewrite (Z.max_r 0 (- (ln - ld - 52))) by lia.
  rewrite (Z.max_l 0 (ln - ld - 52)) by lia.
  rewrite Z.add_0_r.
  assert (Hbig : 2 ^ (52 + ld) <= n * 2 ^ (- (ln - ld - 52))).
  { replace (52 + ld) with (ln + (- (ln - ld - 52))) by lia.
    rewrite Z.pow_add_r by lia.
    apply Z.mul_le_mono_nonneg_r; [apply Z.pow_nonneg; lia|lia]. }
  assert (Hsmall : d * 2 ^ 52 < 2 * 2 ^ (52 + ld)).
  { replace (2 * 2 ^ (52 + ld)) with (2 ^ Z.succ ld * 2 ^ 52).
    - apply Z.mul_lt_mono_pos_r; [apply Z.pow_pos_nonneg; lia|lia].
    - rewrite Z.pow_succ_r, (Z.pow_add_r 2 52 ld) by lia. ring. }
  destruct (Z.ltb_spec (n * 2 ^ (- (ln - ld - 52))) (d * 2 ^ 52)) as [Hlt|Hge].
  - rewrite (Z.max_l (ln - ld - 52 - 1) (-1074)) by lia.
    rewrite (Z.max_r 0 (- (ln - ld - 52 - 1))) by lia.
    rewrite (Z.max_l 0 (ln - ld - 52 - 1)) by lia.
    rewrite Z.pow_0_r, Z.mul_1_r.
    set (k := - (ln - ld - 52 - 1)).
    exists k, (n * 2 ^ k / d), ((n * 2 ^ k) mod d).
    split; [unfold k; lia|].
    split; [apply Z.div_mod; lia|].
    split; [apply Z.mod_pos_bound; lia|].
    split; [|unfold k; f_equal; lia].
    replace k with (Z.succ (- (ln - ld - 52))) by (unfold k; lia).
    rewrite Z.pow_succ_r by lia. lia.
  - rewrite (Z.max_l (ln - ld - 52) (-1074)) by lia.
    rewrite (Z.max_r 0 (- (ln - ld - 52))) by lia.
    rewrite (Z.max_l 0 (ln - ld - 52)) by lia.
    rewrite Z.pow_0_r, Z.mul_1_r.
    set (k := - (ln - ld - 52)) in *.
    exists k, (n * 2 ^ k / d), ((n * 2 ^ k) mod d).
    split; [unfold k; lia|].
    split; [apply Z.div_mod; lia|].
    split; [apply Z.mod_pos_bound; lia|].
    split; [lia|]. unfold k. f_equal. lia.
Qed.

(** There the rounding of the float division never reaches the next
    integer: [ceil_div a b] is the least integer not below the exact
    quotient. *)
Lemma ceil_div_bounds (a b : Z) :
  0 <= a < 2 ^ 53 -> 0 < b < 2 ^ 1022 ->
  b * (CliGen.ceil_div a b - 1) < a <= b * CliGen.ceil_div a b.
Proof.
  intros Ha Hb. unfold CliGen.ceil_div.
  rewrite (Z.abs_eq a), (Z.abs_eq b) by lia.
  replace (a <? 0) with false by (symmetry; apply Z.ltb_ge; lia).
  replace (b <? 0) with false by (symmetry; apply Z.ltb_ge; lia).
  cbn [xorb].
  destruct (Z.eq_dec a 0) as [->|Hne].
  - unfold CliGen.true_div_abs. simpl. lia.
  - destruct (true_div_abs_normal a b ltac:(lia) Hb)
      as (k & q & r & Hk & Hdiv & Hr & Hnorm & ->).
    set (m := if (b <? 2 * r) || ((b =? 2 * r) && Z.odd q) then q + 1 else q).
    assert (HP : 0 < 2 ^ k) by (apply Z.pow_pos_nonneg; lia).
    set (P := 2 ^ k) in *.
    assert (Hm : (m = q /\ 2 * r <= b) \/ (m = q + 1 /\ 0 < r)).
    { unfold m. destruct (Z.ltb_spec b (2 * r)); cbn [orb andb]; [right; lia|].
      destruct (Z.eqb_spec b (2 * r)); cbn [orb andb]; [|left; lia].
      destruct (Z.odd q); [right; lia|left; lia]. }
    clearbody m.
    assert (HC : exists C, P * (C - 1) < m <= P * C
                 /\ (if 0 <=? - k then m * 2 ^ (- k) else - (- m / 2 ^ (- - k))) = C).
    { destruct (Z.leb_spec 0 (- k)) as [Hk0|Hk0].
      - assert (k = 0) as -> by lia. exists m. unfold P.
        change (- 0) with 0. rewrite Z.pow_0_r. lia.
      - rewrite Z.opp_involutive. fold P. exists (- (- m / P)).
        split; [|reflexivity].
        pose proof (Z.div_mod (- m) P ltac:(lia)) as Hdm.
        pose proof (Z.mod_pos_bound (- m) P HP) as Hmod. nia. }
    destruct HC as (C & HC & ->).
    assert (Hsmall : b < 2 * P) by nia.
    split.
    + destruct (Z.lt_ge_cases (b * (C - 1)) a) as [?|Hge]; [done|exfalso].
      destruct Hm as [[-> Hr2]|[-> Hr0]]; nia.
    + destruct (Z.le_gt_cases a (b * C)) as [?|Hgt]; [done|exfalso].
      assert (Hstep : b * C + 1 <= a) by lia.
      destruct Hm as [[-> Hr2]|[-> Hr0]]; nia.
Qed.

Close Scope Z_scope.

(** C4 (as amended).  For fewer than [2 ^ 53] sites and a positive node
    count below [2 ^ 1022], where the float division of [get_node_pc] is
    exact enough, [get_node_pc] sets the chunk size to
    [k = ceil(total / nodes)], and the node loop hands node [i] the
    contiguous sub-range [[i*k, min((i+1)*k, total))]: every node but the
    last gets exactly [k] sites, the last gets the rest (at least one, at
    most [k]), the sub-ranges cover [[0, total)] and there are at most
    [nodes] of them.  For 100 sites and 3 nodes they are [[0,34)],
    [[34,68)], [[68,100)]. *)
Theorem node_ranges_are_ceil_sized
    (points : CliGen.points_arg) (pp : list Z) (nodes : Z) :
  (0 < nodes < 2 ^ 1022)%Z ->
  (Z.of_nat (length pp) < 2 ^ 53)%Z ->
  (forall ty, points <> CliGen.POther ty) ->
  let total := length pp in
  let k := Z.to_nat (CliGen.ceil_div (Z.of_nat total) nodes) in
  exists ranges,
    CliGen.fan_out points pp nodes = Returns ranges
    /\ (Z.of_nat k = CliGen.ceil_div (Z.of_nat total) nodes
        /\ nodes * (Z.of_nat k - 1) < Z.of_nat total <= nodes * Z.of_nat k)%Z
    /\ (forall i a b, ranges !! i = Some (a, b) ->
          a = i * k /\ b = Nat.min ((i + 1) * k) total /\ a < b
          /\ (S i < length ranges -> b - a = k)
          /\ (S i = length ranges -> b = total /\ b - a <= k))
    /\ (forall i, i * k < total -> is_Some (ranges !! i))
    /\ (Z.of_nat (length ranges) <= nodes)%Z
    /\ (total = 100 -> nodes = 3%Z -> ranges = [(0, 34); (34, 68); (68, 100)]).
Proof.
  intros Hnodes Hsites Hpoints total k.
  pose proof (ceil_div_bounds (Z.of_nat total) nodes ltac:(unfold total; lia)
                Hnodes) as Hceil.
  assert (Hk : Z.of_nat k = CliGen.ceil_div (Z.of_nat total) nodes).
  { unfold k. rewrite Z2Nat.id; [done|]. nia. }
  set (pc := mkPointsControl pp (CliGen.ceil_div (Z.of_nat total) nodes) (0, total)).
  assert (Hpc : CliGen.get_node_pc points pp nodes = Returns pc).
  { unfold CliGen.get_node_pc.
    destruct (Z.eqb_spec nodes 0) as [->|_]; [lia|].
    destruct points; try reflexivity. by destruct (Hpoints type_name). }
  assert (Hranges : CliGen.node_ranges pc = chunk_ranges total 0 total k).
  { unfold CliGen.node_ranges, pc_iter. simpl.
    rewrite map_map. simpl. apply map_id. }
  exists (chunk_ranges total 0 total k).
  assert (Hdef : forall i, i * k < total ->
                           is_Some (chunk_ranges total 0 total k !! i)).
  { intros i Hi. destruct (Nat.eq_dec k 0) as [Hk0|Hk0]; [rewrite Hk0 in Hi; lia|].
    apply chunk_ranges_defined; lia. }
  assert (Hlook : forall i r, chunk_ranges total 0 total k !! i = Some r ->
                    0 < k /\ r = (i * k, Nat.min ((i + 1) * k) total)
                    /\ i * k < total).
  { intros i r Hr. destruct (Nat.eq_dec k 0) as [Hk0|Hk0].
    - exfalso. rewrite Hk0, chunk_ranges_zero in Hr.
      by rewrite lookup_nil in Hr.
    - apply chunk_ranges_lookup in Hr as [-> Hlt]; [|lia].
      split; [lia|]. split; [f_equal|]; lia. }
  split; [|split; [|split; [|split; [|split]]]].
  - unfold CliGen.fan_out. rewrite Hpc, Hranges. reflexivity.
  - split; [exact Hk | lia].
  - intros i a b Hr. destruct (Hlook i _ Hr) as (Hkpos & [= -> ->] & Hlt).
    split; [reflexivity|]. split; [reflexivity|]. split; [lia|]. split.
    + intros Hnext.
      destruct (lookup_lt_is_Some_2 _ _ Hnext) as [r' Hr'].
      destruct (Hlook _ _ Hr') as (_ & _ & Hlt'). lia.
    + intros Hlast.
      assert (Hnone : chunk_ranges total 0 total k !! S i = None)
        by (apply lookup_ge_None; lia).
      assert (Hge : total <= S i * k).
      { destruct (Nat.le_gt_cases total (S i * k)) as [?|Hlt']; [done|].
        destruct (Hdef (S i) Hlt') as [r' Hr']. congruence. }
      lia.
  - exact Hdef.
  - destruct (Z.le_gt_cases (Z.of_nat (length (chunk_ranges total 0 total k)))
                            nodes) as [?|Hgt]; [done|].
    exfalso.
    assert (Hin : Z.to_nat nodes < length (chunk_ranges total 0 total k)) by lia.
    destruct (lookup_lt_is_Some_2 _ _ Hin) as [r Hr].
    destruct (Hlook _ _ Hr) as (_ & _ & Hlt). nia.
  - intros Htotal ->. unfold k. rewrite Htotal. reflexivity.
Qed.

End FanOutProperties.

(** The float division at its edges: a quotient below the smallest float
    is zero, so a huge node count gives chunks of no site at all; above
    [2 ^ 53] the quotient is rounded before it is rounded up. *)
Example ceil_div_as_floats :
  (CliGen.ceil_div 100 3 = 34
   /\ CliGen.ceil_div 100 (10 ^ 400) = 0
   /\ CliGen.ceil_div 1 (2 ^ 1074) = 1
   /\ CliGen.ceil_div 1 (2 ^ 1076) = 0
   /\ CliGen.ceil_div (2 ^ 53 + 1) 1 = 2 ^ 53
   /\ CliGen.ceil_div (2 ^ 53 + 3) 1 = 2 ^ 53 + 4
   /\ CliGen.ceil_div 7 (-2) = -3)%Z.
Proof. repeat split; vm_compute; reflexivity. Qed.

(** C4, counterexample: for 100 sites and 3 nodes [get_node_pc] asks for
    chunks of 34 sites, and the sub-ranges are not [[0,34)], [[34,67)],
    [[67,100)]: there the second node, which is not the last, has 33
    sites. *)
Lemma node_ranges_100_3_not_as_stated :
  CliGen.get_node_pc (CliGen.PSlice 0 100) (map Z.of_nat (seq 0 100)) 3
  = Returns (mkPointsControl (map Z.of_nat (seq 0 100)) 34 (0, 100))
  /\ CliGen.fan_out (CliGen.PSlice 0 100) (map Z.of_nat (seq 0 100)) 3
     <> Returns [(0, 34); (34, 67); (67, 100)]
  /\ 67 - 34 <> Z.to_nat (CliGen.ceil_div 100 3).
Proof.
  split; [vm_compute; reflexivity|]. split; [vm_compute; discriminate|].
  vm_compute. discriminate.
Qed.

(** C4, witness: 10 sites on 4 nodes, chunks of 3. *)
Lemma node_ranges_are_ceil_sized_witness :
  exists ranges,
    CliGen.fan_out (CliGen.PSlice 0 10) (map Z.of_nat (seq 0 10)) 4
    = Returns ranges
    /\ ranges !! 3 = Some (9, 10).
Proof.
  destruct (node_ranges_are_ceil_sized
              (CliGen.PSlice 0 10) (map Z.of_nat (seq 0 10)) 4
              ltac:(split; reflexivity) ltac:(reflexivity)
              ltac:(discriminate))
    as (ranges & Hfan & _).
  exists ranges. split; [exact Hfan|].
  vm_compute in Hfan. injection Hfan as <-. reflexivity.
Defined.

(** ** The default chunk size *)

Section SitesPerCoreProperties.
Context `{SAM}.

Lemma h5_chunks_first (pre post : list (string * option (list Z)))
    (dset : string) (c : option (list Z)) :
  Forall (fun d => d.1 <> dset) pre ->
  h5_chunks (pre ++ (dset, c) :: post)%list dset = Returns c.
Proof.
  induction pre as [|[name c'] pre IH]; intros Hpre; simpl.
  - by rewrite String.eqb_refl.
  - apply Forall_cons in Hpre as [Hne Hpre]. simpl in Hne.
    destruct (String.eqb_spec name dset) as [->|_]; [done|]. by apply IH.
Qed.

Lemma first_speed_chunks_skip (res : Resource) (pre names : list string) :
  Forall (fun n => contains "speed" n = false) pre ->
  Gen.first_speed_chunks res (pre ++ names)%list = Gen.first_speed_chunks res names.
Proof.
  induction pre as [|n pre IH]; intros Hpre; [reflexivity|]. simpl.
  apply Forall_cons in Hpre as [Hn Hpre]. rewrite Hn. by apply IH.
Qed.

(** The first dataset whose name holds "speed" binds [chunks]. *)
Lemma first_speed_chunks_found (res : Resource)
    (pre post : list (string * option (list Z)))
    (dset : string) (c : option (list Z)) :
  res_h5 res = (pre ++ (dset, c) :: post)%list ->
  contains "speed" dset = true ->
  Forall (fun d => contains "speed" d.1 = false) pre ->
  Gen.first_speed_chunks res (dsets res) = Returns (Some c).
Proof.
  intros Hh5 Hspeed Hpre. unfold dsets. rewrite Hh5 at 1. rewrite fmap_app.
  rewrite first_speed_chunks_skip by (by apply Forall_fmap).
  simpl. rewrite Hspeed, Hh5.
  rewrite h5_chunks_first; [reflexivity|].
  eapply Forall_impl; [exact Hpre|]. simpl. intros d Hd Heq.
  rewrite Heq in Hd. congruence.
Qed.

Lemma sites_per_core_nsrdb res_file res default c k w :
  resources w !! res_file = Some res ->
  contains "wtk" (lower res_file) = false ->
  contains "nsrdb" (lower res_file) = true ->
  h5_chunks (res_h5 res) "dni" = Returns c ->
  chunk_size_of c default k ->
  (Gen.sites_per_core res_file default w).1 = Returns k.
Proof.
  intros Hres Hwtk Hnsrdb Hdni Hc.
  unfold Gen.sites_per_core, bind, open_resource, eval, ret, emit.
  rewrite Hres, Hwtk, Hnsrdb, Hdni.
  destruct Hc as [[-> ->]|(c0 & rest & ->)]; reflexivity.
Qed.

Lemma sites_per_core_wtk res_file res default pre dset c post k w :
  resources w !! res_file = Some res ->
  contains "wtk" (lower res_file) = true ->
  res_h5 res = (pre ++ (dset, c) :: post)%list ->
  contains "speed" dset = true ->
  Forall (fun d => contains "speed" d.1 = false) pre ->
  chunk_size_of c default k ->
  (Gen.sites_per_core res_file default w).1 = Returns k.
Proof.
  intros Hres Hwtk Hh5 Hspeed Hpre Hc.
  unfold Gen.sites_per_core, bind, open_resource, eval, ret, emit.
  rewrite Hres, Hwtk, (first_speed_chunks_found res pre post dset c) by done.
  destruct Hc as [[-> ->]|(c0 & rest & ->)]; reflexivity.
Qed.

Lemma sites_per_core_other_name res_file res default w :
  resources w !! res_file = Some res ->
  contains "wtk" (lower res_file) = false ->
  contains "nsrdb" (lower res_file) = false ->
  Gen.sites_per_core res_file default w
  = (Raises (Exception ("Expected " ++ Gen.dq ++ "nsrdb" ++ Gen.dq ++ " or " ++
                        Gen.dq ++ "wtk" ++ Gen.dq ++
                        " to be in resource filename: " ++ res_file)), w).
Proof.
  intros Hres Hwtk Hnsrdb.
  unfold Gen.sites_per_core, bind, open_resource, raise.
  by rewrite Hres, Hwtk, Hnsrdb.
Qed.

(** C6 (as amended).  With the chunk size unspecified, [run_smart] takes
    it from the resource file: for a file whose lower-cased name holds
    "wtk", from the first dataset whose name holds "speed"; otherwise, for
    a file whose name holds "nsrdb", from the dataset "dni".  It is the
    second entry of that dataset's chunk shape, and the fixed default 100
    when the dataset has no chunking.  For a file whose name holds neither
    "wtk" nor "nsrdb" it raises instead of falling back.  A specified
    chunk size is used as it is. *)
Theorem run_smart_chunk_size_from_resource
    (res_file : string) (res : Resource) (w : world) :
  resources w !! res_file = Some res ->
  (forall pre dset c post k,
      contains "wtk" (lower res_file) = true ->
      res_h5 res = (pre ++ (dset, c) :: post)%list ->
      contains "speed" dset = true ->
      Forall (fun d => contains "speed" d.1 = false) pre ->
      chunk_size_of c 100 k ->
      (run_smart_sites_per_split None res_file w).1 = Returns k)
  /\ (forall c k,
        contains "wtk" (lower res_file) = false ->
        contains "nsrdb" (lower res_file) = true ->
        h5_chunks (res_h5 res) "dni" = Returns c ->
        chunk_size_of c 100 k ->
        (run_smart_sites_per_split None res_file w).1 = Returns k)
  /\ (contains "wtk" (lower res_file) = false ->
      contains "nsrdb" (lower res_file) = false ->
      exists msg,
        run_smart_sites_per_split None res_file w = (Raises (Exception msg), w))
  /\ (forall k, run_smart_sites_per_split (Some k) res_file w = (Returns k, w)).
Proof.
  intros Hres. split; [|split; [|split]].
  - intros pre dset c post k Hwtk Hh5 Hspeed Hpre Hc. simpl.
    by eapply sites_per_core_wtk.
  - intros c k Hwtk Hnsrdb Hdni Hc. simpl.
    by eapply sites_per_core_nsrdb.
  - intros Hwtk Hnsrdb. eexists. simpl.
    by apply (sites_per_core_other_name res_file res).
  - reflexivity.
Qed.

End SitesPerCoreProperties.

(** C6, counterexample: a resource file that opens and has chunked data,
    but whose name holds neither "wtk" nor "nsrdb": no chunk size comes
    back, [run_smart] fails at its first step. *)
Lemma run_smart_chunk_size_fails_on_other_names :
  ~ exists k w',
      run_smart_sites_per_split None "ri_100_2012.h5"
        (Fixture.world_of []
           [("ri_100_2012.h5",
             mkResource [] [("dni", Some [8760; 50]%Z); ("windspeed_100m", None)])])
      = (Returns k, w').
Proof.
  intros (k & w' & Hrun). vm_compute in Hrun. discriminate Hrun.
Qed.

(** C6, witness: an NSRDB file whose "dni" dataset is chunked 8760 by 50. *)
Lemma run_smart_chunk_size_from_resource_witness :
  (run_smart_sites_per_split None "ri_100_nsrdb_2012.h5"
     (Fixture.world_of []
        [("ri_100_nsrdb_2012.h5",
          mkResource [] [("meta", None); ("dni", Some [8760; 50]%Z)])])).1
  = Returns 50%Z.
Proof.
  refine (proj1 (proj2 (run_smart_chunk_size_from_resource
    "ri_100_nsrdb_2012.h5"
    (mkResource [] [("meta", None); ("dni", Some [8760; 50]%Z)])
    (Fixture.world_of []
       [("ri_100_nsrdb_2012.h5",
         mkResource [] [("meta", None); ("dni", Some [8760; 50]%Z)])])
    _)) (Some [8760; 50]%Z) 50%Z _ _ _ _).
  - reflexivity.
  - reflexivity.
  - reflexivity.
  - reflexivity.
  - right. exists 8760%Z, []. reflexivity.
Defined.

(** ** Node fan-out: names *)

Section NodeNameProperties.

Lemma string_length_app (s t : string) :
  String.length (s ++ t) = String.length s + String.length t.
Proof. induction s as [|c s IH]; simpl; [reflexivity | by rewrite IH]. Qed.

Lemma take_length (n : nat) (s : string) : String.length (take n s) <= n.
Proof.
  revert s. induction n as [|n IH]; intros [|c s]; simpl; try lia.
  specialize (IH s). lia.
Qed.

Lemma endswith_app (stem suf : string) : endswith suf (stem ++ suf) = true.
Proof.
  induction stem as [|c stem IH]; simpl.
  - destruct suf; simpl; [reflexivity|].
    by rewrite Ascii.eqb_refl, String.eqb_refl.
  - rewrite IH. apply orb_true_r.
Qed.

Lemma lstrip_clean (chars stem rest : string) :
  (forall c, first_char stem = Some c -> char_in c chars = false) ->
  stem <> "" ->
  lstrip chars (stem ++ rest) = stem ++ rest.
Proof.
  intros Hfirst Hne. destruct stem as [|c stem]; [done|]. simpl.
  by rewrite (Hfirst c).
Qed.

Lemma rstrip_clean (chars stem rest : string) :
  (forall c, last_char stem = Some c -> char_in c chars = false) ->
  rstrip chars rest = "" ->
  rstrip chars (stem ++ rest) = stem.
Proof.
  intros Hlast Hrest. induction stem as [|c stem IH]; [exact Hrest|].
  destruct stem as [|c' stem].
  - change (rstrip chars (String c "" ++ rest))
      with (match rstrip chars rest with
            | "" => if char_in c chars then "" else String c ""
            | r => String c r
            end).
    rewrite Hrest. by rewrite (Hlast c).
  - change (rstrip chars (String c (String c' stem) ++ rest))
      with (match rstrip chars (String c' stem ++ rest) with
            | "" => if char_in c chars then "" else String c ""
            | r => String c r
            end).
    rewrite IH; [reflexivity|]. intros d Hd. by apply Hlast.
Qed.

(** Stripping the characters of ".h5" from a clean stem followed by ".h5"
    gives the stem back. *)
Lemma strip_h5_clean (stem : string) :
  clean_stem stem -> strip ".h5" (stem ++ ".h5") = stem.
Proof.
  intros [Hfirst Hlast]. unfold strip.
  destruct stem as [|c stem]; [reflexivity|].
  rewrite lstrip_clean by done.
  by apply rstrip_clean.
Qed.

(** ['{:02d}'.format(i)] is the two digits of [i] for [0 <= i < 100]. *)
Lemma format_02d_below_100 (i : Z) :
  (0 <= i < 100)%Z -> format_02d i = two_digits i.
Proof.
  intros Hi.
  assert (Hall : forallb (fun n => String.eqb (format_02d (Z.of_nat n))
                                              (two_digits (Z.of_nat n)))
                         (seq 0 100) = true) by (vm_compute; reflexivity).
  rewrite forallb_forall in Hall.
  specialize (Hall (Z.to_nat i)).
  rewrite Z2Nat.id in Hall by lia.
  apply String.eqb_eq, Hall, in_seq. lia.
Qed.

(** Below node 100 the job name is the base name cut to the scheduler's
    limit followed by the two digits of the node index, so it has at most
    8 characters for slurm and 16 for pbs. *)
Lemma node_name_within_limit_below_100 (name fout : string) (i : Z) :
  (0 <= i < 100)%Z ->
  (exists fout_node,
      CliGen.get_node_name_fout name fout i "slurm"
      = Returns (take 6 name ++ two_digits i, fout_node)
      /\ String.length (take 6 name ++ two_digits i) <= 8)
  /\ (exists fout_node,
        CliGen.get_node_name_fout name fout i "pbs"
        = Returns (take 14 name ++ two_digits i, fout_node)
        /\ String.length (take 14 name ++ two_digits i) <= 16).
Proof.
  intros Hi. unfold CliGen.get_node_name_fout, CliGen.name_limit.
  rewrite (format_02d_below_100 i Hi).
  split; eexists; (split; [reflexivity|]);
    rewrite string_length_app;
    change (String.length (two_digits i)) with 2.
  - pose proof (take_length 6 name). lia.
  - pose proof (take_length 14 name). lia.
Qed.

(** C9, at the failing input: node 100 of a pbs run with a 16-character
    base name gets a job name of 17 characters, one more than the limit,
    because the node index takes three digits. *)
Theorem node_name_exceeds_limit_at_node_100 :
  CliGen.get_node_name_fout "abcdefghijklmnop" "reV.h5" 100 "pbs"
  = Returns ("abcdefghijklmn100", "reV_node100.h5")
  /\ String.length "abcdefghijklmn100" = 17
  /\ CliGen.get_node_name_fout "abcdefghijklmnop" "reV.h5" 100 "slurm"
     = Returns ("abcdef100", "reV_node100.h5")
  /\ String.length "abcdef100" = 9.
Proof. repeat split. Qed.

(** C10.  For a base output file name [stem ++ ".h5"] whose stem neither
    begins nor ends with one of the characters '.', 'h', '5', the node
    output file name is the stem followed by "_node", the node index as
    ['{:02d}'] prints it (two digits below 100) and ".h5".  For
    "birch.h5" the stem loses its last character as well: the result is
    "birc_node00.h5". *)
Theorem node_fout_keeps_clean_stem
    (name stem : string) (i : Z) (hpc : string) :
  hpc = "slurm" \/ hpc = "pbs" ->
  clean_stem stem ->
  (exists node_name,
      CliGen.get_node_name_fout name (stem ++ ".h5") i hpc
      = Returns (node_name, stem ++ "_node" ++ format_02d i ++ ".h5"))
  /\ ((0 <= i < 100)%Z -> format_02d i = two_digits i)
  /\ CliGen.get_node_name_fout name "birch.h5" 0 hpc
     = Returns (take (if String.eqb hpc "slurm" then 6 else 14) name ++ "00",
                "birc_node00.h5").
Proof.
  intros Hhpc Hclean. split; [|split].
  - unfold CliGen.get_node_name_fout.
    rewrite endswith_app, strip_h5_clean by done.
    destruct Hhpc as [-> | ->]; simpl; eexists; reflexivity.
  - apply format_02d_below_100.
  - destruct Hhpc as [-> | ->]; reflexivity.
Qed.

End NodeNameProperties.

(** C10, witness: the default output name "reV.h5" on node 3 of a slurm
    run. *)
Lemma node_fout_keeps_clean_stem_witness :
  exists node_name,
    CliGen.get_node_name_fout "reV_gen" ("reV" ++ ".h5") 3 "slurm"
    = Returns (node_name, "reV" ++ "_node" ++ format_02d 3 ++ ".h5").
Proof.
  refine (proj1 (node_fout_keeps_clean_stem "reV_gen" "reV" 3 "slurm" _ _)).
  - left. reflexivity.
  - split; intros c Hc; injection Hc as <-; reflexivity.
Defined.

(** ** Output file names *)

Section FoutProperties.
Context `{SAM}.

(** The first write to "x.h5": the tag "_x000" is free. *)
Lemma handle_fout_x_first (w : world) (d : nat) :
  call_depth w = S d -> "x_x000.h5" ∉ fs w ->
  Gen.handle_fout "x.h5" None w = (Returns "x_x000.h5", w).
Proof.
  intros Hd Hfree.
  unfold Gen.handle_fout, Gen.get_unique_fout, bind, ret. simpl.
  rewrite Hd. simpl. unfold bind, path_exists.
  rewrite bool_decide_eq_false_2 by done. reflexivity.
Qed.

(** The second write to "x.h5": "x_x000.h5" is there, "x_x001.h5" is
    free. *)
Lemma handle_fout_x_second (w : world) (d : nat) :
  call_depth w = S (S d) -> "x_x000.h5" ∈ fs w -> "x_x001.h5" ∉ fs w ->
  Gen.handle_fout "x.h5" None w = (Returns "x_x001.h5", w).
Proof.
  intros Hd Hused Hfree.
  unfold Gen.handle_fout, Gen.get_unique_fout, bind, ret. simpl.
  rewrite Hd. simpl. unfold bind, path_exists.
  rewrite bool_decide_eq_true_2 by done. simpl.
  rewrite bool_decide_eq_false_2 by done. reflexivity.
Qed.

(** A request that does not end in ".h5" is handled as the request with
    ".h5" appended, after one warning; no error comes of it. *)
Lemma handle_fout_adds_extension (fout : string) (dirout : option string)
    (w : world) :
  endswith ".h5" fout = false ->
  Gen.handle_fout fout dirout w =
  Gen.handle_fout (fout ++ ".h5") dirout
    (mkWorld (fs w) (resources w) (call_depth w)
       (trace w ++
        [Warn ("Generation output file request must be .h5, set to: " ++
               Gen.dq ++ (fout ++ ".h5") ++ Gen.dq)])
       (blocked w)).
Proof.
  intros Hext. unfold Gen.handle_fout at 1 2. rewrite Hext.
  assert (He : endswith ".h5" (fout ++ ".h5") = true).
  { clear. induction fout as [|c s IH]; [reflexivity|].
    simpl. rewrite IH. apply orb_true_r. }
  rewrite He. simpl. reflexivity.
Qed.

(** *** Names without a newline are never returned while they exist *)

Lemma string_app_assoc (a b c : string) : (a ++ b) ++ c = a ++ b ++ c.
Proof.
  induction a as [|x a IH]; [reflexivity|].
  change (String x ((a ++ b) ++ c) = String x (a ++ b ++ c)). by f_equal.
Qed.

Lemma no_newline_app (a b : string) :
  no_newline (a ++ b) = no_newline a && no_newline b.
Proof.
  induction a as [|c a IH]; [reflexivity|].
  change (negb (is_newline c) && no_newline (a ++ b)
          = negb (is_newline c) && no_newline a && no_newline b).
  rewrite IH. by rewrite andb_assoc.
Qed.

Lemma has_tag_unfold (c : ascii) (s : string) :
  has_tag (String c s) =
    match tag_at (String c s) with
    | Some _ => true
    | None => has_tag s
    end.
Proof. reflexivity. Qed.

Lemma re_match_tag_unfold (c : ascii) (s : string) :
  re_match_tag (String c s) =
    match (if is_newline c then None else re_match_tag s) with
    | Some g => Some g
    | None => tag_at (String c s)
    end.
Proof. reflexivity. Qed.

Lemma has_tag_app_l (p s : string) : has_tag s = true -> has_tag (p ++ s) = true.
Proof.
  intros Hs. induction p as [|c p IH]; [exact Hs|].
  change (String c p ++ s) with (String c (p ++ s)).
  rewrite has_tag_unfold, IH. by destruct (tag_at _).
Qed.

(** Without a newline, the pattern finds a tag wherever there is one. *)
Lemma re_match_tag_Some (s : string) :
  no_newline s = true -> has_tag s = true -> exists g, re_match_tag s = Some g.
Proof.
  induction s as [|c s IH]; [discriminate|].
  intros Hnl Htag. simpl in Hnl.
  apply andb_true_iff in Hnl as [Hc Hnl].
  apply negb_true_iff in Hc.
  rewrite re_match_tag_unfold, Hc. rewrite has_tag_unfold in Htag.
  destruct (tag_at (String c s)) as [g|] eqn:Ht.
  - destruct (re_match_tag s); eauto.
  - destruct (IH Hnl Htag) as [g ->]. eauto.
Qed.

Lemma tag_at_inv (s g : string) :
  tag_at s = Some g ->
  exists d1 d2 d3 rest,
    s = String "_" (String "x" (String d1 (String d2 (String d3 rest))))
    /\ g = String d1 (String d2 (String d3 ""))
    /\ is_digit d1 = true /\ is_digit d2 = true /\ is_digit d3 = true.
Proof.
  destruct s as [|c0 [|c1 [|d1 [|d2 [|d3 rest]]]]]; try discriminate.
  unfold tag_at.
  destruct (Ascii.eqb_spec c0 "_") as [->|]; [|discriminate].
  destruct (Ascii.eqb_spec c1 "x") as [->|]; [|discriminate].
  destruct (is_digit d1) eqn:H1; [|discriminate].
  destruct (is_digit d2) eqn:H2; [|discriminate].
  destruct (is_digit d3) eqn:H3; [|discriminate].
  intros [= <-]. by exists d1, d2, d3, rest.
Qed.

(** A tag the pattern finds is three digits after "_x" somewhere in the
    string. *)
Lemma re_match_tag_inv (s g : string) :
  re_match_tag s = Some g ->
  exists p q d1 d2 d3,
    s = p ++ ("_x" ++ g) ++ q
    /\ g = String d1 (String d2 (String d3 ""))
    /\ is_digit d1 = true /\ is_digit d2 = true /\ is_digit d3 = true.
Proof.
  revert g. induction s as [|c s IH]; intros g; [discriminate|].
  rewrite re_match_tag_unfold.
  assert (Hhead : tag_at (String c s) = Some g ->
    exists p q d1 d2 d3,
      String c s = p ++ ("_x" ++ g) ++ q
      /\ g = String d1 (String d2 (String d3 ""))
      /\ is_digit d1 = true /\ is_digit d2 = true /\ is_digit d3 = true).
  { intros Ht. apply tag_at_inv in Ht as (d1 & d2 & d3 & rest & -> & -> & Hd).
    by exists "", rest, d1, d2, d3. }
  destruct (is_newline c); [exact Hhead|].
  destruct (re_match_tag s) as [g'|] eqn:Hs; [|exact Hhead].
  intros [= <-].
  destruct (IH g' eq_refl) as (p & q & d1 & d2 & d3 & -> & Hg & Hd).
  by exists (String c p), q, d1, d2, d3.
Qed.

Lemma prefix_app (old q : string) : String.prefix old (old ++ q) = true.
Proof.
  induction old as [|c old IH]; [by destruct q|].
  change (String c old ++ q) with (String c (old ++ q)). simpl.
  destruct (ascii_dec c c); [exact IH | done].
Qed.

Lemma replace_from_unfold (old new : string) (c : ascii) (s : string) :
  replace_from old new 0 (String c s) =
    if String.prefix old (String c s)
    then new ++ replace_from old new (String.length old - 1) s
    else String c (replace_from old new 0 s).
Proof. reflexivity. Qed.

(** Where [old] occurs, the replacement holds [new]. *)
Lemma replace_emits (old new p q : string) :
  old <> "" ->
  exists p' q', replace old new (p ++ old ++ q) = p' ++ new ++ q'.
Proof.
  intros Hold.
  assert (Hrep : forall s, replace old new s = replace_from old new 0 s)
    by (by destruct old).
  rewrite Hrep. clear Hrep.
  induction p as [|c p IH].
  - change ("" ++ old ++ q) with (old ++ q).
    destruct old as [|c old]; [done|].
    change (String c old ++ q) with (String c (old ++ q)).
    rewrite replace_from_unfold.
    change (String c (old ++ q)) with (String c old ++ q).
    rewrite prefix_app. by exists "", (replace_from (String c old) new
                                          (String.length (String c old) - 1)
                                          (old ++ q)).
  - change (String c p ++ old ++ q) with (String c (p ++ old ++ q)).
    rewrite replace_from_unfold.
    destruct (String.prefix old (String c (p ++ old ++ q))).
    + by exists "", (replace_from old new (String.length old - 1)
                                  (p ++ old ++ q)).
    + destruct IH as (p' & q' & ->). by exists (String c p'), q'.
Qed.

Lemma no_newline_replace_from (old new : string) :
  no_newline new = true ->
  forall (s : string) (skip : nat),
    no_newline s = true -> no_newline (replace_from old new skip s) = true.
Proof.
  intros Hnew. induction s as [|c s IH]; intros skip Hs; [reflexivity|].
  simpl in Hs. apply andb_true_iff in Hs as [Hc Hs].
  destruct skip as [|skip]; [|by apply IH].
  rewrite replace_from_unfold.
  destruct (String.prefix old (String c s)).
  - rewrite no_newline_app, Hnew. by apply IH.
  - simpl. rewrite Hc. by apply IH.
Qed.

Lemma no_newline_replace (old new s : string) :
  no_newline new = true -> no_newline s = true ->
  no_newline (replace old new s) = true.
Proof.
  intros Hnew Hs. destruct old; [exact Hs|].
  by apply no_newline_replace_from.
Qed.

(** Three digits read as a number between 0 and 999. *)
Lemma int_of_digits_3 (d1 d2 d3 : ascii) :
  is_digit d1 = true -> is_digit d2 = true -> is_digit d3 = true ->
  (0 <= int_of_digits (String d1 (String d2 (String d3 ""))) <= 999)%Z.
Proof.
  unfold is_digit, int_of_digits. simpl.
  rewrite !andb_true_iff, !Nat.leb_le. lia.
Qed.

Lemma next_tag_ok_below_1000 (n : Z) :
  (0 <= n <= 999)%Z -> next_tag_ok n = true.
Proof.
  intros Hn.
  assert (Hall : forallb (fun k => next_tag_ok (Z.of_nat k)) (seq 0 1000) = true)
    by (vm_compute; reflexivity).
  rewrite forallb_forall in Hall.
  specialize (Hall (Z.to_nat n)). rewrite Z2Nat.id in Hall by lia.
  apply Hall, in_seq. lia.
Qed.

Lemma tag_at_app (s q g : string) :
  tag_at s = Some g -> tag_at (s ++ q) = Some g.
Proof.
  intros Ht. apply tag_at_inv in Ht as (d1 & d2 & d3 & rest & -> & -> & H1 & H2 & H3).
  change (tag_at (String "_" (String "x" (String d1 (String d2
            (String d3 (rest ++ q))))))
          = Some (String d1 (String d2 (String d3 "")))).
  unfold tag_at. by rewrite H1, H2, H3.
Qed.

Lemma has_tag_head (s g : string) : tag_at s = Some g -> has_tag s = true.
Proof.
  intros Ht. destruct s as [|c s]; [discriminate|].
  by rewrite has_tag_unfold, Ht.
Qed.

(** One round of [get_unique_fout] keeps a name free of newlines and
    tagged. *)
Lemma retagged_name_ok (fout g : string) :
  no_newline fout = true ->
  re_match_tag fout = Some g ->
  let fout' := replace ("_x" ++ g) (next_tag (int_of_digits g)) fout in
  no_newline fout' = true /\ has_tag fout' = true.
Proof.
  intros Hnl Hg fout'.
  destruct (re_match_tag_inv _ _ Hg) as (p & q & d1 & d2 & d3 & Hfout & -> & H1 & H2 & H3).
  pose proof (next_tag_ok_below_1000 _ (int_of_digits_3 d1 d2 d3 H1 H2 H3)) as Hok.
  unfold next_tag_ok in Hok. apply andb_true_iff in Hok as [Hnew Htag].
  split.
  - by apply no_newline_replace.
  - unfold fout'. rewrite Hfout.
    destruct (replace_emits ("_x" ++ String d1 (String d2 (String d3 "")))
                (next_tag (int_of_digits (String d1 (String d2 (String d3 "")))))
                p q ltac:(discriminate)) as (p' & q' & ->).
    apply has_tag_app_l.
    destruct (tag_at (next_tag _)) as [g'|] eqn:Hg'; [|discriminate].
    by apply (has_tag_head _ g'), tag_at_app.
Qed.

Lemma get_unique_fout_at_unfold (depth : nat) (fout : string) (w : world) :
  Gen.get_unique_fout_at (S depth) fout w =
    if bool_decide (fout ∈ fs w) then
      match re_match_tag fout with
      | Some g =>
          Gen.get_unique_fout_at depth
            (replace ("_x" ++ g) (next_tag (int_of_digits g)) fout) w
      | None => (Returns fout, w)
      end
    else (Returns fout, w).
Proof.
  simpl. unfold bind, path_exists, ret.
  destruct (bool_decide (fout ∈ fs w)); [|reflexivity].
  destruct (re_match_tag fout); reflexivity.
Qed.

(** On a tagged name without a newline, [get_unique_fout] either returns
    a path that does not exist or runs out of call depth; it never returns
    an existing path and never touches the world. *)
Lemma get_unique_fout_at_safe (depth : nat) :
  forall (fout : string) (w : world),
    no_newline fout = true -> has_tag fout = true ->
    (exists r, Gen.get_unique_fout_at depth fout w = (Returns r, w) /\ r ∉ fs w)
    \/ Gen.get_unique_fout_at depth fout w = (Raises RecursionError, w).
Proof.
  induction depth as [|depth IH]; intros fout w Hnl Htag; [by right|].
  rewrite get_unique_fout_at_unfold.
  destruct (decide (fout ∈ fs w)) as [Hin|Hout].
  - rewrite bool_decide_eq_true_2 by done.
    destruct (re_match_tag_Some fout Hnl Htag) as [g Hg]. rewrite Hg.
    destruct (retagged_name_ok fout g Hnl Hg) as [Hnl' Htag'].
    exact (IH _ w Hnl' Htag').
  - rewrite bool_decide_eq_false_2 by done. left. by exists fout.
Qed.

Lemma endswith_app_l (suf a s : string) :
  endswith suf s = true -> endswith suf (a ++ s) = true.
Proof.
  intros Hs. induction a as [|c a IH]; [exact Hs|].
  change (String c a ++ s) with (String c (a ++ s)).
  simpl. rewrite IH. apply orb_true_r.
Qed.

Lemma endswith_inv (suf s : string) :
  endswith suf s = true -> exists p, s = p ++ suf.
Proof.
  induction s as [|c s IH].
  - destruct suf; [by exists "" | discriminate].
  - change (endswith suf (String c s))
      with (String.eqb (String c s) suf || endswith suf s).
    destruct (String.eqb_spec (String c s) suf) as [<-|_]; [by exists ""|].
    simpl. intros Hs. destruct (IH Hs) as [p ->]. by exists (String c p).
Qed.

Lemma path_join_keeps (d f : string) :
  endswith ".h5" f = true -> no_newline d = true -> no_newline f = true ->
  endswith ".h5" (path_join d f) = true /\ no_newline (path_join d f) = true.
Proof.
  intros He Hd Hf. unfold path_join.
  destruct (startswith "/" f); [done|].
  destruct (String.eqb d "" || endswith "/" d).
  - split; [by apply endswith_app_l | by rewrite no_newline_app, Hd, Hf].
  - split; [by apply endswith_app_l, endswith_app_l|].
    by rewrite !no_newline_app, Hd, Hf.
Qed.

Lemma written_snoc (tr : list event) (e : event) :
  (forall v fout mode table, e <> Write v fout mode table) ->
  written (tr ++ [e]) = written tr.
Proof.
  intros He. induction tr as [|x tr IH]; simpl.
  - destruct e; try reflexivity. by destruct (He v fout mode table).
  - destruct x; by rewrite ?IH.
Qed.

Lemma grown_refl (w : world) : grown w w.
Proof. by repeat split. Qed.

Lemma grown_trans (w1 w2 w3 : world) : grown w1 w2 -> grown w2 w3 -> grown w1 w3.
Proof.
  intros (Hf & Hr & Hc & Hb & Ht) (Hf' & Hr' & Hc' & Hb' & Ht').
  repeat split; [by auto|congruence..].
Qed.

Lemma mkdir_grown (p : string) (w : world) :
  grown w (mkdir p w).2
  /\ ((mkdir p w).1 = Returns tt -> p ∈ fs (mkdir p w).2)
  /\ (forall e, (mkdir p w).1 = Raises e -> e = OSError p /\ (mkdir p w).2 = w).
Proof.
  unfold mkdir.
  destruct (bool_decide (p ∈ blocked w) || bool_decide (p ∈ fs w)); simpl.
  - split; [apply grown_refl|]. split; [discriminate|]. by intros e [= <-].
  - split; [|split; [|discriminate]].
    + repeat split; simpl; try reflexivity.
      intros q Hq. apply elem_of_union. by right.
    + intros _. apply elem_of_union. left. by apply elem_of_singleton.
Qed.

Lemma makedirs_at_unfold (fuel : nat) (name : string) (w : world) :
  makedirs_at (S fuel) name w =
    if negb (String.eqb (makedirs_split name).1 "")
       && negb (String.eqb (makedirs_split name).2 "")
       && negb (bool_decide ((makedirs_split name).1 ∈ fs w))
    then
      match makedirs_at fuel (makedirs_split name).1 w with
      | (Returns _, w1) =>
          if String.eqb (makedirs_split name).2 "." then (Returns tt, w1)
          else mkdir name w1
      | (Raises e, w1) => (Raises e, w1)
      end
    else mkdir name w.
Proof.
  cbn [makedirs_at]. destruct (makedirs_split name) as [head tail].
  cbn [fst snd]. unfold bind, path_exists, ret.
  destruct (negb (String.eqb head "") && negb (String.eqb tail ""));
    cbn [andb]; [|reflexivity].
  destruct (bool_decide (head ∈ fs w)); cbn [negb]; [reflexivity|].
  destruct (makedirs_at fuel head w) as [[[]|e] w1]; [|reflexivity].
  destruct (String.eqb tail "."); reflexivity.
Qed.

Lemma split_at_last_slash_length (p head tail : string) :
  split_at_last_slash p = Some (head, tail) ->
  String.length head + String.length tail = String.length p.
Proof.
  revert head tail. induction p as [|c p IH]; intros head tail Hs; [discriminate|].
  simpl in Hs. destruct (split_at_last_slash p) as [[h t]|].
  - injection Hs as <- <-. simpl. by rewrite (IH h t eq_refl).
  - destruct (Ascii.eqb c "/"); [|discriminate].
    by injection Hs as <- <-.
Qed.

Lemma rstrip_length (chars s : string) :
  String.length (rstrip chars s) <= String.length s.
Proof.
  induction s as [|c s IH]; [done|]. simpl.
  destruct (rstrip chars s) as [|c' r].
  - destruct (char_in c chars); simpl; lia.
  - simpl in *. lia.
Qed.

Lemma path_split_length (p : string) :
  String.length (path_split p).1 + String.length (path_split p).2
  <= String.length p.
Proof.
  unfold path_split.
  destruct (split_at_last_slash p) as [[head tail]|] eqn:Hs; [|simpl; lia].
  apply split_at_last_slash_length in Hs. cbn [fst snd].
  destruct (negb (String.eqb head "") && negb (all_slashes head)); [|lia].
  pose proof (rstrip_length "/" head). lia.
Qed.

(** Each level of [os.makedirs] works on a shorter path. *)
Lemma makedirs_split_shorter (p : string) :
  (makedirs_split p).2 <> "" ->
  String.length (makedirs_split p).1 < String.length p.
Proof.
  unfold makedirs_split. pose proof (path_split_length p) as Hp.
  destruct (path_split p) as [head tail]. cbn [fst snd] in Hp.
  destruct (String.eqb_spec tail "") as [->|Htail].
  - intros Hne. pose proof (path_split_length head) as Hh.
    destruct (path_split head) as [h t]. cbn [fst snd] in *.
    destruct t; [done|]. simpl in *. lia.
  - intros _. cbn [fst]. destruct tail; [done|]. simpl in *. lia.
Qed.

(** The nesting of [os.makedirs] ends by itself: beyond the length of the
    path, more fuel changes nothing. *)
Lemma makedirs_at_fuel (fuel : nat) :
  forall (name : string) (w : world),
    String.length name <= fuel ->
    makedirs_at (S fuel) name w = makedirs_at fuel name w.
Proof.
  induction fuel as [|fuel IH]; intros name w Hlen.
  - destruct name; [reflexivity|simpl in Hlen; lia].
  - rewrite (makedirs_at_unfold (S fuel) name w), (makedirs_at_unfold fuel name w).
    destruct (String.eqb_spec (makedirs_split name).1 "") as [|Hhead];
      [reflexivity|].
    destruct (String.eqb_spec (makedirs_split name).2 "") as [|Htail];
      [reflexivity|].
    pose proof (makedirs_split_shorter name Htail).
    rewrite IH by lia. reflexivity.
Qed.

Lemma makedirs_at_enough (name : string) (w : world) (extra : nat) :
  makedirs_at (String.length name + extra) name w
  = makedirs_at (String.length name) name w.
Proof.
  induction extra as [|extra IH]; [by rewrite Nat.add_0_r|].
  rewrite Nat.add_succ_r, makedirs_at_fuel by lia. exact IH.
Qed.

(** [os.makedirs] removes nothing and writes nothing; it fails with an
    [OSError] only; and when it returns, the directory is there, unless
    its name ends in "/.". *)
Lemma makedirs_at_grown (fuel : nat) :
  forall (name : string) (w : world),
    grown w (makedirs_at fuel name w).2
    /\ ((makedirs_at fuel name w).1 = Returns tt ->
        (makedirs_split name).2 <> "." ->
        name ∈ fs (makedirs_at fuel name w).2)
    /\ (forall e, (makedirs_at fuel name w).1 = Raises e -> exists a, e = OSError a).
Proof.
  assert (Hlast : forall (name : string) (w w1 : world),
    grown w w1 ->
    grown w (mkdir name w1).2
    /\ ((mkdir name w1).1 = Returns tt -> (makedirs_split name).2 <> "." ->
        name ∈ fs (mkdir name w1).2)
    /\ (forall e, (mkdir name w1).1 = Raises e -> exists a, e = OSError a)).
  { intros name w w1 Hw1. destruct (mkdir_grown name w1) as (Hg & Hin & Hraise).
    split; [by eapply grown_trans|]. split; [by intros Hr _; apply Hin|].
    intros e He. exists name. by apply Hraise. }
  induction fuel as [|fuel IH]; intros name w.
  - apply Hlast, grown_refl.
  - rewrite makedirs_at_unfold.
    destruct (negb (String.eqb (makedirs_split name).1 "")
              && negb (String.eqb (makedirs_split name).2 "")
              && negb (bool_decide ((makedirs_split name).1 ∈ fs w)));
      [|apply Hlast, grown_refl].
    destruct (IH (makedirs_split name).1 w) as (Hg & _ & Hr).
    destruct (makedirs_at fuel (makedirs_split name).1 w) as [[[]|e] w1];
      simpl in Hg, Hr.
    + destruct (String.eqb_spec (makedirs_split name).2 ".") as [Heq|Hne];
        [|by apply Hlast].
      simpl. split; [exact Hg|]. split; [by intros _ Hne|discriminate].
    + simpl. split; [exact Hg|]. split; [discriminate|].
      intros e' [= <-]. by apply Hr.
Qed.

Lemma makedirs_grown (p : string) (w : world) :
  grown w (makedirs p w).2
  /\ ((makedirs p w).1 = Returns tt ->
      (makedirs_split p).2 <> "." -> p ∈ fs (makedirs p w).2)
  /\ (forall e, (makedirs p w).1 = Raises e -> exists a, e = OSError a).
Proof.
  unfold makedirs, bind.
  destruct (makedirs_at_grown (String.length p) p w) as (Hg & Hin & Hr).
  destruct (makedirs_at (String.length p) p w) as [[[]|e] w1]; simpl in *.
  - split; [|split; [by auto|discriminate]].
    destruct Hg as (Hf & Hres & Hc & Hb & Ht).
    repeat split; simpl; try done. by rewrite written_snoc.
  - split; [exact Hg|]. split; [discriminate|]. intros e' [= <-]. by apply Hr.
Qed.

(** The path [handle_fout] has in mind ends in ".h5" and, for a request
    without a newline, holds none. *)
Lemma target_ok (fout : string) (dirout : option string) :
  no_newline fout = true ->
  (forall d, dirout = Some d -> no_newline d = true) ->
  endswith ".h5" (target fout dirout) = true
  /\ no_newline (target fout dirout) = true.
Proof.
  intros Hnl Hdir.
  assert (Hext : endswith ".h5" (if endswith ".h5" fout then fout else fout ++ ".h5")
                 = true
                 /\ no_newline (if endswith ".h5" fout then fout else fout ++ ".h5")
                    = true).
  { destruct (endswith ".h5" fout) eqn:Hends; [by split|].
    split; [apply endswith_app | by rewrite no_newline_app, Hnl]. }
  destruct Hext as [Hext1 Hext2]. unfold target.
  destruct dirout as [d|]; [|by split].
  destruct (String.eqb d ""); [by split|].
  apply path_join_keeps; [done| |done]. by apply Hdir.
Qed.

Lemma handle_fout_unfold (fout : string) (dirout : option string) (w : world) :
  Gen.handle_fout fout dirout w =
    let w1 :=
      if endswith ".h5" fout then w
      else mkWorld (fs w) (resources w) (call_depth w)
             (trace w ++
              [Warn ("Generation output file request must be .h5, set to: " ++
                     Gen.dq ++ (fout ++ ".h5") ++ Gen.dq)])
             (blocked w) in
    let search :=
      Gen.get_unique_fout (replace ".h5" "_x000.h5" (target fout dirout)) in
    match dirout with
    | Some d =>
        if String.eqb d "" then search w1
        else if bool_decide (d ∈ fs w1) then search w1
        else match makedirs d w1 with
             | (Returns _, w2) => search w2
             | (Raises e, w2) => (Raises e, w2)
             end
    | None => search w1
    end.
Proof.
  unfold Gen.handle_fout, target, bind, ret, emit, path_exists.
  destruct (endswith ".h5" fout); cbn [negb];
    (destruct dirout as [d|]; [|reflexivity]);
    (destruct (String.eqb d ""); [reflexivity|]); cbn [fs];
    (destruct (bool_decide (d ∈ fs w)); cbn [negb]; [reflexivity|]);
    match goal with
    | |- context [makedirs d ?w1] =>
        destruct (makedirs d w1) as [[[]|e] w2]; reflexivity
    end.
Qed.

(** [handle_fout] step by step: it fails in [os.makedirs], which it calls
    when the output directory is not there, or it goes on to search a free
    tag for the path it has in mind. *)
Lemma handle_fout_cases (fout : string) (dirout : option string) (w : world) :
  (exists w',
      Gen.handle_fout fout dirout w
      = Gen.get_unique_fout (replace ".h5" "_x000.h5" (target fout dirout)) w'
      /\ grown w w'
      /\ ((forall d, dirout = Some d -> d = "" \/ d ∈ fs w) -> fs w' = fs w)
      /\ (forall d, dirout = Some d -> d <> "" ->
                    (makedirs_split d).2 <> "." -> d ∈ fs w'))
  \/ (exists a d w',
        Gen.handle_fout fout dirout w = (Raises (OSError a), w')
        /\ grown w w'
        /\ dirout = Some d /\ d <> "" /\ d ∉ fs w).
Proof.
  rewrite handle_fout_unfold. cbv zeta.
  set (w1 := if endswith ".h5" fout then w else _).
  assert (Hw1 : grown w w1 /\ fs w1 = fs w).
  { unfold w1. destruct (endswith ".h5" fout); [split; [apply grown_refl|done]|].
    split; [|reflexivity]. repeat split; simpl; try done.
    by rewrite written_snoc. }
  destruct Hw1 as [Hg1 Hfs1]. clearbody w1.
  destruct dirout as [d|].
  - destruct (String.eqb_spec d "") as [->|Hd].
    + left. exists w1. split; [reflexivity|]. split; [exact Hg1|].
      split; [by intros _|]. by intros d [= <-].
    + destruct (decide (d ∈ fs w1)) as [Hin|Hout].
      * rewrite (bool_decide_eq_true_2 _ Hin).
        left. exists w1. split; [reflexivity|]. split; [exact Hg1|].
        split; [by intros _|]. by intros d' [= <-] _ _.
      * rewrite (bool_decide_eq_false_2 _ Hout).
        destruct (makedirs_grown d w1) as (Hg & Hmade & Hraise).
        destruct (makedirs d w1) as [[[]|e] w2]; simpl in *.
        -- left. exists w2.
           split; [reflexivity|]. split; [by eapply grown_trans|]. split.
           ++ intros Hex. destruct (Hex d eq_refl) as [->|Hin]; [done|].
              rewrite Hfs1 in Hout. done.
           ++ intros d' [= <-] _ Hlast. by apply Hmade.
        -- destruct (Hraise e eq_refl) as [a ->].
           right. exists a, d, w2. split; [reflexivity|].
           split; [by eapply grown_trans|]. split; [reflexivity|].
           split; [exact Hd|]. by rewrite <- Hfs1.
  - left. exists w1. split; [reflexivity|]. split; [exact Hg1|].
    split; [by intros _|]. by intros d Hd.
Qed.

(** The search [handle_fout] ends with, for a request without a newline:
    the path it finds does not exist, and it fails only by running out of
    call depth. *)
Lemma search_safe (fout : string) (dirout : option string) (w : world) :
  no_newline fout = true ->
  (forall d, dirout = Some d -> no_newline d = true) ->
  (exists r,
      Gen.get_unique_fout (replace ".h5" "_x000.h5" (target fout dirout)) w
      = (Returns r, w) /\ r ∉ fs w)
  \/ Gen.get_unique_fout (replace ".h5" "_x000.h5" (target fout dirout)) w
     = (Raises RecursionError, w).
Proof.
  intros Hnl Hdir.
  destruct (target_ok fout dirout Hnl Hdir) as [Hends Hnl'].
  destruct (endswith_inv _ _ Hends) as [p Hp]. rewrite Hp in *.
  destruct (replace_emits ".h5" "_x000.h5" p "" ltac:(discriminate))
    as (p' & q' & Hrep).
  change (".h5" ++ "") with ".h5" in Hrep.
  assert (Htag : has_tag (replace ".h5" "_x000.h5" (p ++ ".h5")) = true).
  { rewrite Hrep. apply has_tag_app_l.
    apply (has_tag_head _ "000"), tag_at_app. reflexivity. }
  assert (Hnl2 : no_newline (replace ".h5" "_x000.h5" (p ++ ".h5")) = true)
    by (by apply no_newline_replace).
  unfold Gen.get_unique_fout.
  destruct (get_unique_fout_at_safe (call_depth w) _ w Hnl2 Htag)
    as [(r & Hr & Hfree)|Hr]; rewrite Hr.
  - left. by exists r.
  - by right.
Qed.

(** For a request without a newline, the path [handle_fout] returns does
    not exist; it fails only by running out of call depth or in
    [os.makedirs]. *)
Lemma handle_fout_never_returns_existing_path
    (fout : string) (dirout : option string) (w : world) :
  no_newline fout = true ->
  (forall d, dirout = Some d -> no_newline d = true) ->
  (exists r w', Gen.handle_fout fout dirout w = (Returns r, w') /\ r ∉ fs w')
  \/ (exists w', Gen.handle_fout fout dirout w = (Raises RecursionError, w'))
  \/ (exists a w', Gen.handle_fout fout dirout w = (Raises (OSError a), w')).
Proof.
  intros Hnl Hdir.
  destruct (handle_fout_cases fout dirout w)
    as [(w' & -> & _)|(a & d & w' & -> & _)];
    [|right; right; by exists a, w'].
  destruct (search_safe fout dirout w' Hnl Hdir) as [(r & -> & Hfree)| ->].
  - left. by exists r, w'.
  - right. left. by exists w'.
Qed.

(** What a call of [handle_fout] for a request without a newline comes to:
    the world has only grown; a path handed back does not exist; and the
    call fails only by running out of call depth, or in [os.makedirs] for
    an output directory that was not there. *)
Lemma handle_fout_outcome
    (fout : string) (dirout : option string) (w w' : world) (o : outcome string) :
  no_newline fout = true ->
  (forall d, dirout = Some d -> no_newline d = true) ->
  Gen.handle_fout fout dirout w = (o, w') ->
  grown w w'
  /\ match o with
     | Returns r => r ∉ fs w'
     | Raises e =>
         e = RecursionError
         \/ (exists a d, e = OSError a /\ dirout = Some d /\ d <> "" /\ d ∉ fs w)
     end.
Proof.
  intros Hnl Hdir Hrun.
  destruct (handle_fout_cases fout dirout w)
    as [(w1 & Hh & Hg & _)|(a & d & w1 & Hh & Hg & Hd)];
    rewrite Hh in Hrun.
  - destruct (search_safe fout dirout w1 Hnl Hdir) as [(r & Hr & Hfree)|Hr];
      rewrite Hr in Hrun; injection Hrun as <- <-; split; try exact Hg.
    + exact Hfree.
    + by left.
  - injection Hrun as <- <-. split; [exact Hg|]. right. by exists a, d.
Qed.

End FoutProperties.

(** C8, at the failing input: the requested name holds a newline and its
    tagged name "run\n1_x000.h5" exists.  The pattern's [.*] does not pass
    the newline, so no tag is found: [handle_fout] returns the existing
    path, and the flush writes to it in mode "w". *)
Theorem handle_fout_returns_existing_path_after_newline :
  let taken := "run" ++ Fixture.nl ++ "1_x000.h5" in
  let w := Fixture.world_of [taken]
             [("ri_100_nsrdb_2012.h5", mkResource [] [])] in
  taken ∈ fs w
  /\ re_match_tag taken = None
  /\ Gen.handle_fout ("run" ++ Fixture.nl ++ "1.h5") None w = (Returns taken, w)
  /\ written (trace (Gen.flush (Fixture.gen_with_result ("run" ++ Fixture.nl ++ "1.h5"))
                               "w" w).2)
     = [taken].
Proof.
  cbv zeta. split; [|split; [|split]].
  - unfold Fixture.world_of. simpl. set_solver.
  - reflexivity.
  - vm_compute. reflexivity.
  - vm_compute. reflexivity.
Qed.

(** Writing to "x.h5" twice in succession, with "x.h5" there from the
    start: the two flushes write "x_x000.h5" and then "x_x001.h5". *)
Example flush_x_twice :
  written (trace ((let* g := Gen.flush (Fixture.gen_with_result "x.h5") "w" in
                   Gen.flush g "w")
                    (Fixture.world_of ["x.h5"]
                       [("ri_100_nsrdb_2012.h5", mkResource [] [])])).2)
  = ["x_x000.h5"; "x_x001.h5"].
Proof. vm_compute. reflexivity. Qed.

(** ** Output files: what [handle_fout] and [flush] do to the world *)

Section OutputFileProperties.
Context `{SAM}.

Lemma written_app (a b : list event) : written (a ++ b) = (written a ++ written b)%list.
Proof.
  induction a as [|e a IH]; [reflexivity|].
  destruct e; simpl; by rewrite ?IH.
Qed.

(** [get_unique_fout] only looks at the file system. *)
Lemma get_unique_fout_at_world (depth : nat) :
  forall (fout : string) (w : world), (Gen.get_unique_fout_at depth fout w).2 = w.
Proof.
  induction depth as [|depth IH]; intros fout w; [reflexivity|].
  rewrite get_unique_fout_at_unfold.
  destruct (bool_decide (fout ∈ fs w)); [|reflexivity].
  destruct (re_match_tag fout); [apply IH | reflexivity].
Qed.

(** [handle_fout] writes nothing, opens nothing and removes no path,
    however it ends. *)
Lemma handle_fout_world (fout : string) (dirout : option string) (w : world) :
  grown w (Gen.handle_fout fout dirout w).2.
Proof.
  destruct (handle_fout_cases fout dirout w)
    as [(w' & -> & Hg & _)|(a & d & w' & -> & Hg & _)]; [|exact Hg].
  unfold Gen.get_unique_fout. by rewrite get_unique_fout_at_world.
Qed.

(** The path [handle_fout] hands back for a request without a newline is
    new: it exists neither before the call nor after it (no directory the
    call makes is the path returned).  The call fails in two ways only:
    with Python's [RecursionError], or with the [OSError] of [os.makedirs]
    for an output directory that was not there. *)
Theorem handle_fout_result_is_new
    (fout : string) (dirout : option string) (w w' : world) (o : outcome string) :
  no_newline fout = true ->
  (forall d, dirout = Some d -> no_newline d = true) ->
  Gen.handle_fout fout dirout w = (o, w') ->
  match o with
  | Returns r => (r ∉ fs w') /\ (r ∉ fs w)
  | Raises e =>
      e = RecursionError
      \/ (exists a d, e = OSError a /\ dirout = Some d /\ d <> "" /\ d ∉ fs w)
  end.
Proof.
  intros Hnl Hdir Hrun.
  destruct (handle_fout_outcome fout dirout w w' o Hnl Hdir Hrun) as [Hg Ho].
  destruct o as [r|e]; [|exact Ho].
  split; [exact Ho|]. intros Hin. apply Ho. by apply Hg.
Qed.

(** With a non-empty output directory, [handle_fout] removes no path and
    writes no file, however the call ends (in [os.makedirs] too); and when
    it returns a path, the output directory exists, unless its name ends in
    "/." (a name for which [os.makedirs] makes the directory above only). *)
Theorem handle_fout_makes_directory
    (fout d : string) (w w' : world) (o : outcome string) :
  d <> "" ->
  Gen.handle_fout fout (Some d) w = (o, w') ->
  (forall p, p ∈ fs w -> p ∈ fs w')
  /\ written (trace w') = written (trace w)
  /\ (forall r, o = Returns r -> (makedirs_split d).2 <> "." -> d ∈ fs w').
Proof.
  intros Hd Hrun.
  destruct (handle_fout_cases fout (Some d) w)
    as [(w1 & Hh & Hg & _ & Hmade)|(a & d' & w1 & Hh & Hg & _)];
    rewrite Hh in Hrun.
  - unfold Gen.get_unique_fout in Hrun.
    pose proof (get_unique_fout_at_world (call_depth w1)
                  (replace ".h5" "_x000.h5" (target fout (Some d))) w1) as Hw.
    rewrite Hrun in Hw. simpl in Hw. subst w'.
    destruct Hg as (Hsub & _ & _ & _ & Hwr).
    split; [exact Hsub|]. split; [exact Hwr|].
    intros r _ Hlast. by apply (Hmade d).
  - injection Hrun as <- <-. destruct Hg as (Hsub & _ & _ & _ & Hwr).
    split; [exact Hsub|]. split; [exact Hwr|]. discriminate.
Qed.

Lemma out_again (self s : Gen.instance) (t : gmap Z output) :
  Gen.out self = (t, s) -> Gen.out s = (t, s).
Proof.
  unfold Gen.out. destruct (Gen._out self) as [t0|] eqn:Ho; intros [= <- <-].
  - by rewrite Ho.
  - reflexivity.
Qed.

(** Reading the time index changes nothing outside the object, and leaves
    the object's table alone. *)
Lemma time_index_world (self : Gen.instance) (w : world) :
  (Gen.time_index self w).2 = w
  /\ forall ti s, (Gen.time_index self w).1 = Returns (ti, s) ->
                  Gen._out s = Gen._out self.
Proof.
  unfold Gen.time_index.
  destruct (Gen._time_index self) as [ti0|].
  - split; [reflexivity|]. by intros ti s [= _ <-].
  - unfold bind, open_resource.
    destruct (resources w !! Gen._res_file self); [|by split].
    unfold eval. destruct (Gen.index_drop _ _); simpl; [|by split].
    split; [reflexivity|]. by intros ti s [= _ <-].
Qed.

(** The two writers either fail before touching anything (the resource
    file does not open, or the time index cannot be read) or write the
    table to [fout] once and keep the table. *)
Lemma to_disk_world (b : bool) (self : Gen.instance) (fout mode : string)
    (w : world) :
  let res := (if b then Gen.profiles_to_disk self fout mode
              else Gen.means_to_disk self fout mode) w in
  (exists e, res = (Raises e, w))
  \/ (exists self' v,
        res = (Returns self',
               mkWorld ({[fout]} ∪ fs w) (resources w) (call_depth w)
                       (trace w ++ [Write v fout mode (Gen.out self).1])
                       (blocked w))
        /\ (Gen.out self').1 = (Gen.out self).1).
Proof.
  destruct b; simpl.
  - unfold Gen.profiles_to_disk.
    destruct (Gen.out self) as [t s] eqn:Hout.
    pose proof (out_again _ _ _ Hout) as Hs.
    unfold Gen.meta, bind, open_resource.
    destruct (resources w !! Gen._res_file s); [|left; by eexists].
    simpl. destruct (time_index_world s w) as [Hw Hkeep].
    destruct (Gen.time_index s w) as [[[ti s2]|e] w2]; simpl in Hw; subst w2;
      [|left; by eexists].
    right. exists s2, Profiles. split; [reflexivity|].
    specialize (Hkeep ti s2 eq_refl). simpl.
    unfold Gen.out in *. rewrite Hkeep.
    destruct (Gen._out s); simpl; by injection Hs.
  - unfold Gen.means_to_disk.
    destruct (Gen.out self) as [t s] eqn:Hout.
    pose proof (out_again _ _ _ Hout) as Hs.
    unfold Gen.meta, bind, open_resource.
    destruct (resources w !! Gen._res_file s); [|left; by eexists].
    right. exists s, Means. split; [reflexivity|]. by rewrite Hs.
Qed.

Lemma flush_world
    (self : Gen.instance) (mode : string) (w w' : world)
    (o : outcome Gen.instance) :
  (forall f, Gen._fout self = Some f -> no_newline f = true) ->
  (forall d, Gen._dirout self = Some d -> no_newline d = true) ->
  Gen.flush self mode w = (o, w') ->
  (forall p, p ∈ fs w -> p ∈ fs w')
  /\ (written (trace w') = written (trace w)
      \/ exists r, (r ∉ fs w) /\ r ∈ fs w'
                   /\ written (trace w') = (written (trace w) ++ [r])%list)
  /\ (forall self', o = Returns self' -> (Gen.out self').1 = (Gen.out self).1).
Proof.
  intros Hf Hd Hrun. unfold Gen.flush in Hrun.
  destruct (Gen._fout self) as [f|] eqn:Hfout;
    [|injection Hrun as <- <-; split; [done|split; [by left|by intros ? [= <-]]]].
  destruct (Gen.out self) as [t s] eqn:Hout.
  pose proof (out_again _ _ _ Hout) as Hs.
  destruct (Gen.dict_truthy t);
    [|injection Hrun as <- <-;
      split; [done|split; [by left|intros ? [= <-]; by rewrite Hs]]].
  unfold bind in Hrun.
  destruct (Gen.handle_fout f (Gen._dirout self) w) as [[r|e] w1] eqn:Hh;
    destruct (handle_fout_outcome f (Gen._dirout self) w w1 _
                (Hf f eq_refl) Hd Hh) as [(Hsub & _ & _ & _ & Hwr) Hnew1].
  - assert (Hnew : r ∉ fs w) by (intros Hin; by apply Hnew1, Hsub).
    unfold emit in Hrun. simpl in Hrun.
    match type of Hrun with
    | context [(if ?b then _ else _) ?w2] =>
        destruct (to_disk_world b s r mode w2) as [[e He]|(s' & v & He & Hkeep)]
    end; simpl in He; rewrite He in Hrun; simpl in Hrun;
      injection Hrun as <- <-; simpl.
    + split; [exact Hsub|]. split; [|discriminate].
      left. rewrite written_app. simpl. by rewrite app_nil_r.
    + split; [intros p Hp; apply elem_of_union; right; by apply Hsub|].
      split.
      * right. exists r. split; [exact Hnew|].
        split; [apply elem_of_union; left; by apply elem_of_singleton|].
        rewrite !written_app. simpl. by rewrite !app_nil_r, Hwr.
      * intros ? [= <-]. by rewrite Hkeep, Hs.
  - injection Hrun as <- <-.
    split; [exact Hsub|split; [by left|discriminate]].
Qed.

(** A flush never overwrites and never deletes.  For an output name and
    directory without a newline, however the flush ends: every path that
    existed still exists; the flush has written at most one file, and that
    file did not exist when the flush began; and a flush that returns has
    kept the table it wrote. *)
Theorem flush_never_overwrites
    (self : Gen.instance) (mode : string) (w w' : world)
    (o : outcome Gen.instance) :
  (forall f, Gen._fout self = Some f -> no_newline f = true) ->
  (forall d, Gen._dirout self = Some d -> no_newline d = true) ->
  Gen.flush self mode w = (o, w') ->
  (forall p, p ∈ fs w -> p ∈ fs w')
  /\ (written (trace w') = written (trace w)
      \/ exists r, (r ∉ fs w) /\ r ∈ fs w'
                   /\ written (trace w') = (written (trace w) ++ [r])%list)
  /\ (forall self', o = Returns self' -> (Gen.out self').1 = (Gen.out self).1).
Proof. apply flush_world. Qed.

(** However many flushes follow one another, of whatever objects, no two
    of them write the same file and none writes a file that was there at
    the start. *)
Theorem flushes_write_distinct_new_files
    (jobs : list (Gen.instance * string)) :
  forall w : world,
    Forall (fun job =>
              (forall f, Gen._fout job.1 = Some f -> no_newline f = true)
              /\ (forall d, Gen._dirout job.1 = Some d -> no_newline d = true))
           jobs ->
    let w' := (flush_each jobs w).2 in
    (forall p, p ∈ fs w -> p ∈ fs w')
    /\ exists news,
         written (trace w') = (written (trace w) ++ news)%list
         /\ NoDup news
         /\ (forall r, r ∈ news -> (r ∉ fs w) /\ r ∈ fs w').
Proof.
  induction jobs as [|[self mode] jobs IH]; intros w Hjobs; cbv zeta.
  - split; [done|]. exists []. rewrite app_nil_r.
    split; [reflexivity|]. split; [constructor|]. intros r Hr.
    by apply elem_of_nil in Hr.
  - apply Forall_cons in Hjobs as [[Hf Hd] Hjobs]. simpl in Hf, Hd.
    simpl. unfold bind.
    destruct (Gen.flush self mode w) as [o w1] eqn:Hrun.
    destruct (flush_world self mode w w1 o Hf Hd Hrun) as (Hsub & Hwr & _).
    destruct o as [self'|e]; simpl.
    + destruct (IH w1 Hjobs) as (Hsub' & news & Hnews & Hnd & Hnew).
      split; [intros p Hp; by apply Hsub', Hsub|].
      destruct Hwr as [Hwr|(r & Hr & Hr1 & Hwr)].
      * exists news. rewrite Hnews, Hwr. split; [reflexivity|].
        split; [exact Hnd|]. intros r Hr. destruct (Hnew r Hr) as [Hout Hin].
        split; [|exact Hin]. intros Hw. by apply Hout, Hsub.
      * exists (r :: news). rewrite Hnews, Hwr, <- app_assoc.
        split; [reflexivity|]. split.
        -- apply NoDup_cons. split; [|exact Hnd].
           intros Hin. by destruct (Hnew r Hin).
        -- intros r' Hr'. apply elem_of_cons in Hr' as [->|Hr'].
           ++ split; [exact Hr|]. by apply Hsub'.
           ++ destruct (Hnew r' Hr') as [Hout Hin].
              split; [|exact Hin]. intros Hw. by apply Hout, Hsub.
    + split; [exact Hsub|].
      destruct Hwr as [Hwr|(r & Hr & Hr1 & Hwr)].
      * exists []. rewrite app_nil_r. split; [exact Hwr|].
        split; [constructor|]. intros r Hr. by apply elem_of_nil in Hr.
      * exists [r]. split; [exact Hwr|]. split; [apply NoDup_singleton|].
        intros r' Hr'. apply list_elem_of_singleton in Hr' as ->. by split.
Qed.

End OutputFileProperties.

(** The request "x.h5" into the directory "out", where "out/x_x000.h5"
    is taken: the path handed back is "out/x_x001.h5", which is new. *)
Lemma handle_fout_result_is_new_witness :
  let w := Fixture.world_of ["out"; "out/x_x000.h5"] [] in
  let w' := (Gen.handle_fout "x.h5" (Some "out") w).2 in
  ("out/x_x001.h5" ∉ fs w') /\ ("out/x_x001.h5" ∉ fs w).
Proof.
  cbv zeta.
  apply (handle_fout_result_is_new "x.h5" (Some "out") _ _
           (Returns "out/x_x001.h5")).
  - reflexivity.
  - intros d [= <-]. reflexivity.
  - vm_compute. reflexivity.
Defined.

(** The request "x.h5" into "out/sub", with neither "out" nor "out/sub"
    there. *)
Lemma handle_fout_makes_directory_witness :
  let w := Fixture.world_of ["x_x000.h5"] [] in
  let run := Gen.handle_fout "x.h5" (Some "out/sub") w in
  (forall p, p ∈ fs w -> p ∈ fs run.2)
  /\ written (trace run.2) = written (trace w)
  /\ (forall r, run.1 = Returns r -> (makedirs_split "out/sub").2 <> "." ->
                "out/sub" ∈ fs run.2).
Proof.
  cbv zeta.
  apply (handle_fout_makes_directory "x.h5" "out/sub").
  - discriminate.
  - apply surjective_pairing.
Defined.

(** [os.makedirs] at work in [handle_fout]: for the directory "out/sub"
    both "out" and "out/sub" are made, in this order. *)
Example handle_fout_makes_directories_above :
  let run := Gen.handle_fout "x.h5" (Some "out/sub")
               (Fixture.world_of ["x_x000.h5"] []) in
  run.1 = Returns "out/sub/x_x000.h5"
  /\ fs run.2 = {["out/sub"; "out"; "x_x000.h5"]}
  /\ trace run.2 = [Makedirs "out/sub"].
Proof. cbv zeta. split; [|split]; vm_compute; reflexivity. Qed.

(** A directory made on the way may be in the search's way: the request
    "/tmp/a.h5" is absolute, so the output directory is not put before
    it, and the directory "/tmp/a_x000.h5" that [os.makedirs] has made for
    "/tmp/a_x000.h5/sub" takes tag 000. *)
Example handle_fout_meets_directory_made_above :
  (Gen.handle_fout "/tmp/a.h5" (Some "/tmp/a_x000.h5/sub")
     (Fixture.world_of ["/"; "/tmp"] [])).1
  = Returns "/tmp/a_x001.h5".
Proof. vm_compute. reflexivity. Qed.

(** Where "out" cannot be made (it is a file's name below, say, or the
    place is read-only), [os.makedirs] raises: the call ends with the
    directory absent and no path handed back. *)
Example handle_fout_fails_in_makedirs :
  let w := Fixture.world_without ["out"] in
  Gen.handle_fout "x.h5" (Some "out/sub") w = (Raises (OSError "out"), w)
  /\ "out/sub" ∉ fs w.
Proof. cbv zeta. split; [vm_compute; reflexivity|]. by intros ?%elem_of_empty. Qed.

(** A flush to "x.h5" where "x_x000.h5" is taken. *)
Lemma flush_never_overwrites_witness :
  let self := Fixture.gen_with_result "x.h5" in
  let w := Fixture.world_of ["x_x000.h5"]
             [("ri_100_nsrdb_2012.h5", mkResource [] [])] in
  let w' := (Gen.flush self "w" w).2 in
  (forall p, p ∈ fs w -> p ∈ fs w')
  /\ (written (trace w') = written (trace w)
      \/ exists r, (r ∉ fs w) /\ r ∈ fs w'
                   /\ written (trace w') = (written (trace w) ++ [r])%list)
  /\ (forall self', (Gen.flush self "w" w).1 = Returns self' ->
                    (Gen.out self').1 = (Gen.out self).1).
Proof.
  cbv zeta.
  apply (flush_never_overwrites (Fixture.gen_with_result "x.h5") "w").
  - intros f [= <-]. reflexivity.
  - intros d Hd. discriminate Hd.
  - apply surjective_pairing.
Defined.

(** ** Node names: one per node *)

Section NodeUniqueProperties.

Lemma zeros_app_unfold (k : nat) (s : string) :
  zeros (S k) ++ s = String "0" (zeros k ++ s).
Proof. reflexivity. Qed.

Lemma uint_of_zeros (k : nat) (d : Decimal.uint) :
  NilEmpty.uint_of_string (zeros k ++ NilEmpty.string_of_uint d)
  = Some (Nat.iter k Decimal.D0 d).
Proof.
  induction k as [|k IH].
  - apply NilEmpty.usu.
  - rewrite zeros_app_unfold. simpl. by rewrite IH.
Qed.

Lemma of_uint_zeros (k : nat) (d : Decimal.uint) :
  Z.of_uint (Nat.iter k Decimal.D0 d) = Z.of_uint d.
Proof. induction k as [|k IH]; [reflexivity|exact IH]. Qed.

(** [str] of a natural number is never empty and starts with a digit. *)
Lemma string_of_uint_nonzero (d : Decimal.uint) :
  exists d', NilZero.string_of_uint d = NilEmpty.string_of_uint d'
             /\ Z.of_uint d' = Z.of_uint d
             /\ exists c s', NilEmpty.string_of_uint d' = String c s'
                             /\ Ascii.eqb c "-" = false /\ Ascii.eqb c "+" = false.
Proof.
  destruct d; [exists (Decimal.D0 Decimal.Nil)|eexists (_ _)..];
    (split; [reflexivity|split; [reflexivity|]]);
    eexists _, _; (split; [reflexivity|]); by split.
Qed.

Lemma int_of_padded (k : nat) (d : Decimal.uint) (c : ascii) (s' : string) :
  NilEmpty.string_of_uint d = String c s' -> Ascii.eqb c "-" = false ->
  NilZero.int_of_string (zeros k ++ NilEmpty.string_of_uint d)
  = Some (Decimal.Pos (Nat.iter k Decimal.D0 d)).
Proof.
  intros Hs Hc.
  pose proof (uint_of_zeros k d) as Hu.
  destruct k as [|k].
  - change (zeros 0 ++ NilEmpty.string_of_uint d) with (NilEmpty.string_of_uint d) in *.
    rewrite Hs in *. unfold NilZero.int_of_string, NilZero.uint_of_string.
    by rewrite Hc, Hu.
  - rewrite zeros_app_unfold in *.
    unfold NilZero.int_of_string, NilZero.uint_of_string.
    change (("0" =? "-")%char) with false. cbv iota. by rewrite Hu.
Qed.

(** The node number can be read back from its ['{:02d}'] form. *)
Lemma int_of_format_02d (i : Z) : int_of_str (format_02d i) = Some i.
Proof.
  unfold int_of_str, format_02d, str_of_Z.
  pose proof (DecimalZ.of_to i) as Hi.
  destruct (Z.to_int i) as [d|d]; cbn [Z.of_int NilZero.string_of_int] in Hi |- *;
    destruct (string_of_uint_nonzero d) as (d' & -> & Hd' & c & s' & Hs & Hc1 & Hc2).
  - unfold zfill. rewrite Hs, Hc1, Hc2. simpl orb. cbv iota. rewrite <- Hs.
    rewrite (int_of_padded _ d' c s' Hs Hc1). cbn [option_map Z.of_int].
    by rewrite of_uint_zeros, Hd', Hi.
  - unfold zfill. change (("-" =? "-")%char || ("-" =? "+")%char) with true.
    cbv iota.
    pose proof (int_of_padded (2 - String.length (String "-" (NilEmpty.string_of_uint d')))
                  d' c s' Hs Hc1) as Hp.
    unfold NilZero.int_of_string.
    change (("-" =? "-")%char) with true. cbv iota.
    unfold NilZero.int_of_string in Hp.
    destruct (zeros _ ++ NilEmpty.string_of_uint d') as [|c0 t] eqn:Ht; [discriminate|].
    destruct (Ascii.eqb c0 "-"); [destruct (NilZero.uint_of_string t); discriminate|].
    destruct (NilZero.uint_of_string (String c0 t)) as [u|]; [|discriminate].
    injection Hp as ->. cbn [option_map Z.of_int].
    by rewrite of_uint_zeros, Hd', Hi.
Qed.

Lemma format_02d_inj (i j : Z) : format_02d i = format_02d j -> i = j.
Proof.
  intros Heq. pose proof (int_of_format_02d i) as Hi.
  rewrite Heq, int_of_format_02d in Hi. by injection Hi.
Qed.

Lemma string_app_inv_head (a b c : string) : a ++ b = a ++ c -> b = c.
Proof.
  induction a as [|x a IH]; [done|].
  change (String x a ++ b) with (String x (a ++ b)).
  change (String x a ++ c) with (String x (a ++ c)).
  intros [= Heq]. by apply IH.
Qed.

Lemma string_app_inv_tail (a b c : string) : a ++ c = b ++ c -> a = b.
Proof.
  revert b. induction a as [|x a IH]; intros [|y b] Heq.
  - reflexivity.
  - apply (f_equal String.length) in Heq.
    rewrite !string_length_app in Heq. simpl in Heq. lia.
  - apply (f_equal String.length) in Heq.
    rewrite !string_length_app in Heq. simpl in Heq. lia.
  - change (String x a ++ c) with (String x (a ++ c)) in Heq.
    change (String y b ++ c) with (String y (b ++ c)) in Heq.
    injection Heq as -> Heq. f_equal. by apply IH.
Qed.

(** The names [get_node_name_fout] makes are unique to the node: for one
    run name, output name and scheduler, two different node numbers get
    two different job names and two different output file names. *)
Theorem node_names_are_node_unique
    (name fout hpc : string) (i j : Z) (n1 f1 n2 f2 : string) :
  CliGen.get_node_name_fout name fout i hpc = Returns (n1, f1) ->
  CliGen.get_node_name_fout name fout j hpc = Returns (n2, f2) ->
  i <> j ->
  n1 <> n2 /\ f1 <> f2.
Proof.
  unfold CliGen.get_node_name_fout.
  destruct (CliGen.name_limit hpc) as [lim|]; [|discriminate].
  intros [= <- <-] [= <- <-] Hij. split; intros Heq; apply Hij, format_02d_inj.
  - by apply string_app_inv_head in Heq.
  - apply string_app_inv_head, string_app_inv_head in Heq.
    by apply string_app_inv_tail in Heq.
Qed.

End NodeUniqueProperties.

Lemma node_names_are_node_unique_witness :
  "reV_ge03" <> "reV_ge12" /\ "gen_node03.h5" <> "gen_node12.h5".
Proof.
  apply (node_names_are_node_unique "reV_gen_2012" "gen.h5" "slurm" 3 12).
  - reflexivity.
  - reflexivity.
  - lia.
Defined.

(** ** The Result Table: what the [out] setter keeps *)

Section TableProperties.
Context `{SAM}.

(** Handing the [out] setter a list of Result Records never fails, and the
    table then holds exactly the sites it held before and the sites of the
    records: none is lost, none is invented. *)
Theorem set_out_list_covers_union
    (self : Gen.instance) (l : list (gmap Z output)) :
  exists self',
    Gen.set_out self (Gen.RList l) = Returns self'
    /\ forall k,
         is_Some ((Gen.out self').1 !! k)
         <-> is_Some ((Gen.out self).1 !! k)
             \/ exists x, x ∈ l /\ is_Some (x !! k).
Proof.
  eexists. split; [reflexivity|]. intros k.
  assert (Hold : (Gen.out self).1 = default ∅ (Gen._out self))
    by (unfold Gen.out; by destruct (Gen._out self)).
  rewrite Hold. simpl.
  rewrite update_lookup, unpack_futures_merged.
  destruct (merged_in_turn ∅ l !! k) as [v|] eqn:Hk.
  - split; [|by eexists].
    intros _. right. destruct (merged_lookup_Some l k v Hk) as (x & Hx & Hxk).
    exists x. by rewrite Hxk.
  - split; [by left|].
    intros [Ho|(x & Hx & Hxk)]; [exact Ho|].
    rewrite (merged_lookup_None l k Hk x Hx) in Hxk. by destruct Hxk.
Qed.

End TableProperties.

(** ** [sites_per_core]: how it fails *)

Section SitesPerCoreFailures.
Context `{SAM}.

Lemma first_speed_chunks_none (res : Resource) (names : list string) :
  Forall (fun n => contains "speed" n = false) names ->
  Gen.first_speed_chunks res names = Returns None.
Proof.
  intros Hn. rewrite <- (app_nil_r names).
  by rewrite first_speed_chunks_skip.
Qed.

Lemma h5_chunks_missing (h5 : list (string * option (list Z))) (dset : string) :
  dset ∉ h5.*1 -> h5_chunks h5 dset = Raises (KeyError dset).
Proof.
  induction h5 as [|[name c] h5 IH]; intros Hn; [reflexivity|]. simpl.
  rewrite fmap_cons, not_elem_of_cons in Hn. destruct Hn as [Hne Hn].
  destruct (String.eqb_spec name dset) as [->|_]; [done|]. by apply IH.
Qed.

(** For a resource file that opens, [sites_per_core] fails without a log
    record in three cases: a "wtk" file with no dataset whose name holds
    "speed" leaves the local [chunks] unbound ([UnboundLocalError]); an
    "nsrdb" file without the dataset "dni" is a [KeyError]; and a chunk
    shape of fewer than two dimensions is an [IndexError]. *)
Theorem sites_per_core_failure_modes
    (res_file : string) (res : Resource) (default : Z) (w : world) :
  resources w !! res_file = Some res ->
  (contains "wtk" (lower res_file) = true ->
   Forall (fun n => contains "speed" n = false) (dsets res) ->
   Gen.sites_per_core res_file default w
   = (Raises (UnboundLocalError "chunks"), w))
  /\ (contains "wtk" (lower res_file) = false ->
      contains "nsrdb" (lower res_file) = true ->
      "dni" ∉ dsets res ->
      Gen.sites_per_core res_file default w = (Raises (KeyError "dni"), w))
  /\ (forall c,
        contains "wtk" (lower res_file) = false ->
        contains "nsrdb" (lower res_file) = true ->
        h5_chunks (res_h5 res) "dni" = Returns (Some c) ->
        (length c < 2)%nat ->
        Gen.sites_per_core res_file default w
        = (Raises (IndexError "tuple index out of range"), w)).
Proof.
  intros Hres. split; [|split].
  - intros Hwtk Hnone.
    unfold Gen.sites_per_core, bind, open_resource, eval, raise.
    by rewrite Hres, Hwtk, first_speed_chunks_none.
  - intros Hwtk Hnsrdb Hdni.
    unfold Gen.sites_per_core, bind, open_resource, eval, raise.
    by rewrite Hres, Hwtk, Hnsrdb, h5_chunks_missing.
  - intros c Hwtk Hnsrdb Hdni Hlen.
    unfold Gen.sites_per_core, bind, open_resource, eval, raise, ret.
    rewrite Hres, Hwtk, Hnsrdb, Hdni.
    destruct c as [|c0 [|c1 c]]; simpl in *; [reflexivity|reflexivity|lia].
Qed.

(** A resource file that cannot be opened fails at the open, whatever its
    name: the name is only looked at once the file is open. *)
Theorem sites_per_core_opens_first
    (res_file : string) (default : Z) (w : world) :
  resources w !! res_file = None ->
  Gen.sites_per_core res_file default w = (Raises (OSError res_file), w).
Proof.
  intros Hres. unfold Gen.sites_per_core, bind, open_resource.
  by rewrite Hres.
Qed.

End SitesPerCoreFailures.

Lemma sites_per_core_failure_modes_witness :
  let res := mkResource [] [("temperature", None)] in
  let w := Fixture.world_of [] [("wtk_2012.h5", res)] in
  Gen.sites_per_core "wtk_2012.h5" 100 w = (Raises (UnboundLocalError "chunks"), w).
Proof.
  cbv zeta.
  apply (sites_per_core_failure_modes "wtk_2012.h5"
           (mkResource [] [("temperature", None)]) 100).
  - reflexivity.
  - reflexivity.
  - repeat constructor.
Defined.

(** ** [submit_from_config]: job names of a config run *)

Section SubmitProperties.
Context `{SAM} {requests : Type}.

Lemma drop_length (n : nat) :
  forall s, String.length (CliSubmit.drop n s) = String.length s - n.
Proof.
  induction n as [|n IH]; intros [|c s]; simpl; try lia. apply IH.
Qed.

Lemma last_chars_length (n : nat) (s : string) :
  String.length (CliSubmit.last_chars n s) = Nat.min n (String.length s).
Proof. unfold CliSubmit.last_chars. rewrite drop_length. lia. Qed.

Lemma take_all (n : nat) : forall s, String.length s <= n -> take n s = s.
Proof.
  induction n as [|n IH]; intros [|c s] Hlen; simpl in *; try reflexivity; try lia.
  f_equal. apply IH. lia.
Qed.

Lemma string_app_inj_length (a b c d : string) :
  a ++ b = c ++ d -> String.length a = String.length c -> a = c /\ b = d.
Proof.
  revert c. induction a as [|x a IH]; intros [|y c] Heq Hlen;
    simpl in Hlen; try lia.
  - by split.
  - change (String x a ++ b) with (String x (a ++ b)) in Heq.
    change (String y c ++ d) with (String y (c ++ d)) in Heq.
    injection Heq as -> Heq.
    destruct (IH c Heq ltac:(lia)) as [-> ->]. by split.
Qed.

(** For a run name without a year, dispatched to a cluster, the job name
    left in [ctx.obj] is the cut run name, "_" and the last two characters
    of the year. *)
Lemma submit_sets_name (ctx : gmap string CliSubmit.ctx_value)
    (name year : string) (config : CliSubmit.GenConfig requests)
    (verbose : bool) (i : nat) (rf opt hpc : string) (cut lim : nat) :
  cluster_option opt hpc cut lim ->
  CliSubmit.option (CliSubmit.execution_control config) = opt ->
  CliSubmit.re_match_year name = false ->
  CliSubmit.res_files config !! i = Some rf ->
  contains year rf = true ->
  (CliSubmit.submit_from_config ctx name year config verbose i).2 !! "NAME"
  = Some (CliSubmit.VStr (take cut name ++ "_" ++ CliSubmit.last_chars 2 year)).
Proof.
  intros Hc Hopt Hname Hrf Hyear. unfold CliSubmit.submit_from_config.
  rewrite Hrf, Hname, Hyear, Hopt.
  destruct Hc; simpl; by rewrite lookup_insert_eq.
Qed.

Lemma cluster_name_fits (name year opt hpc : string) (cut lim : nat) :
  cluster_option opt hpc cut lim ->
  let n := take cut name ++ "_" ++ CliSubmit.last_chars 2 year in
  exists l, CliGen.name_limit hpc = Some l /\ take l n = n /\ l + 2 = lim.
Proof.
  intros Hc n.
  assert (Hlen : String.length n <= cut + 3).
  { unfold n. rewrite !string_length_app, last_chars_length.
    pose proof (take_length cut name).
    change (String.length "_") with 1. lia. }
  destruct Hc; eexists; (split; [reflexivity|]);
    (split; [apply take_all; lia|reflexivity]).
Qed.

(** A config run whose name holds no year, sent to a cluster: the job name
    left for the cluster command is the run name cut to 11 characters (pbs)
    or 3 (slurm), "_" and the last two characters of the year, and below
    node 100 the node's job name is that name followed by the two digits of
    the node number, uncut, within the scheduler's 16 or 8 characters. *)
Theorem config_job_names_fit_the_scheduler
    (ctx : gmap string CliSubmit.ctx_value)
    (name year : string) (config : CliSubmit.GenConfig requests)
    (verbose : bool) (i : nat) (rf opt hpc : string) (cut lim : nat)
    (fout : string) (node : Z) :
  cluster_option opt hpc cut lim ->
  CliSubmit.option (CliSubmit.execution_control config) = opt ->
  CliSubmit.re_match_year name = false ->
  CliSubmit.res_files config !! i = Some rf ->
  contains year rf = true ->
  (0 <= node < 100)%Z ->
  exists n f,
    (CliSubmit.submit_from_config ctx name year config verbose i).2 !! "NAME"
    = Some (CliSubmit.VStr n)
    /\ n = take cut name ++ "_" ++ CliSubmit.last_chars 2 year
    /\ CliGen.get_node_name_fout n fout node hpc
       = Returns (n ++ two_digits node, f)
    /\ String.length (n ++ two_digits node) <= lim.
Proof.
  intros Hc Hopt Hname Hrf Hyear Hnode.
  destruct (cluster_name_fits name year opt hpc cut lim Hc)
    as (l & Hl & Htake & Hlim).
  eexists _, _. split; [by eapply submit_sets_name|].
  split; [reflexivity|].
  unfold CliGen.get_node_name_fout.
  rewrite Hl, Htake, (format_02d_below_100 node Hnode).
  split; [reflexivity|].
  rewrite string_length_app, <- Htake.
  pose proof (take_length l (take cut name ++ "_" ++ CliSubmit.last_chars 2 year)).
  change (String.length (two_digits node)) with 2. lia.
Qed.

(** The job names of a config run tell years and nodes apart: for a run
    name without a year sent to a cluster, two years whose last two
    characters differ, or two different node numbers, never get the same
    job name. *)
Theorem config_job_names_differ_by_year_and_node
    (ctx1 ctx2 : gmap string CliSubmit.ctx_value)
    (name y1 y2 : string) (config : CliSubmit.GenConfig requests)
    (verbose : bool) (k1 k2 : nat) (rf1 rf2 opt hpc : string) (cut lim : nat)
    (fout1 fout2 a b n1 f1 n2 f2 : string) (i j : Z) :
  cluster_option opt hpc cut lim ->
  CliSubmit.option (CliSubmit.execution_control config) = opt ->
  CliSubmit.re_match_year name = false ->
  CliSubmit.res_files config !! k1 = Some rf1 -> contains y1 rf1 = true ->
  CliSubmit.res_files config !! k2 = Some rf2 -> contains y2 rf2 = true ->
  2 <= String.length y1 -> 2 <= String.length y2 ->
  (CliSubmit.submit_from_config ctx1 name y1 config verbose k1).2 !! "NAME"
  = Some (CliSubmit.VStr a) ->
  (CliSubmit.submit_from_config ctx2 name y2 config verbose k2).2 !! "NAME"
  = Some (CliSubmit.VStr b) ->
  CliGen.get_node_name_fout a fout1 i hpc = Returns (n1, f1) ->
  CliGen.get_node_name_fout b fout2 j hpc = Returns (n2, f2) ->
  CliSubmit.last_chars 2 y1 <> CliSubmit.last_chars 2 y2 \/ i <> j ->
  n1 <> n2.
Proof.
  intros Hc Hopt Hname Hrf1 Hy1 Hrf2 Hy2 Hlen1 Hlen2 Ha Hb Hn1 Hn2 Hdiff Heq.
  rewrite (submit_sets_name ctx1 name y1 config verbose k1 rf1 opt hpc cut lim)
    in Ha by done.
  rewrite (submit_sets_name ctx2 name y2 config verbose k2 rf2 opt hpc cut lim)
    in Hb by done.
  injection Ha as <-. injection Hb as <-.
  destruct (cluster_name_fits name y1 opt hpc cut lim Hc) as (l & Hl & Ht1 & _).
  destruct (cluster_name_fits name y2 opt hpc cut lim Hc) as (l' & Hl' & Ht2 & _).
  rewrite Hl in Hl'. injection Hl' as <-.
  unfold CliGen.get_node_name_fout in Hn1, Hn2. rewrite Hl in Hn1, Hn2.
  rewrite Ht1 in Hn1. rewrite Ht2 in Hn2.
  injection Hn1 as <- _. injection Hn2 as <- _.
  rewrite !string_app_assoc in Heq.
  apply string_app_inv_head, string_app_inv_head in Heq.
  apply string_app_inj_length in Heq as [Hyy Hij];
    [|rewrite !last_chars_length; lia].
  destruct Hdiff as [Hd|Hd]; [done|]. by apply Hd, format_02d_inj.
Qed.

(** [submit_from_config] hands a command on exactly when the resource file
    of the year is there, its name holds the year, and the execution
    option is one of the three it knows (with a worker count other than
    zero for "local").  The year is checked first: a resource file name
    without the year is an [Exception] whatever the option, and an option
    it does not know is a [ConfigError] only once the year has passed. *)
Theorem submit_dispatches_iff
    (ctx : gmap string CliSubmit.ctx_value)
    (name year : string) (config : CliSubmit.GenConfig requests)
    (verbose : bool) (i : nat) :
  let ec := CliSubmit.execution_control config in
  let r := (CliSubmit.submit_from_config ctx name year config verbose i).1 in
  ((exists inv, r = CliSubmit.Done inv)
   <-> exists rf,
         CliSubmit.res_files config !! i = Some rf
         /\ contains year rf = true
         /\ ((CliSubmit.option ec = "local" /\ CliSubmit.ppn ec <> 0%Z)
             \/ CliSubmit.option ec = "peregrine"
             \/ CliSubmit.option ec = "eagle"))
  /\ (forall rf,
        CliSubmit.res_files config !! i = Some rf ->
        contains year rf = false ->
        exists msg, r = CliSubmit.Fail (CliSubmit.PyExn (Exception msg)))
  /\ (forall rf,
        CliSubmit.res_files config !! i = Some rf ->
        contains year rf = true ->
        CliSubmit.option ec <> "local" ->
        CliSubmit.option ec <> "peregrine" ->
        CliSubmit.option ec <> "eagle" ->
        exists msg, r = CliSubmit.Fail (CliSubmit.ConfigError msg)).
Proof.
  cbv zeta. unfold CliSubmit.submit_from_config.
  destruct (CliSubmit.res_files config !! i) as [rf|] eqn:Hrf;
    [destruct (contains year rf) eqn:Hyear; simpl;
     [destruct (String.eqb_spec
                  (CliSubmit.option (CliSubmit.execution_control config)) "local")
        as [Hl|Hl];
      [destruct (Z.eqb_spec (CliSubmit.ppn (CliSubmit.execution_control config)) 0)
         as [Hp|Hp]
      |destruct (String.eqb_spec
                   (CliSubmit.option (CliSubmit.execution_control config))
                   "peregrine") as [Hp|Hp];
       [|destruct (String.eqb_spec
                     (CliSubmit.option (CliSubmit.execution_control config))
                     "eagle") as [He|He]]]; simpl|]|];
    (split; [split|split]);
    try (intros [inv Hinv]; discriminate);
    try (intros rf' Hrf'; injection Hrf' as <-);
    intros; try congruence; try done; try (by eexists);
    try (exists rf; by auto 6);
    repeat match goal with
           | Hx : exists _, _ |- _ => destruct Hx as [? Hx]
           | Hx : _ /\ _ |- _ => destruct Hx as [? ?]
           | Hx : _ \/ _ |- _ => destruct Hx as [?|?]
           end; congruence.
Qed.

End SubmitProperties.

(** The run "reV_generation_run" for 2012 on Peregrine, node 7. *)
Lemma config_job_names_fit_the_scheduler_witness :
  let config :=
    CliSubmit.mkGenConfig ["/data/wtk_2012.h5"] 100 "./out"
      (CliSubmit.mkExecutionControl "peregrine" 36 4 tt) in
  exists n f,
    (CliSubmit.submit_from_config ∅ "reV_generation_run" "2012" config false 0).2
      !! "NAME" = Some (CliSubmit.VStr n)
    /\ n = take 11 "reV_generation_run" ++ "_" ++ CliSubmit.last_chars 2 "2012"
    /\ CliGen.get_node_name_fout n "gen.h5" 7 "pbs"
       = Returns (n ++ two_digits 7, f)
    /\ String.length (n ++ two_digits 7) <= 16.
Proof.
  cbv zeta.
  apply (config_job_names_fit_the_scheduler ∅ "reV_generation_run" "2012" _
           false 0 "/data/wtk_2012.h5" "peregrine" "pbs" 11 16 "gen.h5" 7).
  - constructor.
  - reflexivity.
  - reflexivity.
  - reflexivity.
  - reflexivity.
  - lia.
Defined.

(** The same run for 2012 and 2013 on Eagle, node 7 of each. *)
Lemma config_job_names_differ_by_year_and_node_witness :
  "reV_1207" <> "reV_1307".
Proof.
  apply (config_job_names_differ_by_year_and_node ∅ ∅ "reV_generation_run"
           "2012" "2013"
           (CliSubmit.mkGenConfig ["/data/wtk_2012.h5"; "/data/wtk_2013.h5"]
              100 "./out" (CliSubmit.mkExecutionControl "eagle" 36 4 tt))
           false 0 1 "/data/wtk_2012.h5" "/data/wtk_2013.h5" "eagle" "slurm" 3 8
           "gen_2012.h5" "gen_2013.h5" "reV_12" "reV_13"
           "reV_1207" "gen_2012_node07.h5" "reV_1307" "gen_2013_node07.h5" 7 7).
  - constructor.
  - reflexivity.
  - reflexivity.
  - reflexivity.
  - reflexivity.
  - reflexivity.
  - reflexivity.
  - simpl. lia.
  - simpl. lia.
  - vm_compute. reflexivity.
  - vm_compute. reflexivity.
  - reflexivity.
  - reflexivity.
  - left. discriminate.
Defined.

(** ** [rev_logger.py]: the logging attributes *)

Section LoggingAttributesProperties.

Lemma set_attrs_no_log_file (attributes : list (string * RevLogger.value)) :
  forall d, d !! "log_file" = None ->
            (RevLogger.set_attrs d attributes).2 !! "log_file" = None.
Proof.
  induction attributes as [|[attr v] rest IH]; intros d Hd; [exact Hd|].
  simpl. destruct (String.eqb_spec attr "log_file") as [->|Hne].
  - by rewrite Hd.
  - apply IH. by rewrite lookup_insert_ne.
Qed.

Lemma set_attrs_raises (attributes : list (string * RevLogger.value)) :
  forall d, d !! "log_file" = None -> "log_file" ∈ attributes.*1 ->
            (RevLogger.set_attrs d attributes).1 = Raises (KeyError "log_file").
Proof.
  induction attributes as [|[attr v] rest IH]; intros d Hd Hin.
  - by apply elem_of_nil in Hin.
  - simpl. destruct (String.eqb_spec attr "log_file") as [->|Hne].
    + by rewrite Hd.
    + rewrite fmap_cons in Hin. apply elem_of_cons in Hin as [Heq|Hin]; [done|].
      apply IH; [|exact Hin]. by rewrite lookup_insert_ne.
Qed.

Lemma set_attrs_plain (attributes : list (string * RevLogger.value)) :
  forall d, "log_file" ∉ attributes.*1 ->
            RevLogger.set_attrs d attributes = (Returns tt, assigned d attributes).
Proof.
  induction attributes as [|[attr v] rest IH]; intros d Hn; [reflexivity|].
  rewrite fmap_cons, not_elem_of_cons in Hn. destruct Hn as [Hne Hn].
  simpl in *. destruct (String.eqb_spec attr "log_file") as [->|_]; [done|].
  by apply IH.
Qed.

Lemma setitem_no_log_file (reg : gmap string (gmap string RevLogger.value))
    (name : string) (attributes : list (string * RevLogger.value)) :
  no_log_file reg -> no_log_file (RevLogger.setitem reg name attributes).2.
Proof.
  intros Hreg. unfold RevLogger.setitem.
  destruct (reg !! name) as [stored|] eqn:Hname.
  - pose proof (set_attrs_no_log_file attributes stored (Hreg _ _ Hname)) as Hs.
    destruct (RevLogger.set_attrs stored attributes) as [r d]. simpl in *.
    intros n d' Hn. destruct (decide (n = name)) as [->|Hne].
    + rewrite lookup_insert_eq in Hn. by injection Hn as <-.
    + rewrite lookup_insert_ne in Hn by done. by eapply Hreg.
  - pose proof (set_attrs_no_log_file attributes ∅ (lookup_empty _)) as Hs.
    destruct (RevLogger.set_attrs ∅ attributes) as [[[]|e] d]; simpl in *;
      [|exact Hreg].
    intros n d' Hn. destruct (decide (n = name)) as [->|Hne].
    + rewrite lookup_insert_eq in Hn. by injection Hn as <-.
    + rewrite lookup_insert_ne in Hn by done. by eapply Hreg.
Qed.

Lemma after_setitems_no_log_file
    (calls : list (string * list (string * RevLogger.value))) :
  forall reg, no_log_file reg -> no_log_file (after_setitems reg calls).
Proof.
  induction calls as [|[name attributes] calls IH]; intros reg Hreg; [exact Hreg|].
  apply IH. by apply setitem_no_log_file.
Qed.

Lemma setitem_raises (reg : gmap string (gmap string RevLogger.value))
    (name : string) (attributes : list (string * RevLogger.value)) :
  no_log_file reg -> "log_file" ∈ attributes.*1 ->
  (RevLogger.setitem reg name attributes).1 = Raises (KeyError "log_file").
Proof.
  intros Hreg Hin. unfold RevLogger.setitem.
  destruct (reg !! name) as [stored|] eqn:Hname.
  - pose proof (set_attrs_raises attributes stored (Hreg _ _ Hname) Hin) as Hs.
    by destruct (RevLogger.set_attrs stored attributes) as [r d].
  - pose proof (set_attrs_raises attributes ∅ (lookup_empty _) Hin) as Hs.
    destruct (RevLogger.set_attrs ∅ attributes) as [[[]|e] d]; simpl in *;
      congruence.
Qed.

Lemma after_setitems_from_empty
    (calls : list (string * list (string * RevLogger.value))) :
  no_log_file (after_setitems ∅ calls).
Proof.
  apply after_setitems_no_log_file. intros n d Hn.
  by rewrite lookup_empty in Hn.
Qed.

(** A "log_file" attribute can never be registered.  Starting from the
    empty [LoggingAttributes], whatever item assignments are made, no
    logger ever has a "log_file" attribute, and every assignment whose
    attributes name "log_file" raises [KeyError]: the loop reads
    [log_attrs['log_file']] before anything has stored it. *)
Theorem log_file_is_never_registered
    (calls : list (string * list (string * RevLogger.value)))
    (name : string) (attributes : list (string * RevLogger.value)) :
  let reg := after_setitems ∅ calls in
  no_log_file reg
  /\ ("log_file" ∈ attributes.*1 ->
      (RevLogger.setitem reg name attributes).1 = Raises (KeyError "log_file")).
Proof.
  cbv zeta. pose proof (after_setitems_from_empty calls) as Hreg.
  split; [exact Hreg|]. intros Hin. by apply setitem_raises.
Qed.

End LoggingAttributesProperties.

Section LoggerProperties.
Context `{RevLogger.Logging}.

Lemma set_attrs_app_plain (pre rest : list (string * RevLogger.value)) :
  forall d, "log_file" ∉ pre.*1 ->
            RevLogger.set_attrs d (pre ++ rest)%list
            = RevLogger.set_attrs (assigned d pre) rest.
Proof.
  induction pre as [|[attr v] pre IH]; intros d Hn; [reflexivity|].
  rewrite fmap_cons, not_elem_of_cons in Hn. destruct Hn as [Hne Hn].
  simpl in *. destruct (String.eqb_spec attr "log_file") as [->|_]; [done|].
  by apply IH.
Qed.

Lemma assigned_no_log_file (pre : list (string * RevLogger.value))
    (d : gmap string RevLogger.value) :
  d !! "log_file" = None -> "log_file" ∉ pre.*1 ->
  assigned d pre !! "log_file" = None.
Proof.
  intros Hd Hn. pose proof (set_attrs_no_log_file pre d Hd) as Hs.
  by rewrite set_attrs_plain in Hs.
Qed.

(** Item assignment on logging attributes that hold no "log_file" (all
    there ever are).  Attributes that do not name "log_file" are merged
    into those of the logger, later ones replacing earlier ones, and the
    call returns.  Attributes that name it raise [KeyError]; a logger that
    was registered keeps the attributes listed before "log_file", since
    the loop worked on its stored dict, and a new logger is not
    registered. *)
Theorem item_assignment_merges_or_fails_midway
    (reg : gmap string (gmap string RevLogger.value))
    (name : string) (attributes : list (string * RevLogger.value)) :
  no_log_file reg ->
  ("log_file" ∉ attributes.*1 ->
   RevLogger.setitem reg name attributes
   = (Returns tt,
      <[name := assigned (RevLogger.getitem reg name) attributes]> reg))
  /\ (forall pre v post,
        attributes = (pre ++ ("log_file", v) :: post)%list ->
        "log_file" ∉ pre.*1 ->
        RevLogger.setitem reg name attributes
        = (Raises (KeyError "log_file"),
           match reg !! name with
           | Some stored => <[name := assigned stored pre]> reg
           | None => reg
           end)).
Proof.
  intros Hreg. split.
  - intros Hn. unfold RevLogger.setitem, RevLogger.getitem.
    destruct (reg !! name) as [stored|]; simpl; by rewrite set_attrs_plain.
  - intros pre v post -> Hn. unfold RevLogger.setitem.
    destruct (reg !! name) as [stored|] eqn:Hname;
      rewrite set_attrs_app_plain by done; simpl.
    + by rewrite (assigned_no_log_file pre stored (Hreg _ _ Hname) Hn).
    + by rewrite (assigned_no_log_file pre ∅ (lookup_empty _) Hn).
Qed.

Lemma filter_none {A} (P : A -> Prop) `{forall x, Decision (P x)} (l : list A) :
  (forall x, x ∈ l -> ~ P x) -> filter P l = [].
Proof.
  induction l as [|x l IH]; intros Hl; [reflexivity|].
  rewrite filter_cons_False by (apply Hl; by left).
  apply IH. intros y Hy. apply Hl. by right.
Qed.

Lemma setup_logger_registers
    (loggers loggers' : gmap string RevLogger.logger) (logger_name : string)
    (log_level log_file log_format : RevLogger.value) (lg : RevLogger.logger) :
  RevLogger.setup_logger loggers logger_name log_level log_file log_format
  = (Returns lg, loggers') ->
  loggers' !! logger_name = Some lg.
Proof.
  unfold RevLogger.setup_logger.
  destruct (RevLogger.LOG_LEVEL_getitem log_level) as [lv|e]; [|discriminate].
  destruct (match log_file with
            | RevLogger.VList l => RevLogger.get_handlers l log_format
            | _ => RevLogger.get_handlers [log_file] log_format
            end) as [hs|e]; [|discriminate].
  intros [= <- <-]. by rewrite lookup_insert_eq.
Qed.

(** Setting a logger up again with the same arguments changes nothing:
    every handler the second call makes has the [str] of a handler that is
    attached by then, so none is added, and the level is the same. *)
Theorem setup_logger_again_adds_nothing
    (loggers loggers' : gmap string RevLogger.logger) (logger_name : string)
    (log_level log_file log_format : RevLogger.value) (lg : RevLogger.logger) :
  RevLogger.setup_logger loggers logger_name log_level log_file log_format
  = (Returns lg, loggers') ->
  RevLogger.setup_logger loggers' logger_name log_level log_file log_format
  = (Returns lg, loggers')
  /\ loggers' !! logger_name = Some lg.
Proof.
  intros Hrun. pose proof (setup_logger_registers _ _ _ _ _ _ _ Hrun) as Hreg.
  split; [|exact Hreg].
  unfold RevLogger.setup_logger in *.
  assert (Hget : RevLogger.getLogger loggers' logger_name = lg)
    by (unfold RevLogger.getLogger; by rewrite Hreg).
  rewrite Hget.
  destruct (RevLogger.LOG_LEVEL_getitem log_level) as [lv|e]; [|discriminate].
  destruct (match log_file with
            | RevLogger.VList l => RevLogger.get_handlers l log_format
            | _ => RevLogger.get_handlers [log_file] log_format
            end) as [hs|e]; [|discriminate].
  injection Hrun as Hlg Hst.
  set (old := RevLogger.handlers (RevLogger.getLogger loggers logger_name)) in *.
  assert (Hnone : filter (fun h => RevLogger.handler_str h
                                   ∉ map RevLogger.handler_str (RevLogger.handlers lg))
                         hs = []).
  { apply filter_none. intros h Hh Hnot. apply Hnot.
    rewrite <- Hlg. simpl. rewrite map_app. apply elem_of_app.
    destruct (decide (RevLogger.handler_str h
                      ∈ map RevLogger.handler_str old)) as [Hin|Hout];
      [by left|right].
    apply (list_elem_of_fmap_2 RevLogger.handler_str).
    apply list_elem_of_filter. by split. }
  rewrite Hnone, app_nil_r.
  assert (Hsame : RevLogger.mkLogger (Some lv) (RevLogger.handlers lg) = lg)
    by (by rewrite <- Hlg).
  simpl. rewrite Hsame, !insert_insert_eq. by rewrite insert_id.
Qed.

(** The module's [init_logger] handed a "log_file" always fails, and only
    after it has set the logger up: on logging attributes reached by item
    assignments, when [setup_logger] returns the logger configured, the
    call still ends in [KeyError] from storing the attributes, the logger
    stays configured, and still no "log_file" attribute is stored. *)
Theorem init_logger_with_log_file_raises_after_setup
    (calls : list (string * list (string * RevLogger.value)))
    (loggers loggers' : gmap string RevLogger.logger) (logger_name : string)
    (kwargs : list (string * RevLogger.value)) (lg : RevLogger.logger) :
  "log_file" ∈ kwargs.*1 ->
  RevLogger.setup_logger_kwargs loggers logger_name kwargs = (Returns lg, loggers') ->
  exists reg',
    RevLogger.init_logger loggers (after_setitems ∅ calls) logger_name kwargs
    = (Raises (KeyError "log_file"), (loggers', reg'))
    /\ loggers' !! logger_name = Some lg
    /\ no_log_file reg'.
Proof.
  intros Hin Hsetup.
  pose proof (after_setitems_from_empty calls) as Hreg.
  unfold RevLogger.init_logger. rewrite Hsetup.
  pose proof (setitem_raises _ logger_name kwargs Hreg Hin) as Hr.
  pose proof (setitem_no_log_file _ logger_name kwargs Hreg) as Hkeep.
  destruct (RevLogger.setitem (after_setitems ∅ calls) logger_name kwargs)
    as [r reg'] eqn:Hset. simpl in Hr, Hkeep. subst r.
  exists reg'. split; [reflexivity|]. split; [|exact Hkeep].
  unfold RevLogger.setup_logger_kwargs in Hsetup.
  destruct (List.find _ kwargs); [discriminate|].
  by eapply setup_logger_registers.
Qed.

End LoggerProperties.

(** The logger "reV", registered with a level, is assigned a new level, a
    log file and a format: the call raises, the level has changed, the
    format has not been stored. *)
Lemma item_assignment_merges_or_fails_midway_witness :
  let reg : gmap string (gmap string RevLogger.value) :=
    {["reV" := {["log_level" := RevLogger.VStr "INFO"]}]} in
  RevLogger.setitem reg "reV"
    [("log_level", RevLogger.VStr "DEBUG"); ("log_file", RevLogger.VStr "a.log");
     ("log_format", RevLogger.VStr "f")]
  = (Raises (KeyError "log_file"),
     {["reV" := {["log_level" := RevLogger.VStr "DEBUG"]}]}).
Proof.
  cbv zeta.
  assert (Hreg : no_log_file
            ({["reV" := {["log_level" := RevLogger.VStr "INFO"]}]}
             : gmap string (gmap string RevLogger.value))).
  { intros name d Hn. apply lookup_singleton_Some in Hn as [_ <-].
    reflexivity. }
  rewrite (proj2 (item_assignment_merges_or_fails_midway _ "reV"
                    [("log_level", RevLogger.VStr "DEBUG");
                     ("log_file", RevLogger.VStr "a.log");
                     ("log_format", RevLogger.VStr "f")] Hreg)
             [("log_level", RevLogger.VStr "DEBUG")] (RevLogger.VStr "a.log")
             [("log_format", RevLogger.VStr "f")] eq_refl).
  - vm_compute. reflexivity.
  - vm_compute. intros Hin. apply list_elem_of_singleton in Hin. discriminate.
Defined.

Lemma setup_logger_again_adds_nothing_witness :
  let st := (RevLogger.setup_logger LogFixture.no_loggers "reV"
               (RevLogger.VStr "DEBUG") (RevLogger.VStr "a.log")
               (RevLogger.VStr RevLogger.FORMAT)).2 in
  let lg := RevLogger.mkLogger (Some 10%Z)
              [LogFixture.file_handler "a.log" RevLogger.FORMAT] in
  RevLogger.setup_logger st "reV" (RevLogger.VStr "DEBUG")
    (RevLogger.VStr "a.log") (RevLogger.VStr RevLogger.FORMAT)
  = (Returns lg, st)
  /\ st !! "reV" = Some lg.
Proof.
  cbv zeta.
  apply (setup_logger_again_adds_nothing LogFixture.no_loggers).
  vm_compute. reflexivity.
Defined.

(** [init_logger('reV', log_level='DEBUG', log_file='a.log')] after
    [REV_LOGGERS['reV'] = {'log_level': 'INFO'}]. *)
Lemma init_logger_with_log_file_raises_after_setup_witness :
  let kwargs := [("log_level", RevLogger.VStr "DEBUG");
                 ("log_file", RevLogger.VStr "a.log")] in
  let calls := [("reV", [("log_level", RevLogger.VStr "INFO")])] in
  let lg := RevLogger.mkLogger (Some 10%Z)
              [LogFixture.file_handler "a.log" RevLogger.FORMAT] in
  let loggers' :=
    (RevLogger.setup_logger_kwargs LogFixture.no_loggers "reV" kwargs).2 in
  exists reg',
    RevLogger.init_logger LogFixture.no_loggers (after_setitems ∅ calls)
      "reV" kwargs
    = (Raises (KeyError "log_file"), (loggers', reg'))
    /\ loggers' !! "reV" = Some lg
    /\ no_log_file reg'.
Proof.
  cbv zeta.
  apply (init_logger_with_log_file_raises_after_setup
           [("reV", [("log_level", RevLogger.VStr "INFO")])]
           LogFixture.no_loggers).
  - apply list_elem_of_further, list_elem_of_here.
  - vm_compute. reflexivity.
Defined.

(** ** [handle_fout]: which tag it takes *)

Section LowestFreeTag.
Context `{SAM}.

Lemma tag_round_ok_below_1000 (n : Z) : (0 <= n < 1000)%Z -> tag_round_ok n = true.
Proof.
  intros Hn.
  assert (Hall : forallb (fun k => tag_round_ok (Z.of_nat k)) (seq 0 1000) = true)
    by (vm_compute; reflexivity).
  rewrite forallb_forall in Hall.
  specialize (Hall (Z.to_nat n)). rewrite Z2Nat.id in Hall by lia.
  apply Hall, in_seq. lia.
Qed.

Lemma re_match_tag_skip (stem rest g : string) :
  no_newline stem = true -> re_match_tag rest = Some g ->
  re_match_tag (stem ++ rest) = Some g.
Proof.
  intros Hnl Hg. induction stem as [|c stem IH]; [exact Hg|].
  change (String c stem ++ rest) with (String c (stem ++ rest)).
  rewrite re_match_tag_unfold.
  simpl in Hnl. apply andb_true_iff in Hnl as [Hc Hnl].
  apply negb_true_iff in Hc. by rewrite Hc, IH.
Qed.

Lemma occurs_before_cons (old : string) (c : ascii) (stem rest : string) :
  occurs_before old (String c stem) rest
  = String.prefix old (String c (stem ++ rest)) || occurs_before old stem rest.
Proof. reflexivity. Qed.

Lemma replace_from_skip (old new stem rest : string) :
  occurs_before old stem rest = false ->
  replace_from old new 0 (stem ++ rest) = stem ++ replace_from old new 0 rest.
Proof.
  induction stem as [|c stem IH]; [reflexivity|].
  intros Hocc. rewrite occurs_before_cons in Hocc.
  apply orb_false_iff in Hocc as [Hp Hocc].
  change (String c stem ++ rest) with (String c (stem ++ rest)).
  rewrite replace_from_unfold, Hp, IH by done. reflexivity.
Qed.

Lemma prefix_cons (a b : ascii) (s1 s2 : string) :
  String.prefix (String a s1) (String b s2)
  = if ascii_dec a b then String.prefix s1 s2 else false.
Proof. reflexivity. Qed.

Lemma contains_cons (sub : string) (c : ascii) (s : string) :
  contains sub (String c s) = String.prefix sub (String c s) || contains sub s.
Proof. reflexivity. Qed.

(** A stem without "_x" holds no tag that starts inside it, also when a
    tag follows it. *)
Lemma occurs_before_tag (g r stem : string) :
  contains "_x" stem = false ->
  occurs_before ("_x" ++ g) stem ("_x" ++ r) = false.
Proof.
  induction stem as [|c stem IH]; [reflexivity|].
  rewrite contains_cons. intros Hc. apply orb_false_iff in Hc as [Hp Hc].
  rewrite occurs_before_cons, (IH Hc), orb_false_r.
  change ("_x" ++ g) with (String "_" (String "x" g)).
  rewrite prefix_cons. destruct (ascii_dec "_" c) as [<-|_]; [|reflexivity].
  destruct stem as [|c2 stem]; [reflexivity|].
  change (String c2 stem ++ "_x" ++ r) with (String c2 (stem ++ "_x" ++ r)).
  rewrite prefix_cons. destruct (ascii_dec "x" c2) as [<-|_]; [|reflexivity].
  exfalso. clear -Hp. destruct stem; vm_compute in Hp; discriminate Hp.
Qed.

(** A stem without ".h5" holds no ".h5" that starts inside it, also when
    ".h5" follows it. *)
Lemma occurs_before_h5 (stem : string) :
  contains ".h5" stem = false -> occurs_before ".h5" stem ".h5" = false.
Proof.
  induction stem as [|c stem IH]; [reflexivity|].
  rewrite contains_cons. intros Hc. apply orb_false_iff in Hc as [Hp Hc].
  rewrite occurs_before_cons, (IH Hc), orb_false_r.
  rewrite prefix_cons. destruct (ascii_dec "." c) as [<-|_]; [|reflexivity].
  destruct stem as [|c2 stem]; [reflexivity|].
  change (String c2 stem ++ ".h5") with (String c2 (stem ++ ".h5")).
  rewrite prefix_cons. destruct (ascii_dec "h" c2) as [<-|_]; [|reflexivity].
  destruct stem as [|c3 stem]; [reflexivity|].
  change (String c3 stem ++ ".h5") with (String c3 (stem ++ ".h5")).
  rewrite prefix_cons. destruct (ascii_dec "5" c3) as [<-|_]; [|reflexivity].
  exfalso. clear -Hp. destruct stem; vm_compute in Hp; discriminate Hp.
Qed.

Lemma replace_tag_unfold (g new s : string) :
  replace ("_x" ++ g) new s = replace_from ("_x" ++ g) new 0 s.
Proof. reflexivity. Qed.

(** One round of [get_unique_fout] on a tagged path: the tag at the end is
    the one found, and the path with the next tag is the one tried next. *)
Lemma tagged_round (stem : string) (k : Z) :
  no_newline stem = true -> contains "_x" stem = false -> (0 <= k < 1000)%Z ->
  re_match_tag (tagged stem k) = Some (tag k)
  /\ replace ("_x" ++ tag k) (next_tag (int_of_digits (tag k))) (tagged stem k)
     = tagged stem (k + 1).
Proof.
  intros Hnl Hx Hk. pose proof (tag_round_ok_below_1000 k Hk) as Hok.
  unfold tag_round_ok in Hok.
  apply andb_true_iff in Hok as [Hok Hrep].
  apply andb_true_iff in Hok as [Hre Hint].
  apply Z.eqb_eq in Hint. apply String.eqb_eq in Hrep.
  destruct (re_match_tag ("_x" ++ tag k ++ ".h5")) as [g|] eqn:Hg; [|discriminate].
  apply String.eqb_eq in Hre. subst g.
  split.
  - unfold tagged. by apply re_match_tag_skip.
  - rewrite Hint, replace_tag_unfold. unfold tagged.
    rewrite replace_from_skip by (by apply occurs_before_tag).
    by rewrite Hrep.
Qed.

Lemma get_unique_fout_at_lowest (stem : string) (n : Z) (w : world) :
  no_newline stem = true -> contains "_x" stem = false ->
  (0 <= n < 1000)%Z -> tagged stem n ∉ fs w ->
  forall (depth : nat) (k : Z),
    (0 <= k <= n)%Z ->
    (forall m, (k <= m < n)%Z -> tagged stem m ∈ fs w) ->
    (Z.to_nat (n - k) < depth)%nat ->
    Gen.get_unique_fout_at depth (tagged stem k) w = (Returns (tagged stem n), w).
Proof.
  intros Hnl Hx Hn Hfree.
  induction depth as [|depth IH]; intros k Hk Htaken Hdepth; [lia|].
  rewrite get_unique_fout_at_unfold.
  destruct (decide (k = n)) as [->|Hne].
  - by rewrite bool_decide_eq_false_2.
  - rewrite bool_decide_eq_true_2 by (apply Htaken; lia).
    destruct (tagged_round stem k Hnl Hx ltac:(lia)) as [-> ->].
    apply IH; [lia| |lia]. intros m Hm. apply Htaken. lia.
Qed.

(** [handle_fout] takes the lowest free tag.  When the path it has in mind
    is [stem ++ ".h5"], the stem holding no newline, no "_x" and no ".h5",
    and the tags 000 up to [n - 1] of that path are taken while tag [n],
    below 1000, is free, it returns the path with tag [n].  The output
    directory, if one is given, is there already, and the call depth left
    lets the search pass the taken tags. *)
Theorem handle_fout_takes_lowest_free_tag
    (fout : string) (dirout : option string) (stem : string) (n : Z)
    (w : world) :
  target fout dirout = stem ++ ".h5" ->
  no_newline stem = true ->
  contains "_x" stem = false ->
  contains ".h5" stem = false ->
  (0 <= n < 1000)%Z ->
  (forall m, (0 <= m < n)%Z -> tagged stem m ∈ fs w) ->
  tagged stem n ∉ fs w ->
  (forall d, dirout = Some d -> d = "" \/ d ∈ fs w) ->
  (Z.to_nat n < call_depth w)%nat ->
  (Gen.handle_fout fout dirout w).1 = Returns (tagged stem n).
Proof.
  intros Htarget Hnl Hx Hh5 Hn Htaken Hfree Hdir Hdepth.
  destruct (handle_fout_cases fout dirout w)
    as [(w' & -> & (_ & _ & Hcd & _) & Hfs & _)|(a & d & w' & _ & _ & Hd & Hne & Hout)];
    [|destruct (Hdir d Hd) as [->|Hin]; done].
  specialize (Hfs Hdir). rewrite Htarget.
  assert (Hstart : replace ".h5" "_x000.h5" (stem ++ ".h5") = tagged stem 0).
  { change (replace ".h5" "_x000.h5" (stem ++ ".h5"))
      with (replace_from ".h5" "_x000.h5" 0 (stem ++ ".h5")).
    rewrite replace_from_skip by (by apply occurs_before_h5). reflexivity. }
  rewrite Hstart. unfold Gen.get_unique_fout.
  rewrite (get_unique_fout_at_lowest stem n w' Hnl Hx Hn); [reflexivity| | | |].
  - by rewrite Hfs.
  - lia.
  - intros m Hm. rewrite Hfs. apply Htaken. lia.
  - rewrite Hcd, Z.sub_0_r. exact Hdepth.
Qed.

End LowestFreeTag.

(** "x.h5" into the directory "out", which is there with the tags 000
    and 001 taken: the path handed back is "out/x_x002.h5". *)
Lemma handle_fout_takes_lowest_free_tag_witness :
  (Gen.handle_fout "x.h5" (Some "out")
     (Fixture.world_of ["out"; "out/x_x000.h5"; "out/x_x001.h5"] [])).1
  = Returns "out/x_x002.h5".
Proof.
  apply (handle_fout_takes_lowest_free_tag "x.h5" (Some "out") "out/x" 2).
  - reflexivity.
  - reflexivity.
  - reflexivity.
  - reflexivity.
  - lia.
  - intros m Hm. assert (Hcases : m = 0%Z \/ m = 1%Z) by lia.
    destruct Hcases as [-> | ->]; apply elem_of_list_to_set.
    + apply list_elem_of_further, (list_elem_of_here "out/x_x000.h5").
    + apply list_elem_of_further, list_elem_of_further,
        (list_elem_of_here "out/x_x001.h5").
  - intros Hin. apply elem_of_list_to_set in Hin.
    apply elem_of_cons in Hin as [Hin|Hin]; [vm_compute in Hin; discriminate|].
    apply elem_of_cons in Hin as [Hin|Hin]; [vm_compute in Hin; discriminate|].
    apply elem_of_cons in Hin as [Hin|Hin]; [vm_compute in Hin; discriminate|].
    by apply elem_of_nil in Hin.
  - intros d [= <-]. right. apply elem_of_list_to_set, list_elem_of_here.
  - simpl. lia.
Defined.

(** ** The means view *)

Section ViewProperties.
Context `{SAM} {cell : Type} (getitem : output -> string -> option cell).

(** Below [2 ^ 53] every int is a float. *)
Lemma float_of_int_exact (k : Z) :
  (Z.abs k < 2 ^ 53)%Z -> GenViews.float_of_int k = Returns k.
Proof.
  intros Hk. unfold GenViews.float_of_int.
  assert (He : Z.max 0 (Z.log2 (Z.abs k) - 52) = 0%Z).
  { destruct (Z.eq_dec (Z.abs k) 0%Z) as [->|Hne]; [reflexivity|].
    assert (Z.log2 (Z.abs k) < 53)%Z by (apply Z.log2_lt_pow2; lia). lia. }
  rewrite He. cbv zeta. rewrite Z.pow_0_r, Z.div_1_r, Z.mod_1_r, Z.mul_1_r.
  change (1 <? 2 * 0)%Z with false. change (1 =? 2 * 0)%Z with false.
  cbn [orb andb].
  destruct (Z.leb_spec (2 ^ 1024) (Z.abs k)) as [Hbig|_].
  - exfalso. assert (2 ^ 53 < 2 ^ 1024)%Z by (apply Z.pow_lt_mono_r; lia). lia.
  - f_equal. lia.
Qed.

Lemma float_keys_exact (keys : list Z) :
  (forall k, k ∈ keys -> (Z.abs k < 2 ^ 53)%Z) ->
  GenViews.float_keys keys = Returns (map (fun k => (k, k)) keys).
Proof.
  induction keys as [|k keys IH]; intros Hall; [reflexivity|].
  simpl. rewrite float_of_int_exact by (apply Hall; by left).
  rewrite IH; [reflexivity|]. intros k' Hk'. apply Hall. by right.
Qed.

Lemma float_keys_raises (keys : list Z) (e : exn) :
  GenViews.float_keys keys = Raises e -> e = OverflowError.
Proof.
  induction keys as [|k keys IH]; [discriminate|]. simpl.
  destruct (GenViews.float_of_int k) as [f|e'] eqn:Hf.
  - destruct (GenViews.float_keys keys); [discriminate|].
    intros [= <-]. by apply IH.
  - intros [= <-]. unfold GenViews.float_of_int in Hf.
    destruct (_ <=? _)%Z in Hf; congruence.
Qed.

Lemma float_keys_snd (keys : list Z) (l : list (Z * Z)) :
  GenViews.float_keys keys = Returns l -> l.*2 = keys.
Proof.
  revert l. induction keys as [|k keys IH]; intros l; simpl.
  - by intros [= <-].
  - destruct (GenViews.float_of_int k); [|discriminate].
    destruct (GenViews.float_keys keys) as [l'|]; [|discriminate].
    intros [= <-]. rewrite fmap_cons. f_equal. by apply IH.
Qed.

Lemma insert_key_Permutation (x : Z * Z) (l : list (Z * Z)) :
  GenViews.insert_key x l ≡ₚ x :: l.
Proof.
  induction l as [|y l IH]; [reflexivity|]. simpl.
  destruct (x.1 <=? y.1)%Z; [reflexivity|].
  rewrite IH. apply Permutation_swap.
Qed.

Lemma stable_sort_Permutation (l : list (Z * Z)) : GenViews.stable_sort l ≡ₚ l.
Proof.
  induction l as [|x l IH]; [reflexivity|]. simpl.
  by rewrite insert_key_Permutation, IH.
Qed.

Lemma insert_key_sorted (x : Z * Z) (l : list (Z * Z)) :
  StronglySorted (fun a b => (a.1 <= b.1)%Z) l ->
  StronglySorted (fun a b => (a.1 <= b.1)%Z) (GenViews.insert_key x l).
Proof.
  induction 1 as [|y l Hl IH Hy]; simpl.
  - repeat constructor.
  - destruct (Z.leb_spec x.1 y.1) as [Hle|Hgt].
    + constructor; [by constructor|]. constructor; [exact Hle|].
      eapply Forall_impl; [exact Hy|]. intros z Hz. simpl in Hz. lia.
    + constructor; [exact IH|].
      rewrite insert_key_Permutation. constructor; [lia|exact Hy].
Qed.

Lemma stable_sort_sorted (l : list (Z * Z)) :
  StronglySorted (fun a b => (a.1 <= b.1)%Z) (GenViews.stable_sort l).
Proof.
  induction l as [|x l IH]; [constructor|]. simpl. by apply insert_key_sorted.
Qed.

(** What [sorted] hands back holds the keys of the table, each as often as
    the table does. *)
Lemma sorted_keys_Permutation (gen_out : list (Z * output)) (ks : list Z) :
  GenViews.sorted_keys gen_out = Returns ks -> ks ≡ₚ gen_out.*1.
Proof.
  unfold GenViews.sorted_keys.
  destruct (GenViews.float_keys gen_out.*1) as [l|] eqn:Hl; [|discriminate].
  intros [= <-]. rewrite stable_sort_Permutation. by rewrite (float_keys_snd _ _ Hl).
Qed.

Lemma strictly_sorted (l : list Z) :
  StronglySorted Z.le l -> NoDup l -> StronglySorted Z.lt l.
Proof.
  induction 1 as [|x l Hl IH Hx]; intros Hnd; [constructor|].
  apply NoDup_cons in Hnd as [Hxl Hnd]. constructor; [by apply IH|].
  apply Forall_forall. intros y Hy.
  rewrite Forall_forall in Hx. specialize (Hx y Hy).
  assert (x <> y) by (intros ->; done). lia.
Qed.

Lemma sorted_snd (l : list (Z * Z)) :
  Forall (fun p => p.1 = p.2) l ->
  StronglySorted (fun a b => (a.1 <= b.1)%Z) l ->
  StronglySorted Z.le l.*2.
Proof.
  intros Hsame. induction 1 as [|x l Hl IH Hx]; [constructor|].
  apply Forall_cons in Hsame as [Hx1 Hsame]. simpl.
  constructor; [by apply IH|].
  apply Forall_fmap. rewrite Forall_forall in Hx, Hsame.
  apply Forall_forall. intros y Hy. simpl.
  specialize (Hx y Hy). specialize (Hsame y Hy). simpl in Hx. lia.
Qed.

Lemma sorted_keys_ascending (gen_out : list (Z * output)) :
  NoDup gen_out.*1 ->
  (forall k, k ∈ gen_out.*1 -> (Z.abs k < 2 ^ 53)%Z) ->
  exists ks, GenViews.sorted_keys gen_out = Returns ks
             /\ StronglySorted Z.lt ks.
Proof.
  intros Hnd Hsmall. unfold GenViews.sorted_keys.
  rewrite (float_keys_exact _ Hsmall).
  eexists. split; [reflexivity|].
  set (l := map (fun k : Z => (k, k)) gen_out.*1).
  assert (Hsnd : l.*2 = gen_out.*1).
  { unfold l. rewrite <- list_fmap_compose. apply list_fmap_id. }
  apply strictly_sorted.
  - apply sorted_snd; [|apply stable_sort_sorted].
    rewrite stable_sort_Permutation. unfold l.
    apply Forall_fmap, Forall_forall. by intros k _.
  - by rewrite stable_sort_Permutation, Hsnd.
Qed.

Lemma lookup_elem (gen_out : list (Z * output)) (k : Z) :
  k ∈ gen_out.*1 <-> is_Some (GenViews.lookup gen_out k).
Proof.
  induction gen_out as [|[k' r] gen_out IH]; simpl.
  - split; [by intros ?%elem_of_nil|by intros [? ?]].
  - rewrite elem_of_cons. destruct (Z.eqb_spec k k') as [->|Hne].
    + split; [by eexists|by left].
    + rewrite <- IH. split; [by intros [?|?]|by right].
Qed.

Lemma collect_returns (name : string) (gen_out : list (Z * output))
    (keys : list Z) :
  (forall k, k ∈ keys ->
             exists r, GenViews.lookup gen_out k = Some r
                       /\ is_Some (getitem r name)) ->
  exists vs,
    GenViews.collect getitem name gen_out keys = Returns vs
    /\ length vs = length keys
    /\ forall i k, keys !! i = Some k ->
                   exists r, GenViews.lookup gen_out k = Some r
                             /\ vs !! i = getitem r name.
Proof.
  induction keys as [|k keys IH]; intros Hall.
  - exists []. split; [reflexivity|]. split; [reflexivity|]. by intros i k.
  - destruct (Hall k ltac:(by left)) as (r & Hr & [v Hv]).
    destruct IH as (vs & Hvs & Hlen & Hat).
    { intros k' Hk'. apply Hall. by right. }
    exists (v :: vs). simpl. rewrite Hr, Hv, Hvs.
    split; [reflexivity|]. split; [by rewrite Hlen|].
    intros [|i] k' Hi; simpl in Hi.
    + injection Hi as <-. exists r. by rewrite Hv.
    + by apply Hat.
Qed.

Lemma collect_raises (name : string) (gen_out : list (Z * output))
    (keys : list Z) (e : exn) :
  (forall k, k ∈ keys -> is_Some (GenViews.lookup gen_out k)) ->
  GenViews.collect getitem name gen_out keys = Raises e ->
  e = KeyError name
  /\ exists k r, k ∈ keys /\ GenViews.lookup gen_out k = Some r
                 /\ getitem r name = None.
Proof.
  induction keys as [|k keys IH]; intros Hall; [discriminate|].
  simpl. destruct (Hall k ltac:(by left)) as [r Hr]. rewrite Hr.
  destruct (getitem r name) as [v|] eqn:Hv.
  - destruct (GenViews.collect getitem name gen_out keys) as [vs|e'] eqn:Hc;
      [discriminate|].
    intros [= ->]. destruct IH as (-> & k' & r' & Hk' & Hr' & Hnone);
      [intros k' Hk'; apply Hall; by right|reflexivity|].
    split; [reflexivity|]. exists k', r'. split; [by right|done].
  - intros [= <-]. split; [reflexivity|]. exists k, r. split; [by left|done].
Qed.

(** The means view follows the sites in ascending order, for a table whose
    sites are below [2 ^ 53] in size, where [float] tells any two of them
    apart.  [sorted] returns the sites of the table, each once, strictly
    ascending.  If every output record has a "cf_mean", [unpack_cf_means]
    returns one entry per site, entry [i] being the "cf_mean" of the [i]-th
    smallest site; if not, it raises [KeyError] for a record that has
    none. *)
Theorem unpack_cf_means_follows_site_order (gen_out : list (Z * output)) :
  NoDup gen_out.*1 ->
  (forall k, k ∈ gen_out.*1 -> (Z.abs k < 2 ^ 53)%Z) ->
  exists ks,
    GenViews.sorted_keys gen_out = Returns ks
    /\ StronglySorted Z.lt ks
    /\ (forall k, k ∈ ks <-> is_Some (GenViews.lookup gen_out k))
    /\ ((forall k r, GenViews.lookup gen_out k = Some r ->
                     is_Some (getitem r "cf_mean")) ->
        exists vs,
          GenViews.unpack_cf_means getitem gen_out = Returns vs
          /\ length vs = length gen_out
          /\ forall i k, ks !! i = Some k ->
                         exists r, GenViews.lookup gen_out k = Some r
                                   /\ vs !! i = getitem r "cf_mean")
    /\ (forall e,
          GenViews.unpack_cf_means getitem gen_out = Raises e ->
          e = KeyError "cf_mean"
          /\ exists k r, GenViews.lookup gen_out k = Some r
                         /\ getitem r "cf_mean" = None).
Proof.
  intros Hnd Hsmall.
  destruct (sorted_keys_ascending gen_out Hnd Hsmall) as (ks & Hks & Hsorted).
  pose proof (sorted_keys_Permutation gen_out ks Hks) as Hperm.
  assert (Hin : forall k, k ∈ ks <-> is_Some (GenViews.lookup gen_out k)).
  { intros k. by rewrite Hperm, lookup_elem. }
  exists ks. split; [exact Hks|]. split; [exact Hsorted|].
  split; [exact Hin|]. unfold GenViews.unpack_cf_means. rewrite Hks. split.
  - intros Hall.
    destruct (collect_returns "cf_mean" gen_out ks) as (vs & Hvs & Hlen & Hat).
    { intros k Hk. apply Hin in Hk as [r Hr].
      exists r. split; [exact Hr|]. by eapply Hall. }
    exists vs. split; [exact Hvs|]. split; [|exact Hat].
    by rewrite Hlen, Hperm, length_fmap.
  - intros e He.
    apply collect_raises in He as (-> & k & r & _ & Hr & Hnone).
    + split; [reflexivity|]. by exists k, r.
    + intros k Hk. by apply Hin.
Qed.

End ViewProperties.

(** Two sites, the larger inserted first. *)
Lemma unpack_cf_means_follows_site_order_witness :
  GenViews.sorted_keys (Fixture.table [(12%Z, 5); (10%Z, 7)])
  = Returns [10%Z; 12%Z]
  /\ GenViews.unpack_cf_means Fixture.record_getitem
       (Fixture.table [(12%Z, 5); (10%Z, 7)])
     = Returns [7; 5].
Proof.
  destruct (unpack_cf_means_follows_site_order Fixture.record_getitem
              (Fixture.table [(12%Z, 5); (10%Z, 7)])) as (ks & Hks & _).
  - apply NoDup_cons. split; [|apply NoDup_singleton].
    intros Hin. apply list_elem_of_singleton in Hin. discriminate Hin.
  - intros k Hk. apply elem_of_cons in Hk as [->|Hk]; [reflexivity|].
    apply list_elem_of_singleton in Hk as ->. reflexivity.
  - split; vm_compute; reflexivity.
Defined.

(** Beyond [2 ^ 53] the order is that of the floats: the sites
    [2 ^ 53 + 1] and [2 ^ 53] are the same float, so they stay as they were
    inserted, the larger first; and a site of [2 ^ 1024] is no float at
    all. *)
Example sorted_keys_beyond_floats :
  GenViews.sorted_keys (Fixture.table [((2 ^ 53 + 1)%Z, 5); ((2 ^ 53)%Z, 7)])
  = Returns [(2 ^ 53 + 1)%Z; (2 ^ 53)%Z]
  /\ GenViews.unpack_cf_means Fixture.record_getitem
       (Fixture.table [((2 ^ 53 + 1)%Z, 5); ((2 ^ 53)%Z, 7)])
     = Returns [5; 7]
  /\ GenViews.unpack_cf_means Fixture.record_getitem
       (Fixture.table [(1%Z, 5); ((2 ^ 1024)%Z, 7)])
     = Raises OverflowError.
Proof. repeat split; vm_compute; reflexivity. Qed.


(** Two flushes to "x.h5" in a row, with "x.h5" there from the start. *)
Lemma flushes_write_distinct_new_files_witness :
  let jobs := [(Fixture.gen_with_result "x.h5", "w");
               (Fixture.gen_with_result "x.h5", "w")] in
  let w := Fixture.world_of ["x.h5"]
             [("ri_100_nsrdb_2012.h5", mkResource [] [])] in
  let w' := (flush_each jobs w).2 in
  (forall p, p ∈ fs w -> p ∈ fs w')
  /\ exists news,
       written (trace w') = (written (trace w) ++ news)%list
       /\ NoDup news
       /\ (forall r, r ∈ news -> (r ∉ fs w) /\ r ∈ fs w').
Proof.
  cbv zeta.
  apply (flushes_write_distinct_new_files
           [(Fixture.gen_with_result "x.h5", "w");
            (Fixture.gen_with_result "x.h5", "w")]).
  repeat constructor; simpl; intros x Hx; first [discriminate Hx | by injection Hx as <-].
Defined.
